(** * Subcommand resolution of the [cli] package

    A shallow embedding of [cli.go]: registry construction with automatic
    parent synthesis ([init]), the argument classifier ([processArgs]),
    parent computation ([subcommandParent]), the help listing
    ([helpCommands]), the help of a command ([commandHelp]) and the
    dispatcher ([Run]).  [Run] returns or panics: [init] panics when
    [regexp.MustCompile] does, and [commandHelp] panics in its loop over
    the listed subcommands and in the template engine.

    Go strings are byte sequences and are modelled by [string] (one [ascii]
    per byte).  The command registry is a [gmap string CommandFactory]. *)

From Stdlib Require Import ZArith Ascii String.
From stdpp Require Import gmap strings list sorting.

Local Open Scope Z_scope.
Local Open Scope nat_scope.

(** ** The parts of Go's [strings] package that [cli.go] calls *)

Module Strings.

Definition space : ascii := " "%char.
Definition dash : ascii := "-"%char.

(** [strings.ContainsRune(s, r)] for a one-byte rune [r]. *)
Fixpoint ContainsRune (s : string) (r : ascii) : bool :=
  match s with
  | EmptyString => false
  | String a s' => if Ascii.eqb a r then true else ContainsRune s' r
  end.

(** [strings.LastIndex(s, " ")]; [None] stands for Go's [-1]. *)
Fixpoint LastIndex (s : string) (r : ascii) : option nat :=
  match s with
  | EmptyString => None
  | String a s' =>
      match LastIndex s' r with
      | Some i => Some (S i)
      | None => if Ascii.eqb a r then Some 0 else None
      end
  end.

(** [strings.Count(s, " ")]. *)
Fixpoint Count (s : string) (r : ascii) : nat :=
  match s with
  | EmptyString => 0
  | String a s' => (if Ascii.eqb a r then 1 else 0) + Count s' r
  end.

(** The slice expression [s[:n]] on a string. *)
Fixpoint sliceTo (s : string) (n : nat) : string :=
  match n, s with
  | S n', String a s' => String a (sliceTo s' n')
  | _, _ => EmptyString
  end.

(** The slice expression [s[n:]] on a string. *)
Fixpoint sliceFrom (s : string) (n : nat) : string :=
  match n, s with
  | S n', String _ s' => sliceFrom s' n'
  | _, _ => s
  end.

(** [strings.Join(elems, " ")]. *)
Fixpoint Join (elems : list string) (sep : string) : string :=
  match elems with
  | [] => EmptyString
  | [e] => e
  | e :: rest => e +:+ sep +:+ Join rest sep
  end.

(** [strings.HasPrefix(s, p)]. *)
Fixpoint HasPrefix (s p : string) : bool :=
  match p, s with
  | EmptyString, _ => true
  | String b p', String a s' => Ascii.eqb a b && HasPrefix s' p'
  | String _ _, EmptyString => false
  end.

(** Reversal of the bytes of a string, used to read a string from its
    end. *)
Definition reverse (s : string) : string :=
  string_of_list_ascii (rev (list_ascii_of_string s)).

(** [strings.TrimRight(s, " ")]: drop every trailing space byte. *)
Fixpoint dropLeading (s : string) (r : ascii) : string :=
  match s with
  | String a s' => if Ascii.eqb a r then dropLeading s' r else s
  | EmptyString => EmptyString
  end.

Definition TrimRight (s : string) (r : ascii) : string :=
  reverse (dropLeading (reverse s) r).

(** White space as [unicode.IsSpace] sees it, on the UTF-8 bytes.
    One byte: U+0009..U+000D and U+0020. *)
Definition asciiSpace (c : ascii) : bool :=
  let n := N_of_ascii c in
  ((9 <=? n) && (n <=? 13) || (n =? 32))%N.

(** Two bytes: U+0085 (C2 85) and U+00A0 (C2 A0). *)
Definition space2 (c1 c2 : ascii) : bool :=
  let n1 := N_of_ascii c1 in
  let n2 := N_of_ascii c2 in
  ((n1 =? 194) && ((n2 =? 133) || (n2 =? 160)))%N.

(** Three bytes: U+1680 (E1 9A 80), U+2000..U+200A (E2 80 80..8A),
    U+2028, U+2029 (E2 80 A8, A9), U+202F (E2 80 AF), U+205F (E2 81 9F)
    and U+3000 (E3 80 80). *)
Definition space3 (c1 c2 c3 : ascii) : bool :=
  let n1 := N_of_ascii c1 in
  let n2 := N_of_ascii c2 in
  let n3 := N_of_ascii c3 in
  ((n1 =? 225) && (n2 =? 154) && (n3 =? 128)
   || (n1 =? 226) && (n2 =? 128)
      && ((128 <=? n3) && (n3 <=? 138) || (n3 =? 168) || (n3 =? 169) || (n3 =? 175))
   || (n1 =? 226) && (n2 =? 129) && (n3 =? 159)
   || (n1 =? 227) && (n2 =? 128) && (n3 =? 128))%N.

(** The loop of [strings.TrimLeftFunc] and, on the reversed bytes, of
    [strings.TrimRightFunc]: a rune is decoded at the head and dropped
    when it is white space; the loop stops at the first rune that is not.
    [is1], [is2] and [is3] recognise the white space of one, two and three
    bytes. *)
Fixpoint trimRunes (is1 : ascii → bool) (is2 : ascii → ascii → bool)
    (is3 : ascii → ascii → ascii → bool) (s : list ascii) : list ascii :=
  match s with
  | c1 :: r1 =>
      if is1 c1 then trimRunes is1 is2 is3 r1
      else
        match r1 with
        | c2 :: r2 =>
            if is2 c1 c2 then trimRunes is1 is2 is3 r2
            else
              match r2 with
              | c3 :: r3 => if is3 c1 c2 c3 then trimRunes is1 is2 is3 r3 else s
              | [] => s
              end
        | [] => s
        end
  | [] => []
  end.

(** [strings.TrimLeftFunc(s, unicode.IsSpace)]. *)
Definition trimLeftSpace (s : list ascii) : list ascii :=
  trimRunes asciiSpace space2 space3 s.

(** [strings.TrimRightFunc(s, unicode.IsSpace)] on the reversed bytes: the
    last rune is decoded from the end, so its bytes come in reverse. *)
Definition trimLeftSpaceRev (s : list ascii) : list ascii :=
  trimRunes asciiSpace (λ c1 c2, space2 c2 c1) (λ c1 c2 c3, space3 c3 c2 c1) s.

Definition trimRightSpace (s : list ascii) : list ascii :=
  rev (trimLeftSpaceRev (rev s)).

(** [strings.TrimSpace(s)]. *)
Definition TrimSpace (s : string) : string :=
  string_of_list_ascii (trimRightSpace (trimLeftSpace (list_ascii_of_string s))).

End Strings.

(** ** The part of Go's [unicode/utf8] package that [regexp] relies on *)

Module Utf8.

Definition between (lo hi : N) (c : ascii) : bool :=
  let n := N_of_ascii c in
  ((lo <=? n) && (n <=? hi))%N.

(** The second byte that the decoder accepts after the first byte [c0]
    of a sequence of two, three or four bytes: E0 is followed by A0..BF,
    ED by 80..9F, F0 by 90..BF, F4 by 80..8F and every other first byte by
    80..BF. *)
Definition second (c0 c1 : ascii) : bool :=
  let n := N_of_ascii c0 in
  if (n =? 224)%N then between 160 191 c1
  else if (n =? 237)%N then between 128 159 c1
  else if (n =? 240)%N then between 144 191 c1
  else if (n =? 244)%N then between 128 143 c1
  else between 128 191 c1.

(** [utf8.RuneError], the rune U+FFFD that stands for a byte that starts
    no valid sequence. *)
Definition RuneError : N := 65533.

Definition bits (c : ascii) (base : N) : N := (N_of_ascii c - base)%N.

(** The runes of [s] as [utf8.DecodeRuneInString] yields them one after
    the other: one byte below 80; a sequence of two (C2..DF), three
    (E0..EF) or four (F0..F4) bytes with its continuation bytes in range;
    or [RuneError] for one byte that starts no such sequence.  It is how
    the [regexp] engine reads its text. *)
Fixpoint runes (s : string) : list N :=
  match s with
  | EmptyString => []
  | String c0 r0 =>
      if between 0 127 c0 then N_of_ascii c0 :: runes r0
      else if between 194 223 c0 then
        match r0 with
        | String c1 r1 =>
            if second c0 c1
            then (bits c0 192 * 64 + bits c1 128)%N :: runes r1
            else RuneError :: runes r0
        | _ => RuneError :: runes r0
        end
      else if between 224 239 c0 then
        match r0 with
        | String c1 (String c2 r2) =>
            if second c0 c1 && between 128 191 c2
            then (bits c0 224 * 4096 + bits c1 128 * 64 + bits c2 128)%N :: runes r2
            else RuneError :: runes r0
        | _ => RuneError :: runes r0
        end
      else if between 240 244 c0 then
        match r0 with
        | String c1 (String c2 (String c3 r3)) =>
            if second c0 c1 && between 128 191 c2 && between 128 191 c3
            then (bits c0 240 * 262144 + bits c1 128 * 4096
                  + bits c2 128 * 64 + bits c3 128)%N :: runes r3
            else RuneError :: runes r0
        | _ => RuneError :: runes r0
        end
      else RuneError :: runes r0
  end.

(** [utf8.ValidString(s)]: no byte of [s] is decoded as an invalid one.
    A pattern passes the check of [regexp/syntax] exactly when this holds
    of it. *)
Fixpoint ValidString (s : string) : bool :=
  match s with
  | EmptyString => true
  | String c0 r0 =>
      if between 0 127 c0 then ValidString r0
      else if between 194 223 c0 then
        match r0 with
        | String c1 r1 => second c0 c1 && ValidString r1
        | _ => false
        end
      else if between 224 239 c0 then
        match r0 with
        | String c1 (String c2 r2) =>
            second c0 c1 && between 128 191 c2 && ValidString r2
        | _ => false
        end
      else if between 240 244 c0 then
        match r0 with
        | String c1 (String c2 (String c3 r3)) =>
            second c0 c1 && between 128 191 c2 && between 128 191 c3 && ValidString r3
        | _ => false
        end
      else false
  end.

End Utf8.

(** ** The prefix registry

    Modelled from the spec: the radix tree of package
    [mlib.com/mrun/containers/tree/radix] is imported by [cli.go] and is not
    part of the sources.  Section 4.1 of the specification gives its
    contract: [Insert] stores a value under a key (last write wins), [Get]
    is an exact lookup, [LongestPrefix] returns the longest stored key that
    is a character-level prefix of the query, [Walk] visits every key and
    [WalkPrefix] every key that has the given prefix. *)

Module Radix.
Section Tree.
Context {V : Type}.

(** Modelled from the spec: [radix.New], the empty registry. *)
Definition New : gmap string V := ∅.

(** Modelled from the spec: [Insert] stores the value under the key; the
    last write for a key wins. *)
Definition Insert (t : gmap string V) (k : string) (v : V) : gmap string V :=
  <[k:=v]> t.

(** Modelled from the spec: [Get] is the exact lookup. *)
Definition Get (t : gmap string V) (k : string) : option V := t !! k.

(** Every character-level prefix of [s], the longest first. *)
Fixpoint prefixes (s : string) : list string :=
  match s with
  | EmptyString => [EmptyString]
  | String a s' => (String a <$> prefixes s') ++ [EmptyString]
  end.

Fixpoint firstStored (t : gmap string V) (ps : list string) : option (string * V) :=
  match ps with
  | [] => None
  | p :: ps' =>
      match t !! p with
      | Some v => Some (p, v)
      | None => firstStored t ps'
      end
  end.

(** Modelled from the spec: [LongestPrefix] returns the longest stored key
    that is a prefix of [s] at the character level, with its value. *)
Definition LongestPrefix (t : gmap string V) (s : string) : option (string * V) :=
  firstStored t (prefixes s).

(** Modelled from the spec: the entries [Walk] hands to its callback. *)
Definition Walk (t : gmap string V) : list (string * V) := map_to_list t.

(** Modelled from the spec: the entries [WalkPrefix] hands to its
    callback, those whose key has [prefix] as a character-level prefix. *)
Definition WalkPrefix (t : gmap string V) (prefix : string) : gmap string V :=
  filter (λ kv, Is_true (Strings.HasPrefix kv.1 prefix)) t.
End Tree.
End Radix.

(** ** Commands and factories

    Modelled from the spec: the [Command] interface, [CommandFactory],
    [MockCommand] and the constant [RunResultHelp] are declared in files
    of the package that are not part of the sources.  A command produces
    help text, a one-line synopsis and runs on an argument list to an
    integer; it may carry its own help template.  A factory is a
    zero-argument constructor that yields a command or an error. *)

Module Command.
(** Modelled from the spec: the capabilities of a [Command]: help text,
    synopsis, execution on an argument list to an integer, and the
    optional help template. *)
Record t : Type := Build {
  Help : string;
  Synopsis : string;
  Run : list string → Z;
  HelpTemplate : option string
}.
End Command.

(** Modelled from the spec: [CommandFactory], a zero-argument constructor
    that yields a command or a construction error.  A factory that returns
    neither is not modelled. *)
Definition CommandFactory : Type := unit → Command.t + string.

(** Modelled from the spec: [HelpFunc], which turns the listed commands
    into the help text. *)
Definition HelpFuncT : Type := gmap string CommandFactory → string.

(** An [io.Writer]: the process's standard error or one the caller gave. *)
Inductive Writer : Type :=
| osStderr
| callerWriter (id : nat).

(** The exported fields of [CLI].  [Commands] is a Go map: the list gives
    its entries in the order the [range] loop of [init] happens to visit
    them. *)
Record CLI : Type := {
  Args : list string;
  Commands : list (string * CommandFactory);
  HiddenCommands : list string;
  Name : string;
  Version : string;
  HelpFunc : option HelpFuncT;
  HelpWriter : option Writer;
  ErrorWriter : option Writer
}.

(** The fields [processArgs] assigns.  They are unexported and hold their
    zero values when [init] starts. *)
Record Dispatch : Type := {
  subcommand : string;
  subcommandArgs : list string;
  topFlags : list string;
  isHelp : bool;
  isVersion : bool
}.

Definition zeroDispatch : Dispatch :=
  {| subcommand := ""; subcommandArgs := []; topFlags := [];
     isHelp := false; isVersion := false |}.

Definition set_subcommand (v : string) (d : Dispatch) : Dispatch :=
  {| subcommand := v; subcommandArgs := subcommandArgs d; topFlags := topFlags d;
     isHelp := isHelp d; isVersion := isVersion d |}.

Definition set_subcommandArgs (v : list string) (d : Dispatch) : Dispatch :=
  {| subcommand := subcommand d; subcommandArgs := v; topFlags := topFlags d;
     isHelp := isHelp d; isVersion := isVersion d |}.

Definition set_topFlags (v : list string) (d : Dispatch) : Dispatch :=
  {| subcommand := subcommand d; subcommandArgs := subcommandArgs d; topFlags := v;
     isHelp := isHelp d; isVersion := isVersion d |}.

Definition set_isHelp (v : bool) (d : Dispatch) : Dispatch :=
  {| subcommand := subcommand d; subcommandArgs := subcommandArgs d; topFlags := topFlags d;
     isHelp := v; isVersion := isVersion d |}.

Definition set_isVersion (v : bool) (d : Dispatch) : Dispatch :=
  {| subcommand := subcommand d; subcommandArgs := subcommandArgs d; topFlags := topFlags d;
     isHelp := isHelp d; isVersion := v |}.

(** The state of a [CLI] once [init] has run. *)
Record Initialized : Type := {
  helpFunc : HelpFuncT;
  helpWriter : Writer;
  errorWriter : Writer;
  commandTree : gmap string CommandFactory;
  commandNested : bool;
  commandHidden : gset string;
  dispatch : Dispatch
}.

(** What control does at the end of one iteration of the scanning loop:
    it goes on, leaves the loop by [break], leaves [processArgs] by
    [return], or leaves it by the panic of [regexp.MustCompile]. *)
Inductive Flow : Type :=
| FlowNext
| FlowBreak
| FlowReturn
| FlowPanic.

(** How the scanning loop of [processArgs] was left: by running out of
    arguments, by [break] at index [i], by [return] at index [i], or by a
    panic at index [i]. *)
Inductive LoopExit : Type :=
| RanOut
| Broke (i : nat)
| Returned (i : nat)
| Panicked (i : nat).

(** Which of the two sinks a write goes to. *)
Inductive Sink : Type :=
| ToHelpWriter
| ToErrorWriter.

(** The diagnostics that [commandHelp] writes to [c.ErrorWriter],
    whatever writer it was called for: a listed key without a factory
    (line 360), a factory of a listed subcommand that returned an error
    (line 365), and an error of the template's execution (line 392). *)
Inductive HelpError : Type :=
| MissingSubcommand (key : string)
| InstantiateError (key : string) (err : string)
| RenderError (err : string).

(** What [Run] does to the outside, in order: the version written to a
    sink, the text of [HelpFunc] for a listing written to a sink, the call
    of the factory registered under a key (by [Run] for the classified
    path, by [commandHelp] for a listed subcommand), the diagnostic about
    flags before the subcommand written to a sink, the execution of the
    help template of a command on a sink ([commandHelp], line 386), a
    diagnostic of [commandHelp] written to the error writer, and the run
    of a command on its arguments. *)
Inductive Event : Type :=
| EvWriteVersion (s : Sink) (text : string)
| EvHelpFunc (s : Sink) (listed : gmap string CommandFactory) (text : string)
| EvFactory (path : string)
| EvInvalidFlags (s : Sink) (text : string)
| EvCommandHelp (s : Sink) (command : Command.t)
| EvHelpError (e : HelpError)
| EvCommandRun (command : Command.t) (args : list string).

(** What a call of [Run] that returns hands back, with what it did. *)
Record RunResult : Type := {
  exitCode : Z;
  runError : option string;
  trace : list Event
}.

(** A call of [Run] returns, or panics after the events [tr]. *)
Inductive RunOutcome : Type :=
| Returns (r : RunResult)
| Panics (tr : list Event).

(** What a call of [Run] did, whether it returned or panicked. *)
Definition traceOf (o : RunOutcome) : list Event :=
  match o with
  | Returns r => trace r
  | Panics tr => tr
  end.

(** One element of the [Subcommands] list handed to the help template. *)
Record SubcommandData : Type := {
  dataName : string;
  dataNameAligned : string;
  dataHelp : string;
  dataSynopsis : string
}.

(** The data handed to the help template. *)
Record TemplateData : Type := {
  tdName : string;
  tdSubcommandName : string;
  tdHelp : string;
  tdSubcommands : list SubcommandData
}.

(** How the execution of a template ends: with no error, with an error,
    or with a panic. *)
Inductive Rendering : Type :=
| Rendered
| RenderFails (err : string)
| RenderPanics.


(** ** [cli.go] *)

Definition newline : string := String (ascii_of_nat 10) EmptyString.

Definition invalidFlagsText : string :=
  "Invalid flags before the subcommand. If these flags are for" +:+ newline +:+
  "the subcommand, please put them after the subcommand." +:+ newline +:+ newline.

Definition placeholderHelpText : string :=
  "This command is accessed by using one of the subcommands below.".

(** The test [arg == "-h" || arg == "-help" || arg == "--help"]. *)
Definition isHelpFlag (arg : string) : bool :=
  String.eqb arg "-h" || String.eqb arg "-help" || String.eqb arg "--help".

(** The test [arg == "-v" || arg == "-version" || arg == "--version"]. *)
Definition isVersionFlag (arg : string) : bool :=
  String.eqb arg "-v" || String.eqb arg "-version" || String.eqb arg "--version".

(** The test [arg != "" && arg[0] == '-']. *)
Definition startsWithDash (arg : string) : bool :=
  match arg with
  | EmptyString => false
  | String a _ => Ascii.eqb a Strings.dash
  end.

(** The test [arg != "" && arg[0] != '-']. *)
Definition startsWithoutDash (arg : string) : bool :=
  match arg with
  | EmptyString => false
  | String a _ => negb (Ascii.eqb a Strings.dash)
  end.

(** The slice expression [l[i:j]] on a list. *)
Definition sliceArgs (l : list string) (i j : nat) : list string :=
  take (j - i) (drop i l).

(** A segment boundary after the prefix [k] of [s]: [s] starts with the
    bytes of [k], and a space or the end of [s] follows. *)
Definition matchesHere (k s : string) : bool :=
  Strings.HasPrefix s k &&
  match Strings.sliceFrom s (String.length k) with
  | EmptyString => true
  | String a _ => Ascii.eqb a Strings.space
  end.

(** The match of the pattern [regexp.QuoteMeta(k) + `( |$)`] at the head
    of a text: the runes of the key, then a space or the end of the
    text. *)
Fixpoint matchesRunes (pattern text : list N) : bool :=
  match pattern, text with
  | [], [] => true
  | [], r :: _ => (r =? 32)%N
  | p :: pattern', r :: text' => (p =? r)%N && matchesRunes pattern' text'
  | _ :: _, [] => false
  end.

(** The search of the pattern in a text: it is not anchored at the start,
    so the match may begin at any rune of the text. *)
Fixpoint searchRunes (pattern text : list N) : bool :=
  matchesRunes pattern text ||
  match text with
  | [] => false
  | _ :: text' => searchRunes pattern text'
  end.

(** [reVerify.MatchString(searchKey)] for the pattern compiled from the
    key [k], which [scanStep] asks for only when the pattern compiles,
    that is, when [k] is valid UTF-8.  The engine reads the text rune by
    rune; a byte of the text that starts no valid sequence is read as
    [RuneError]. *)
Definition reVerifyMatchString (k s : string) : bool :=
  searchRunes (Utf8.runes k) (Utf8.runes s).

(** The loop of lines 477-484 over [c.Args[i:]]: [vs] is what is left of
    the slice, [k] the index in it, [j] the value assigned so far. *)
Fixpoint searchEnd (i k : nat) (vs : list string) (j : nat) : nat :=
  match vs with
  | [] => j
  | v :: vs' =>
      if Strings.ContainsRune v Strings.space || String.eqb v "" || startsWithDash v
      then j
      else searchEnd i (S k) vs' (i + k + 1)
  end.

(** [walkFn] of [init]: the parents of [k] that the tree lacks are added to
    [toInsert], up to the first parent that is there.  The Go closure
    always returns [false], so [Walk] goes on to every key.  [fuel] bounds
    the recursive calls; the length of [k] is enough
    ([walkFn_fuel_enough]). *)
Fixpoint walkFn (fuel : nat) (tree : gmap string CommandFactory) (k : string)
    (toInsert : gset string) : gset string :=
  match fuel with
  | 0 => toInsert
  | S fuel' =>
      match Strings.LastIndex k Strings.space with
      | None => toInsert
      | Some idx =>
          let k := Strings.sliceTo k idx in
          match Radix.Get tree k with
          | Some _ => toInsert
          | None => walkFn fuel' tree k ({[k]} ∪ toInsert)
          end
      end
  end.

Section Cli.

(** The constant [RunResultHelp] and the function [BasicHelpFunc] are
    declared outside the sources; the development holds for any value of
    them. *)
Variable RunResultHelp : Z.
Variable BasicHelpFunc : string → HelpFuncT.

(** The template engine ([text/template] with the functions of [sprig])
    is outside the sources as well.  [templateMustPanics tpl] tells
    whether lines 319-324 of [commandHelp] panic on the template text
    [tpl]: [Parse] fails on [tpl] and again on the text of the internal
    error, so that [template.Must] panics.  [templateExecute tpl data] is
    how [t.Execute(out, data)] of line 386 ends for the template that
    lines 319-324 leave in [t]. *)
Variable templateMustPanics : string → bool.
Variable templateExecute : string → TemplateData → Rendering.

(** Modelled from the spec: the [MockCommand] behind an automatically
    created parent, a command whose help text tells to pick a subcommand
    and whose run returns [RunResultHelp]. *)
Definition placeholderCommand : Command.t :=
  {| Command.Help := placeholderHelpText;
     Command.Synopsis := "";
     Command.Run := λ _, RunResultHelp;
     Command.HelpTemplate := None |}.

Definition placeholderFactory : CommandFactory := λ _, inl placeholderCommand.

(** Lines 253-262: the tree and the nesting flag built from [Commands]. *)
Definition insertCommand (acc : gmap string CommandFactory * bool)
    (kv : string * CommandFactory) : gmap string CommandFactory * bool :=
  let k := Strings.TrimSpace kv.1 in
  (Radix.Insert acc.1 k kv.2,
   if Strings.ContainsRune k Strings.space then true else acc.2).

Definition buildTree (cmds : list (string * CommandFactory))
    : gmap string CommandFactory * bool :=
  foldl insertCommand (Radix.New, false) cmds.

(** Lines 266-290: the walk that collects the missing parents. *)
Definition collectMissing (tree : gmap string CommandFactory) : gset string :=
  foldl (λ toInsert kv, walkFn (String.length kv.1) tree kv.1 toInsert)
        ∅ (Radix.Walk tree).

(** Lines 292-302: a placeholder is inserted for each missing parent. *)
Definition insertPlaceholders (tree : gmap string CommandFactory)
    (toInsert : gset string) : gmap string CommandFactory :=
  set_fold (λ k t, Radix.Insert t k placeholderFactory) tree toInsert.

(** Lines 253-303. *)
Definition buildRegistry (cmds : list (string * CommandFactory))
    : gmap string CommandFactory * bool :=
  let '(tree, nested) := buildTree cmds in
  if nested then (insertPlaceholders tree (collectMissing tree), nested)
  else (tree, nested).

(** One iteration of the loop of [processArgs], lines 437-505, for the
    index [i] and the argument [arg].  [regexp.MustCompile] (line 495)
    panics when its pattern does not compile; the metacharacters of the
    key are quoted, so that happens when the key is not valid UTF-8.  The
    fields keep what was assigned before the panic. *)
Definition scanStep (args : list string) (tree : gmap string CommandFactory)
    (nested : bool) (i : nat) (arg : string) (d : Dispatch) : Flow * Dispatch :=
  if String.eqb arg "--" then (FlowBreak, d)
  else if isHelpFlag arg then (FlowNext, set_isHelp true d)
  else if String.eqb (subcommand d) "" && isVersionFlag arg
  then (FlowNext, set_isVersion true d)
  else
    let d :=
      if String.eqb (subcommand d) "" && startsWithDash arg
      then set_topFlags (topFlags d ++ [arg]) d
      else d in
    if String.eqb (subcommand d) "" && startsWithoutDash arg then
      let d := set_subcommand arg d in
      if nested then
        if Strings.ContainsRune arg Strings.space
        then (FlowReturn, set_subcommand "" d)
        else
          let j := searchEnd i 0 (drop i args) 0 in
          let searchKey := Strings.Join (sliceArgs args i j) " " in
          match Radix.LongestPrefix tree searchKey with
          | Some (k, _) =>
              if Utf8.ValidString k then
                let '(d, i) :=
                  if reVerifyMatchString k searchKey
                  then (set_subcommand k d, i + Strings.Count k Strings.space)
                  else (d, i) in
                (FlowNext, set_subcommandArgs (drop (i + 1) args) d)
              else (FlowPanic, d)
          | None => (FlowNext, set_subcommandArgs (drop (i + 1) args) d)
          end
      else (FlowNext, set_subcommandArgs (drop (i + 1) args) d)
    else (FlowNext, d).

(** The loop [for i, arg := range c.Args]: [rest] is [c.Args[i:]]. *)
Fixpoint scanLoop (args : list string) (tree : gmap string CommandFactory)
    (nested : bool) (i : nat) (rest : list string) (d : Dispatch)
    : Dispatch * LoopExit :=
  match rest with
  | [] => (d, RanOut)
  | arg :: rest' =>
      match scanStep args tree nested i arg d with
      | (FlowNext, d') => scanLoop args tree nested (S i) rest' d'
      | (FlowBreak, d') => (d', Broke i)
      | (FlowReturn, d') => (d', Returned i)
      | (FlowPanic, d') => (d', Panicked i)
      end
  end.

(** The test [_, ok := c.Commands[""]]. *)
Definition hasDefaultCommand (cmds : list (string * CommandFactory)) : bool :=
  existsb (λ kv, String.eqb kv.1 "") cmds.

(** Lines 508-517: the switch to the default command. *)
Definition defaultSwitch (cmds : list (string * CommandFactory)) (d : Dispatch)
    : Dispatch :=
  if String.eqb (subcommand d) "" && hasDefaultCommand cmds
  then set_subcommandArgs (topFlags d ++ subcommandArgs d) (set_topFlags [] d)
  else d.

Definition scanArgs (c : CLI) (tree : gmap string CommandFactory) (nested : bool)
    (d : Dispatch) : Dispatch * LoopExit :=
  scanLoop (Args c) tree nested 0 (Args c) d.

(** [processArgs]: the fields when it ends.  The [return] inside the loop
    leaves the function, and so does a panic: the default switch is
    skipped on these paths. *)
Definition processArgs (c : CLI) (tree : gmap string CommandFactory) (nested : bool)
    (d : Dispatch) : Dispatch :=
  match scanArgs c tree nested d with
  | (d', Returned _) => d'
  | (d', Panicked _) => d'
  | (d', _) => defaultSwitch (Commands c) d'
  end.

(** Whether [processArgs] ends by a panic. *)
Definition processArgsPanics (c : CLI) (tree : gmap string CommandFactory)
    (nested : bool) (d : Dispatch) : bool :=
  match scanArgs c tree nested d with
  | (_, Panicked _) => true
  | _ => false
  end.

(** [init]: the fields of the receiver when [init] ends, by its return or
    by the panic of [processArgs], its last statement ([initPanics] tells
    which). *)
Definition init (c : CLI) : Initialized :=
  let hf :=
    match HelpFunc c with
    | Some f => f
    | None => if String.eqb (Name c) "" then BasicHelpFunc "app" else BasicHelpFunc (Name c)
    end in
  let hw := match HelpWriter c with Some w => w | None => osStderr end in
  let ew := match ErrorWriter c with Some w => w | None => hw end in
  let '(tree, nested) := buildRegistry (Commands c) in
  {| helpFunc := hf;
     helpWriter := hw;
     errorWriter := ew;
     commandTree := tree;
     commandNested := nested;
     commandHidden := list_to_set (HiddenCommands c);
     dispatch := processArgs c tree nested zeroDispatch |}.

(** Whether [init] ends by a panic: the registry is built without one,
    and [processArgs] panics when [regexp.MustCompile] does. *)
Definition initPanics (c : CLI) : bool :=
  let '(tree, nested) := buildRegistry (Commands c) in
  processArgsPanics c tree nested zeroDispatch.

(** [subcommandParent]. *)
Definition subcommandParent (sub : string) : string :=
  if String.eqb sub "" then sub
  else
    let sub := Strings.TrimRight sub Strings.space in
    match Strings.LastIndex sub Strings.space with
    | None => ""
    | Some idx => Strings.sliceTo sub idx
    end.

(** The test [prefix != "" && prefix[len(prefix)-1] != ' ']. *)
Definition lacksFinalSpace (prefix : string) : bool :=
  match Strings.reverse prefix with
  | EmptyString => false
  | String a _ => negb (Ascii.eqb a Strings.space)
  end.

(** [helpCommands]: the keys under [prefix] that go no deeper than one
    segment and are not hidden. *)
Definition helpCommands (s : Initialized) (prefix : string)
    : gmap string CommandFactory :=
  let prefix := if lacksFinalSpace prefix then prefix +:+ " " else prefix in
  filter (λ kv,
            Is_true (negb (Strings.ContainsRune
                             (Strings.sliceFrom kv.1 (String.length prefix))
                             Strings.space))
            ∧ kv.1 ∉ commandHidden s)
         (Radix.WalkPrefix (commandTree s) prefix).

(** ** The template and the data of [commandHelp] *)

(** The constant [defaultHelpTemplate]. *)
Definition defaultHelpTemplate : string :=
  newline +:+
  "{{.Help}}{{if gt (len .Subcommands) 0}}" +:+ newline +:+
  newline +:+
  "Subcommands:" +:+ newline +:+
  "{{- range $value := .Subcommands }}" +:+ newline +:+
  "    {{ $value.NameAligned }}    {{ $value.Synopsis }}{{ end }}" +:+ newline +:+
  "{{- end }}" +:+ newline.

(** [strings.HasSuffix(s, suffix)]. *)
Definition HasSuffix (s suffix : string) : bool :=
  Strings.HasPrefix (Strings.reverse s) (Strings.reverse suffix).

(** Lines 310-317 of [commandHelp]: the template of the command when it
    has one, the trimmed default otherwise, with a final newline added
    when there is none. *)
Definition helpTemplateText (command : Command.t) : string :=
  let tpl :=
    match Command.HelpTemplate command with
    | Some t => t
    | None => Strings.TrimSpace defaultHelpTemplate
    end in
  if HasSuffix tpl newline then tpl else tpl +:+ newline.

(** [sort.Strings]: ascending byte order. *)
Definition sortStrings (keys : list string) : list string :=
  merge_sort String.le keys.

(** Lines 346-352: the length of the longest key. *)
Definition longestKey (keys : list string) : nat :=
  foldl (λ longest k, if longest <? String.length k then String.length k else longest)
        0 keys.

(** Lines 370-373: the part of the key after its last space. *)
Definition lastSegment (k : string) : string :=
  match Strings.LastIndex k Strings.space with
  | Some idx => Strings.sliceFrom k (idx + 1)
  | None => k
  end.

(** [strings.Repeat(" ", n)]. *)
Fixpoint repeatSpace (n : nat) : string :=
  match n with
  | 0 => EmptyString
  | S n' => String Strings.space (repeatSpace n')
  end.

(** The loop of lines 356-381.  [None] stands for the panic of the loop:
    a key without a factory makes line 363 call a nil function, and a
    factory that fails leaves a nil command, on which line 378 calls
    [Help].  A [CommandFactory] returns a command or an error, never
    both: a Go factory that returned a command together with its error
    is outside the embedding. *)
Fixpoint subcommandData (subcommands : gmap string CommandFactory) (longest : nat)
    (keys : list string) : option (list SubcommandData) :=
  match keys with
  | [] => Some []
  | k :: rest =>
      match subcommands !! k with
      | None => None
      | Some raw =>
          match raw () with
          | inr _ => None
          | inl sub =>
              let name := lastSegment k in
              match subcommandData subcommands longest rest with
              | None => None
              | Some entries =>
                  Some ({| dataName := name;
                           dataNameAligned :=
                             name +:+ repeatSpace (longest - String.length k);
                           dataHelp := Command.Help sub;
                           dataSynopsis := Command.Synopsis sub |} :: entries)
              end
          end
      end
  end.

(** Lines 333-383: the [Subcommands] of the template data, empty under a
    flat registry. *)
Definition commandHelpSubcommands (s : Initialized) : option (list SubcommandData) :=
  if commandNested s then
    let subcommands := helpCommands s (subcommand (dispatch s)) in
    let keys := sortStrings (map fst (map_to_list subcommands)) in
    subcommandData subcommands (longestKey keys) keys
  else Some [].

(** Lines 326-383 of [commandHelp]. *)
Definition commandHelpData (c : CLI) (s : Initialized) (command : Command.t)
    : option TemplateData :=
  match commandHelpSubcommands s with
  | None => None
  | Some subs =>
      Some {| tdName := Name c;
              tdSubcommandName := subcommand (dispatch s);
              tdHelp := Command.Help command;
              tdSubcommands := subs |}
  end.

(** The calls of factories and the diagnostics of the loop of lines
    356-381, in order, up to the end of the loop or to its panic. *)
Fixpoint subcommandCalls (subcommands : gmap string CommandFactory)
    (keys : list string) : list Event :=
  match keys with
  | [] => []
  | k :: rest =>
      match subcommands !! k with
      | None => [EvHelpError (MissingSubcommand k)]
      | Some raw =>
          EvFactory k ::
          match raw () with
          | inr err => [EvHelpError (InstantiateError k err)]
          | inl _ => subcommandCalls subcommands rest
          end
      end
  end.

(** Lines 333-383: what the loop does to the outside; nothing under a
    flat registry. *)
Definition commandHelpCalls (s : Initialized) : list Event :=
  if commandNested s then
    let subcommands := helpCommands s (subcommand (dispatch s)) in
    subcommandCalls subcommands (sortStrings (map fst (map_to_list subcommands)))
  else [].

(** [commandHelp(out, command)]: what it does, and whether it returns
    ([true]) or panics ([false]).  The template is parsed first (lines
    319-324), then the data is built (lines 326-384), then the template is
    executed on [out] (line 386); an error of the execution is written to
    the error writer (line 392). *)
Definition commandHelp (c : CLI) (s : Initialized) (out : Sink) (command : Command.t)
    : list Event * bool :=
  let tpl := helpTemplateText command in
  if templateMustPanics tpl then ([], false)
  else
    match commandHelpData c s command with
    | None => (commandHelpCalls s, false)
    | Some data =>
        match templateExecute tpl data with
        | Rendered =>
            (commandHelpCalls s ++ [EvCommandHelp out command], true)
        | RenderFails err =>
            (commandHelpCalls s
               ++ [EvCommandHelp out command; EvHelpError (RenderError err)], true)
        | RenderPanics =>
            (commandHelpCalls s ++ [EvCommandHelp out command], false)
        end
    end.

(** [Run] after the events [before], from a call of [commandHelp] on:
    when [commandHelp] returns, [Run] returns [code]; when it panics,
    so does [Run]. *)
Definition afterHelp (before : list Event) (help : list Event * bool) (code : Z)
    : RunOutcome :=
  if help.2
  then Returns {| exitCode := code; runError := None; trace := before ++ help.1 |}
  else Panics (before ++ help.1).

(** Lines 183-190 of [Run]: the command built for the path [path] is run
    on [args]. *)
Definition executed (c : CLI) (s : Initialized) (path : string)
    (command : Command.t) (args : list string) : RunOutcome :=
  let code := Command.Run command args in
  if (code =? RunResultHelp)%Z then
    afterHelp [EvFactory path; EvCommandRun command args]
      (commandHelp c s ToErrorWriter command) 1
  else
    Returns {| exitCode := code; runError := None;
               trace := [EvFactory path; EvCommandRun command args] |}.

(** [Run].  A panic of [init] leaves [Run] before anything is written. *)
Definition Run (c : CLI) : RunOutcome :=
  if initPanics c then Panics []
  else
    let s := init c in
    let d := dispatch s in
    if isVersion d && negb (String.eqb (Version c) "") then
      Returns {| exitCode := 0; runError := None;
                 trace := [EvWriteVersion ToHelpWriter (Version c +:+ newline)] |}
    else if isHelp d && String.eqb (subcommand d) "" then
      let listed := helpCommands s (subcommand d) in
      Returns {| exitCode := 0; runError := None;
                 trace := [EvHelpFunc ToHelpWriter listed (helpFunc s listed +:+ newline)] |}
    else
      match Radix.Get (commandTree s) (subcommand d) with
      | None =>
          let listed := helpCommands s (subcommandParent (subcommand d)) in
          Returns {| exitCode := 127; runError := None;
                     trace := [EvHelpFunc ToErrorWriter listed
                                 (helpFunc s listed +:+ newline)] |}
      | Some raw =>
          match raw tt with
          | inr err =>
              Returns {| exitCode := 1; runError := Some err;
                         trace := [EvFactory (subcommand d)] |}
          | inl command =>
              if isHelp d then
                afterHelp [EvFactory (subcommand d)]
                  (commandHelp c s ToHelpWriter command) 0
              else if 0 <? length (topFlags d) then
                afterHelp [EvFactory (subcommand d);
                           EvInvalidFlags ToErrorWriter invalidFlagsText]
                  (commandHelp c s ToErrorWriter command) 1
              else executed c s (subcommand d) command (subcommandArgs d)
          end
      end.

End Cli.

(** ** Notions used to state the properties *)

(** Whether a rune that [trimRunes] drops stands at the head of [s]. *)
Definition startsWithRune (is1 : ascii → bool) (is2 : ascii → ascii → bool)
    (is3 : ascii → ascii → ascii → bool) (s : list ascii) : bool :=
  match s with
  | c1 :: r1 =>
      is1 c1 ||
      match r1 with
      | c2 :: r2 =>
          is2 c1 c2 ||
          match r2 with
          | c3 :: _ => is3 c1 c2 c3
          | [] => false
          end
      | [] => false
      end
  | [] => false
  end.

(** The parent of a path: the path up to its last space. *)
Definition parentOf (k : string) : option string :=
  match Strings.LastIndex k Strings.space with
  | Some idx => Some (Strings.sliceTo k idx)
  | None => None
  end.

(** [ancestor p k]: [p] is reached from [k] by trimming at the last space
    one or more times. *)
Inductive ancestor : string → string → Prop :=
| ancestor_parent (k p : string) :
    parentOf k = Some p → ancestor p k
| ancestor_further (k p q : string) :
    parentOf k = Some p → ancestor q p → ancestor q k.

(** Every parent of [x] is in the tree or among the keys to insert. *)
Definition parentCovered (tree : gmap string CommandFactory)
    (toInsert : gset string) (x : string) : Prop :=
  ∀ p, parentOf x = Some p → is_Some (Radix.Get tree p) ∨ p ∈ toInsert.

(** While a flag is set, a token before any ["--"] accounts for it. *)
Definition flagAccounted (args : list string) (isFlag : string → bool)
    (i : nat) (set : bool) : Prop :=
  set = true →
  ∃ n h, n < i ∧ args !! n = Some h ∧ isFlag h = true
         ∧ ∀ m, m < n → args !! m ≠ Some "--".

(** The candidate path of lines 477-488 for the index [i]. *)
Definition searchKeyAt (args : list string) (i : nat) : string :=
  Strings.Join (sliceArgs args i (searchEnd i 0 (drop i args) 0)) " ".

(** The paths through one iteration of the loop of [processArgs]. *)
Inductive StepCase (args : list string) (tree : gmap string CommandFactory)
    (nested : bool) (i : nat) (arg : string) (d : Dispatch)
    : Flow → Dispatch → Prop :=
| CaseDashDash :
    arg = "--" →
    StepCase args tree nested i arg d FlowBreak d
| CaseHelp :
    arg ≠ "--" → isHelpFlag arg = true →
    StepCase args tree nested i arg d FlowNext (set_isHelp true d)
| CaseVersion :
    arg ≠ "--" → isHelpFlag arg = false →
    subcommand d = "" → isVersionFlag arg = true →
    StepCase args tree nested i arg d FlowNext (set_isVersion true d)
| CaseTopFlag :
    arg ≠ "--" → isHelpFlag arg = false →
    subcommand d = "" → isVersionFlag arg = false → startsWithDash arg = true →
    StepCase args tree nested i arg d FlowNext (set_topFlags (topFlags d ++ [arg]) d)
| CaseSkip :
    arg ≠ "--" → isHelpFlag arg = false →
    subcommand d ≠ "" ∨ arg = "" →
    StepCase args tree nested i arg d FlowNext d
| CaseAbort :
    subcommand d = "" → startsWithoutDash arg = true →
    nested = true → Strings.ContainsRune arg Strings.space = true →
    StepCase args tree nested i arg d FlowReturn
      (set_subcommand "" (set_subcommand arg d))
| CaseMatched (k : string) (v : CommandFactory) :
    subcommand d = "" → startsWithoutDash arg = true →
    nested = true → Strings.ContainsRune arg Strings.space = false →
    Radix.LongestPrefix tree (searchKeyAt args i) = Some (k, v) →
    Utf8.ValidString k = true →
    reVerifyMatchString k (searchKeyAt args i) = true →
    StepCase args tree nested i arg d FlowNext
      (set_subcommandArgs (drop (i + Strings.Count k Strings.space + 1) args)
         (set_subcommand k (set_subcommand arg d)))
| CasePanic (k : string) (v : CommandFactory) :
    subcommand d = "" → startsWithoutDash arg = true →
    nested = true → Strings.ContainsRune arg Strings.space = false →
    Radix.LongestPrefix tree (searchKeyAt args i) = Some (k, v) →
    Utf8.ValidString k = false →
    StepCase args tree nested i arg d FlowPanic (set_subcommand arg d)
| CaseToken :
    subcommand d = "" → startsWithoutDash arg = true →
    nested = false ∨ Strings.ContainsRune arg Strings.space = false →
    StepCase args tree nested i arg d FlowNext
      (set_subcommandArgs (drop (i + 1) args) (set_subcommand arg d)).

(** The writer behind a sink once [init] has set the defaults. *)
Definition sinkWriter (s : Initialized) (k : Sink) : Writer :=
  match k with
  | ToHelpWriter => helpWriter s
  | ToErrorWriter => errorWriter s
  end.

(** The outcomes of one call of [Run]. *)
Inductive Outcome : Type :=
| VersionShown
| HelpShown
| CommandDispatched
| Unresolved127
| LeadingFlagError
| ConstructionError.

(** The event by which an outcome shows in the trace of [Run]: the version
    or a help text written to the help writer, a command run, the listing
    of the parent written to the error writer, the diagnostic about flags
    before the subcommand. *)
Definition eventShows (o : Outcome) (e : Event) : bool :=
  match o, e with
  | VersionShown, EvWriteVersion ToHelpWriter _ => true
  | HelpShown, EvHelpFunc ToHelpWriter _ _ => true
  | HelpShown, EvCommandHelp ToHelpWriter _ => true
  | CommandDispatched, EvCommandRun _ _ => true
  | Unresolved127, EvHelpFunc ToErrorWriter _ _ => true
  | LeadingFlagError, EvInvalidFlags _ _ => true
  | _, _ => false
  end.

Definition occurs (o : Outcome) (r : RunResult) : bool :=
  match o with
  | ConstructionError => match runError r with Some _ => true | None => false end
  | Unresolved127 => (exitCode r =? 127)%Z && existsb (eventShows o) (trace r)
  | _ => existsb (eventShows o) (trace r)
  end.

(** The paths through [Run], one for the panic of [init] and one per
    [return]; on the paths that call [commandHelp] the outcome is that of
    [afterHelp]. *)
Section RunCases.

Variable RunResultHelp : Z.
Variable BasicHelpFunc : string → HelpFuncT.
Variable templateMustPanics : string → bool.
Variable templateExecute : string → TemplateData → Rendering.

Local Abbreviation init := (init RunResultHelp BasicHelpFunc).
Local Abbreviation commandHelp := (commandHelp templateMustPanics templateExecute).

Inductive RunCase (c : CLI) : RunOutcome → Prop :=
| RunInitPanics :
    initPanics RunResultHelp c = true →
    RunCase c (Panics [])
| RunVersion :
    initPanics RunResultHelp c = false →
    isVersion (dispatch (init c)) = true → Version c ≠ "" →
    RunCase c
      (Returns {| exitCode := 0; runError := None;
                  trace := [EvWriteVersion ToHelpWriter (Version c +:+ newline)] |})
| RunRootHelp :
    initPanics RunResultHelp c = false →
    ¬ (isVersion (dispatch (init c)) = true ∧ Version c ≠ "") →
    isHelp (dispatch (init c)) = true → subcommand (dispatch (init c)) = "" →
    RunCase c
      (Returns {| exitCode := 0; runError := None;
                  trace := [EvHelpFunc ToHelpWriter (helpCommands (init c) "")
                              (helpFunc (init c) (helpCommands (init c) "")
                               +:+ newline)] |})
| RunUnresolved :
    initPanics RunResultHelp c = false →
    ¬ (isVersion (dispatch (init c)) = true ∧ Version c ≠ "") →
    ¬ (isHelp (dispatch (init c)) = true ∧ subcommand (dispatch (init c)) = "") →
    Radix.Get (commandTree (init c)) (subcommand (dispatch (init c))) = None →
    RunCase c
      (Returns {| exitCode := 127; runError := None;
                  trace := [EvHelpFunc ToErrorWriter
                              (helpCommands (init c)
                                 (subcommandParent (subcommand (dispatch (init c)))))
                              (helpFunc (init c)
                                 (helpCommands (init c)
                                    (subcommandParent (subcommand (dispatch (init c)))))
                               +:+ newline)] |})
| RunFactoryError (raw : CommandFactory) (err : string) :
    initPanics RunResultHelp c = false →
    ¬ (isVersion (dispatch (init c)) = true ∧ Version c ≠ "") →
    ¬ (isHelp (dispatch (init c)) = true ∧ subcommand (dispatch (init c)) = "") →
    Radix.Get (commandTree (init c)) (subcommand (dispatch (init c))) = Some raw →
    raw () = inr err →
    RunCase c
      (Returns {| exitCode := 1; runError := Some err;
                  trace := [EvFactory (subcommand (dispatch (init c)))] |})
| RunCommandHelp (raw : CommandFactory) (command : Command.t) :
    initPanics RunResultHelp c = false →
    ¬ (isVersion (dispatch (init c)) = true ∧ Version c ≠ "") →
    Radix.Get (commandTree (init c)) (subcommand (dispatch (init c))) = Some raw →
    raw () = inl command →
    isHelp (dispatch (init c)) = true →
    subcommand (dispatch (init c)) ≠ "" →
    RunCase c
      (afterHelp [EvFactory (subcommand (dispatch (init c)))]
         (commandHelp c (init c) ToHelpWriter command) 0)
| RunLeadingFlags (raw : CommandFactory) (command : Command.t) :
    initPanics RunResultHelp c = false →
    ¬ (isVersion (dispatch (init c)) = true ∧ Version c ≠ "") →
    Radix.Get (commandTree (init c)) (subcommand (dispatch (init c))) = Some raw →
    raw () = inl command →
    isHelp (dispatch (init c)) = false →
    topFlags (dispatch (init c)) ≠ [] →
    RunCase c
      (afterHelp [EvFactory (subcommand (dispatch (init c)));
                  EvInvalidFlags ToErrorWriter invalidFlagsText]
         (commandHelp c (init c) ToErrorWriter command) 1)
| RunExecuted (raw : CommandFactory) (command : Command.t) :
    initPanics RunResultHelp c = false →
    ¬ (isVersion (dispatch (init c)) = true ∧ Version c ≠ "") →
    Radix.Get (commandTree (init c)) (subcommand (dispatch (init c))) = Some raw →
    raw () = inl command →
    isHelp (dispatch (init c)) = false →
    topFlags (dispatch (init c)) = [] →
    RunCase c
      (executed RunResultHelp templateMustPanics templateExecute c (init c)
         (subcommand (dispatch (init c))) command
         (subcommandArgs (dispatch (init c)))).

End RunCases.

(** The events of [commandHelp]: the execution of the template on its
    writer, the calls of the factories of the listed subcommands, and its
    diagnostics. *)
Inductive HelpEvent (out : Sink) (command : Command.t) : Event → Prop :=
| HelpExecutes : HelpEvent out command (EvCommandHelp out command)
| HelpCalls (k : string) : HelpEvent out command (EvFactory k)
| HelpDiagnoses (e : HelpError) : HelpEvent out command (EvHelpError e).

(** The arguments the scan can reach: those before the first ["--"]. *)
Fixpoint beforeDashDash (args : list string) : list string :=
  match args with
  | [] => []
  | a :: rest => if String.eqb a "--" then [] else a :: beforeDashDash rest
  end.

(** A token the scan records in [topFlags] while no command path is
    known: it starts with a dash and is neither a help nor a version
    flag. *)
Definition isLeadingFlag (a : string) : bool :=
  startsWithDash a && negb (isHelpFlag a) && negb (isVersionFlag a).

(** What the scan does with a run of tokens that come before the command
    path: blank tokens are skipped, help and version flags set their
    flag, other dashed tokens go to [topFlags]. *)
Definition absorbLeading (pre : list string) (d : Dispatch) : Dispatch :=
  {| subcommand := subcommand d;
     subcommandArgs := subcommandArgs d;
     topFlags := topFlags d ++ List.filter isLeadingFlag pre;
     isHelp := isHelp d || existsb isHelpFlag pre;
     isVersion := isVersion d || existsb isVersionFlag pre |}.

(** A token that can be a segment of a nested path: not empty, no leading
    dash, no space (the negation of the test of line 479). *)
Definition isSegment (v : string) : bool :=
  startsWithoutDash v && negb (Strings.ContainsRune v Strings.space).

(** A list of arguments that ends a candidate path: empty, or headed by a
    token that is no segment. *)
Definition endsCandidate (rest : list string) : Prop :=
  match rest with
  | [] => True
  | v :: _ => isSegment v = false
  end.


(** The prefix [helpCommands] walks: its argument, with a space added
    when it is not empty and does not end in one (lines 400-402). *)
Definition listingPrefix (prefix : string) : string :=
  if lacksFinalSpace prefix then prefix +:+ " " else prefix.

(** A [CLI] with nothing hidden. *)
Definition withoutHidden (c : CLI) : CLI :=
  {| Args := Args c; Commands := Commands c; HiddenCommands := [];
     Name := Name c; Version := Version c; HelpFunc := HelpFunc c;
     HelpWriter := HelpWriter c; ErrorWriter := ErrorWriter c |}.

(** The element the loop makes for the key [k] and the command [sub]. *)
Definition entryFor (longest : nat) (k : string) (sub : Command.t) : SubcommandData :=
  {| dataName := lastSegment k;
     dataNameAligned := lastSegment k +:+ repeatSpace (longest - String.length k);
     dataHelp := Command.Help sub;
     dataSynopsis := Command.Synopsis sub |}.

(** ** Sample registries and invocations *)

Module Samples.

(** A value for the constant [RunResultHelp]. *)
Definition sentinel : Z := (-18511)%Z.

(** A help function for [BasicHelpFunc]. *)
Definition basicHelp : string → HelpFuncT := λ app _, "Usage: " +:+ app.

Definition commandReturning (code : Z) : Command.t :=
  {| Command.Help := "help";
     Command.Synopsis := "synopsis";
     Command.Run := λ _, code;
     Command.HelpTemplate := None |}.

Definition factoryOf (code : Z) : CommandFactory := λ _, inl (commandReturning code).

Definition failingFactory : CommandFactory := λ _, inr "construction failed".

Definition cliOf (version : string) (args : list string)
    (cmds : list (string * CommandFactory)) : CLI :=
  {| Args := args; Commands := cmds; HiddenCommands := [];
     Name := "app"; Version := version;
     HelpFunc := None; HelpWriter := None; ErrorWriter := None |}.

(** The registry [{"foo": F1, "foo bar": F2}]. *)
Definition fooAndFooBar : list (string * CommandFactory) :=
  [("foo", factoryOf 11); ("foo bar", factoryOf 22)].

(** The registry [{"foo": F}]. *)
Definition onlyFoo : list (string * CommandFactory) := [("foo", factoryOf 11)].

(** The registry [{"foo bar": F}]. *)
Definition onlyFooBar : list (string * CommandFactory) := [("foo bar", factoryOf 22)].


(** The registry [{"": D, "foo": F}]. *)
Definition defaultAndFoo : list (string * CommandFactory) :=
  [("", factoryOf 42); ("foo", factoryOf 11)].

(** A command with the given help text and synopsis, as the [MockCommand]
    values of the tests on the help of subcommands. *)
Definition commandWith (help synopsis : string) : Command.t :=
  {| Command.Help := help;
     Command.Synopsis := synopsis;
     Command.Run := λ _, 0%Z;
     Command.HelpTemplate := None |}.

(** A command that brings its own help template. *)
Definition templated (tpl : string) : Command.t :=
  {| Command.Help := "help";
     Command.Synopsis := "synopsis";
     Command.Run := λ _, 0%Z;
     Command.HelpTemplate := Some tpl |}.

(** The registry of [TestCLIRun_printCommandHelpSubcommands]. *)
Definition fooFamily : list (string * CommandFactory) :=
  [("foo", λ _, inl (commandWith "donuts" ""));
   ("foo bar", λ _, inl (commandWith "" "hi!"));
   ("foo zip", λ _, inl (commandWith "" "hi!"));
   ("foo zap", λ _, inl (commandWith "" "hi!"));
   ("foo banana", λ _, inl (commandWith "" "hi!"));
   ("foo longer", λ _, inl (commandWith "" "hi!"));
   ("foo longer longest", λ _, inl (commandWith "" "hi!"))].

(** The registry of [TestCLIRun_printCommandHelpSubcommandsNestedTwoLevel]. *)
Definition twoLevels : list (string * CommandFactory) :=
  [("L1", λ _, inl (commandWith "donuts" ""));
   ("L1 L2A", λ _, inl (commandWith "" "hi!"));
   ("L1 L2B", λ _, inl (commandWith "" "hi!"));
   ("L1 L2A L3A", λ _, inl (commandWith "" "hi!"));
   ("L1 L2A L3B", λ _, inl (commandWith "" "hi!"))].

(** [c] with the hidden commands [hidden]. *)
Definition hiding (hidden : list string) (c : CLI) : CLI :=
  {| Args := Args c; Commands := Commands c; HiddenCommands := hidden;
     Name := Name c; Version := Version c; HelpFunc := HelpFunc c;
     HelpWriter := HelpWriter c; ErrorWriter := ErrorWriter c |}.

(** The name, the aligned name and the synopsis of each entry. *)
Definition namesOf (r : option (list SubcommandData))
    : option (list (string * string * string)) :=
  option_map (map (λ e, (dataName e, dataNameAligned e, dataSynopsis e))) r.

(** A template engine that parses and executes every template without
    error. *)
Definition parsesAll : string → bool := λ _, false.

Definition rendersAll : string → TemplateData → Rendering := λ _ _, Rendered.

(** A template engine whose execution fails on every template. *)
Definition failsAll : string → TemplateData → Rendering :=
  λ _ _, RenderFails "execution failed".

(** A key that is not valid UTF-8: the byte FF, a space and ["bar"]. *)
Definition badKey : string := String (ascii_of_nat 255) " bar".

(** The byte FF alone. *)
Definition badToken : string := String (ascii_of_nat 255) EmptyString.

(** The bytes of a string given by their values. *)
Definition bytes (l : list nat) : string :=
  string_of_list_ascii (map ascii_of_nat l).

Definition initOf (c : CLI) : Initialized := init sentinel basicHelp c.

Definition runOf (c : CLI) : RunOutcome := Run sentinel basicHelp parsesAll rendersAll c.

(** The exit code of a call of [Run] that returned. *)
Definition exitOf (o : RunOutcome) : option Z :=
  match o with
  | Returns r => Some (exitCode r)
  | Panics _ => None
  end.

(** The registry [{"foo": F, "foo bad": G}], where [G] fails. *)
Definition fooAndFooBad : list (string * CommandFactory) :=
  [("foo", factoryOf 11); ("foo bad", failingFactory)].

End Samples.

(** ** Facts about the string functions *)

Module StringFacts.
Import Strings.

Lemma LastIndex_lt (s : string) (r : ascii) (i : nat) :
  LastIndex s r = Some i → i < String.length s.
Proof.
  revert i. induction s as [|a s IH]; intros i; simpl; [discriminate|].
  destruct (LastIndex s r) as [i'|].
  - intros [= <-]. specialize (IH i' eq_refl). lia.
  - destruct (Ascii.eqb a r); [|discriminate]. intros [= <-]. lia.
Qed.

Lemma LastIndex_None_ContainsRune (s : string) (r : ascii) :
  LastIndex s r = None ↔ ContainsRune s r = false.
Proof.
  induction s as [|a s IH]; simpl; [done|].
  destruct (LastIndex s r) as [i|], (Ascii.eqb a r); split; try done.
  - intros H. apply IH in H. done.
  - intros _. by apply IH.
Qed.

Lemma sliceTo_length_le (s : string) (n : nat) : String.length (sliceTo s n) ≤ n.
Proof.
  revert n. induction s as [|a s IH]; intros [|n]; simpl; try lia.
  specialize (IH n). lia.
Qed.

Lemma Count_HasPrefix (s p : string) (r : ascii) :
  HasPrefix s p = true → Count p r ≤ Count s r.
Proof.
  revert p. induction s as [|a s IH]; intros [|b p]; simpl; try done; try lia.
  intros [Hab Hsp]%andb_prop. apply Ascii.eqb_eq in Hab. subst.
  specialize (IH p Hsp). lia.
Qed.

Lemma Count_app (s t : string) (r : ascii) :
  Count (s +:+ t) r = Count s r + Count t r.
Proof. induction s as [|a s IH]; simpl; [done|]. rewrite IH. lia. Qed.

Lemma Count_no_rune (s : string) (r : ascii) :
  ContainsRune s r = false → Count s r = 0.
Proof.
  induction s as [|a s IH]; simpl; [done|].
  destruct (Ascii.eqb a r); [done|]. intros H. by rewrite IH.
Qed.

Lemma Count_Join (l : list string) :
  Forall (λ v, ContainsRune v space = false) l →
  Count (Join l " ") space = length l - 1.
Proof.
  induction 1 as [|v l Hv Hl IH]; [done|].
  destruct l as [|w l].
  - simpl. by apply Count_no_rune.
  - change (Join (v :: w :: l) " ") with (v +:+ " " +:+ Join (w :: l) " ").
    rewrite !Count_app, IH, (Count_no_rune v) by done.
    simpl. lia.
Qed.

End StringFacts.

(** ** Facts about [TrimSpace] *)

Module TrimFacts.
Import Strings.

Section TrimRunes.

Variable is1 : ascii → bool.
Variable is2 : ascii → ascii → bool.
Variable is3 : ascii → ascii → ascii → bool.

Local Abbreviation trim := (trimRunes is1 is2 is3).
Local Abbreviation dirty := (startsWithRune is1 is2 is3).







End TrimRunes.




End TrimFacts.

(** ** Facts about the registry model *)

Module RadixFacts.
Import Strings StringFacts.

Lemma prefixes_HasPrefix (s p : string) :
  p ∈ Radix.prefixes s → HasPrefix s p = true.
Proof.
  revert p. induction s as [|a s IH]; intros p; simpl.
  - intros ->%list_elem_of_singleton. done.
  - intros [Hp| ->%list_elem_of_singleton]%elem_of_app; [|done].
    apply list_elem_of_fmap in Hp as (q & -> & Hq).
    simpl. rewrite Ascii.eqb_refl. simpl. by apply IH.
Qed.

Lemma firstStored_Some {V} (t : gmap string V) (ps : list string) k v :
  Radix.firstStored t ps = Some (k, v) → k ∈ ps ∧ t !! k = Some v.
Proof.
  induction ps as [|p ps IH]; simpl; [done|].
  destruct (t !! p) as [w|] eqn:E.
  - intros [= <- <-]. split; [left|done].
  - intros H. destruct (IH H). split; [by right|done].
Qed.

Lemma LongestPrefix_Some {V} (t : gmap string V) (s k : string) (v : V) :
  Radix.LongestPrefix t s = Some (k, v) →
  Radix.Get t k = Some v ∧ HasPrefix s k = true.
Proof.
  intros [Hin Hk]%firstStored_Some. split; [done|].
  by apply prefixes_HasPrefix.
Qed.

End RadixFacts.


(** ** Facts about the argument scan *)

Module ScanFacts.
Import Strings StringFacts RadixFacts.

Lemma startsWithDash_not_without (arg : string) :
  startsWithDash arg = true → startsWithoutDash arg = false.
Proof. destruct arg as [|a arg]; simpl; [done|]. by intros ->. Qed.

Lemma isHelpFlag_startsWithDash (arg : string) :
  isHelpFlag arg = true → startsWithDash arg = true.
Proof.
  unfold isHelpFlag.
  intros [[H|H]%orb_prop|H]%orb_prop; apply String.eqb_eq in H; by subst.
Qed.

Lemma isVersionFlag_startsWithDash (arg : string) :
  isVersionFlag arg = true → startsWithDash arg = true.
Proof.
  unfold isVersionFlag.
  intros [[H|H]%orb_prop|H]%orb_prop; apply String.eqb_eq in H; by subst.
Qed.

(** Every iteration takes one of the paths of [StepCase]. *)
Lemma scanStep_case args tree nested i arg d :
  StepCase args tree nested i arg d
    (scanStep args tree nested i arg d).1 (scanStep args tree nested i arg d).2.
Proof.
  unfold scanStep.
  destruct (String.eqb_spec arg "--") as [->|Hdd]; [by constructor|].
  destruct (isHelpFlag arg) eqn:Hh; [by constructor|].
  destruct (String.eqb (subcommand d) "") eqn:Hsubb; simpl.
  2: { rewrite Hsubb. simpl. apply CaseSkip; auto. left.
       by apply String.eqb_neq. }
  assert (subcommand d = "") as Hsub by by apply String.eqb_eq.
  destruct (isVersionFlag arg) eqn:Hv; [by constructor|].
  destruct (startsWithDash arg) eqn:Hd.
  { simpl. rewrite Hsubb. simpl. rewrite (startsWithDash_not_without _ Hd).
    by constructor. }
  rewrite Hsubb. simpl.
  destruct (startsWithoutDash arg) eqn:Hw.
  2: { apply CaseSkip; auto. right.
       destruct arg as [|a arg]; [done|]. simpl in *. by rewrite Hd in Hw. }
  destruct nested; [|apply CaseToken; auto].
  destruct (ContainsRune arg space) eqn:Hsp; [by apply CaseAbort|].
  fold (searchKeyAt args i).
  destruct (Radix.LongestPrefix tree (searchKeyAt args i)) as [[k v]|] eqn:Hlp;
    [|apply CaseToken; auto].
  destruct (Utf8.ValidString k) eqn:Hval; [|by eapply CasePanic].
  destruct (reVerifyMatchString k (searchKeyAt args i)) eqn:Hre;
    [|apply CaseToken; auto].
  simpl. by eapply CaseMatched.
Qed.

(** A Hoare-style rule for the loop of [processArgs]: an invariant [P],
    indexed by the position of the scan, and a postcondition [Q] for each
    of the four ways of leaving the loop. *)
Lemma scanLoop_rule args tree nested (P : nat → Dispatch → Prop)
    (Q : Dispatch → LoopExit → Prop) :
  (∀ i arg d d', args !! i = Some arg → P i d →
     StepCase args tree nested i arg d FlowNext d' → P (S i) d') →
  (∀ d, P (length args) d → Q d RanOut) →
  (∀ i arg d d', args !! i = Some arg → P i d →
     StepCase args tree nested i arg d FlowBreak d' → Q d' (Broke i)) →
  (∀ i arg d d', args !! i = Some arg → P i d →
     StepCase args tree nested i arg d FlowReturn d' → Q d' (Returned i)) →
  (∀ i arg d d', args !! i = Some arg → P i d →
     StepCase args tree nested i arg d FlowPanic d' → Q d' (Panicked i)) →
  ∀ d0, P 0 d0 →
    Q (scanLoop args tree nested 0 args d0).1 (scanLoop args tree nested 0 args d0).2.
Proof.
  intros Hnext Hout Hbreak Hret Hpanic.
  assert (∀ rest pre d, args = pre ++ rest → P (length pre) d →
            Q (scanLoop args tree nested (length pre) rest d).1
              (scanLoop args tree nested (length pre) rest d).2) as Hgen.
  { induction rest as [|arg rest IH]; intros pre d Hargs HP; simpl.
    - apply Hout. rewrite Hargs, app_nil_r. done.
    - assert (args !! length pre = Some arg) as Hi.
      { rewrite Hargs. by rewrite list_lookup_middle. }
      pose proof (scanStep_case args tree nested (length pre) arg d) as Hc.
      destruct (scanStep args tree nested (length pre) arg d) as [[] d'];
        simpl in *.
      + specialize (IH (pre ++ [arg]) d').
        rewrite length_app in IH. simpl in IH.
        replace (length pre + 1) with (S (length pre)) in IH by lia.
        apply IH.
        * by rewrite <- app_assoc.
        * eauto.
      + eauto.
      + eauto.
      + eauto. }
  intros d0 HP. apply (Hgen args [] d0); done.
Qed.

(** The end index found by the loop of lines 477-484: the tokens up to it
    hold no space. *)
Lemma searchEnd_spec (vs : list string) (i k j0 : nat) :
  ∃ m, m ≤ length vs
       ∧ Forall (λ v, ContainsRune v space = false) (take m vs)
       ∧ ((m = 0 ∧ searchEnd i k vs j0 = j0) ∨ (0 < m ∧ searchEnd i k vs j0 = i + k + m)).
Proof.
  revert k j0. induction vs as [|v vs IH]; intros k j0; simpl.
  - exists 0. split; [lia|]. split; [constructor|]. left. done.
  - destruct (ContainsRune v space) eqn:Hsp; simpl.
    { exists 0. split; [lia|]. split; [constructor|]. by left. }
    destruct (String.eqb v "" || startsWithDash v).
    { exists 0. split; [lia|]. split; [constructor|]. by left. }
    destruct (IH (S k) (i + k + 1)) as (m & Hm & Hall & Hres).
    exists (S m). split; [lia|]. split; [by constructor|]. right.
    split; [lia|]. destruct Hres as [[-> ->]|[? ->]]; lia.
Qed.

Lemma searchEnd_first_good (v : string) (vs : list string) (i : nat) :
  startsWithoutDash v = true → ContainsRune v space = false →
  ∃ m, 0 < m ∧ m ≤ length (v :: vs)
       ∧ Forall (λ w, ContainsRune w space = false) (take m (v :: vs))
       ∧ searchEnd i 0 (v :: vs) 0 = i + m.
Proof.
  intros Hw Hsp. simpl. rewrite Hsp. simpl.
  assert (String.eqb v "" || startsWithDash v = false) as ->.
  { destruct v as [|a v]; simpl in *; [done|]. by destruct (Ascii.eqb a dash). }
  destruct (searchEnd_spec vs i 1 (i + 0 + 1)) as (m & Hm & Hall & Hres).
  exists (S m). split; [lia|]. split; [simpl; lia|]. split; [by constructor|].
  destruct Hres as [[-> ->]|[? ->]]; lia.
Qed.

(** The index from which [subcommandArgs] is cut after an accepted match
    stays inside [c.Args], so the slice expression of line 504 does not
    go out of range. *)
Lemma matched_index_in_range (args : list string)
    (tree : gmap string CommandFactory) i arg k v :
  args !! i = Some arg →
  startsWithoutDash arg = true → ContainsRune arg space = false →
  Radix.LongestPrefix tree (searchKeyAt args i) = Some (k, v) →
  i + Count k space + 1 ≤ length args.
Proof.
  intros Hi Hw Hsp Hlp.
  apply LongestPrefix_Some in Hlp as [_ Hpre].
  apply (Count_HasPrefix _ _ space) in Hpre.
  unfold searchKeyAt, sliceArgs in Hpre.
  pose proof (lookup_lt_Some _ _ _ Hi) as Hlt.
  destruct (drop i args) as [|v0 vs] eqn:Hdrop.
  { apply (f_equal length) in Hdrop. rewrite length_drop in Hdrop. simpl in Hdrop. lia. }
  assert (v0 = arg) as ->.
  { pose proof (lookup_drop args i 0) as H0. rewrite Hdrop in H0. simpl in H0.
    rewrite Nat.add_0_r, Hi in H0. by injection H0. }
  destruct (searchEnd_first_good arg vs i Hw Hsp) as (m & Hm0 & Hm & Hall & Hj).
  rewrite Hj in Hpre.
  replace (i + m - i) with m in Hpre by lia.
  rewrite Count_Join in Hpre by done.
  rewrite length_take in Hpre.
  apply (f_equal length) in Hdrop. rewrite length_drop in Hdrop.
  lia.
Qed.

End ScanFacts.

(** ** Facts about [commandHelp] *)

Module HelpFacts.

Lemma traceOf_afterHelp before help code :
  traceOf (afterHelp before help code) = before ++ help.1.
Proof. unfold afterHelp. by destruct help.2. Qed.

Lemma afterHelp_Returns before help code r :
  afterHelp before help code = Returns r →
  help.2 = true
  ∧ r = {| exitCode := code; runError := None; trace := before ++ help.1 |}.
Proof. unfold afterHelp. destruct help.2; [|done]. by intros [= <-]. Qed.

Lemma subcommandCalls_kind subcommands keys out command e :
  e ∈ subcommandCalls subcommands keys → HelpEvent out command e.
Proof.
  induction keys as [|k keys IH]; simpl; [by intros ?%elem_of_nil|].
  destruct (subcommands !! k) as [raw|].
  - intros [->|He]%elem_of_cons; [constructor|].
    destruct (raw ()) as [sub|err]; [by apply IH|].
    apply list_elem_of_singleton in He as ->. constructor.
  - intros ->%list_elem_of_singleton. constructor.
Qed.

Lemma commandHelpCalls_kind s out command e :
  e ∈ commandHelpCalls s → HelpEvent out command e.
Proof.
  unfold commandHelpCalls. destruct (commandNested s); [|by intros ?%elem_of_nil].
  apply subcommandCalls_kind.
Qed.

(** Every event of [commandHelp] is the execution of the template on its
    writer, the call of a factory or a diagnostic. *)
Lemma commandHelp_kind mustPanic execute c s out command e :
  e ∈ (commandHelp mustPanic execute c s out command).1 → HelpEvent out command e.
Proof.
  unfold commandHelp. destruct (mustPanic _); [by intros ?%elem_of_nil|].
  destruct (commandHelpData c s command) as [data|]; [|apply commandHelpCalls_kind].
  destruct (execute _ data); simpl; intros [He|He]%elem_of_app;
    try (by eapply commandHelpCalls_kind);
    repeat (apply elem_of_cons in He as [->|He]; [constructor|]);
    by apply elem_of_nil in He.
Qed.



Lemma subcommandCalls_shows subcommands keys o :
  existsb (eventShows o) (subcommandCalls subcommands keys) = false.
Proof.
  induction keys as [|k keys IH]; simpl; [done|].
  destruct (subcommands !! k) as [raw|]; simpl.
  - destruct (raw ()); simpl; rewrite ?IH; by destruct o.
  - by destruct o.
Qed.

(** Of the outcomes of [Run], a call of [commandHelp] that returns shows
    one: the help, when it is called for the help writer. *)
Lemma commandHelp_shows mustPanic execute c s out command o :
  (commandHelp mustPanic execute c s out command).2 = true →
  existsb (eventShows o) (commandHelp mustPanic execute c s out command).1 =
  match o, out with
  | HelpShown, ToHelpWriter => true
  | _, _ => false
  end.
Proof.
  unfold commandHelp. destruct (mustPanic _); [done|].
  destruct (commandHelpData c s command) as [data|]; [|done].
  assert (existsb (eventShows o) (commandHelpCalls s) = false) as Hcalls.
  { unfold commandHelpCalls. destruct (commandNested s); [|done].
    apply subcommandCalls_shows. }
  destruct (execute _ data); simpl; try done; intros _;
    rewrite existsb_app, Hcalls; by destruct o, out.
Qed.

End HelpFacts.

(** ** Properties of classification and dispatch *)


(** The same for a trace that ends with the events of [commandHelp]. *)
Ltac absent_from_help_trace :=
  let Hin := fresh "Hin" in
  intros Hin;
  rewrite ?HelpFacts.traceOf_afterHelp in Hin; simpl in Hin;
  repeat (apply elem_of_cons in Hin as [Hin|Hin]; [discriminate Hin|]);
  first
    [ by apply elem_of_nil in Hin
    | apply HelpFacts.commandHelp_kind in Hin; by inversion Hin ].

Ltac unfold_Run := unfold Run.

Ltac unfold_initPanics := unfold initPanics.

Ltac unfold_executed := unfold executed.


Ltac unfold_buildRegistry := unfold buildRegistry.

Section Properties.

Variable RunResultHelp : Z.
Variable BasicHelpFunc : string → HelpFuncT.

Import Strings StringFacts RadixFacts ScanFacts.

Local Abbreviation init := (init RunResultHelp BasicHelpFunc).
Local Abbreviation initPanics := (initPanics RunResultHelp).
Local Abbreviation buildRegistry := (buildRegistry RunResultHelp).
Local Abbreviation placeholderFactory := (placeholderFactory RunResultHelp).

Lemma init_registry (c : CLI) :
  (commandTree (init c), commandNested (init c)) = buildRegistry (Commands c).
Proof. unfold init. by destruct (buildRegistry (Commands c)). Qed.

Lemma init_panics (c : CLI) :
  initPanics c =
  processArgsPanics c (commandTree (init c)) (commandNested (init c)) zeroDispatch.
Proof. unfold_initPanics. unfold init. by destruct (buildRegistry (Commands c)). Qed.

(** [init] panics exactly when the loop of the scan is left by a panic. *)
Lemma initPanics_scan (c : CLI) :
  initPanics c = true ↔
  ∃ i, (scanArgs c (commandTree (init c)) (commandNested (init c)) zeroDispatch).2
       = Panicked i.
Proof.
  rewrite init_panics. unfold processArgsPanics.
  destruct (scanArgs c _ _ _) as [d []]; simpl; split; try done;
    try (by intros [? [=]]).
  intros _. by eexists.
Qed.

Lemma init_dispatch (c : CLI) :
  dispatch (init c) =
  processArgs c (commandTree (init c)) (commandNested (init c)) zeroDispatch.
Proof. unfold init. by destruct (buildRegistry (Commands c)). Qed.

(** A property that the loop establishes on every exit and that the
    default switch keeps holds of the fields when [processArgs] ends. *)
Lemma processArgs_rule (c : CLI) tree nested (P : nat → Dispatch → Prop)
    (R : Dispatch → Prop) :
  (∀ i arg d d', Args c !! i = Some arg → P i d →
     StepCase (Args c) tree nested i arg d FlowNext d' → P (S i) d') →
  (∀ i d, P i d → R d) →
  (∀ i arg d d', Args c !! i = Some arg → P i d →
     StepCase (Args c) tree nested i arg d FlowReturn d' → R d') →
  (∀ i arg d d', Args c !! i = Some arg → P i d →
     StepCase (Args c) tree nested i arg d FlowPanic d' → R d') →
  (∀ d, R d → R (defaultSwitch (Commands c) d)) →
  P 0 zeroDispatch →
  R (processArgs c tree nested zeroDispatch).
Proof.
  intros Hnext HPR Hret Hpanic Hdef H0.
  unfold processArgs, scanArgs.
  pose proof (scanLoop_rule (Args c) tree nested P
                (λ d e, match e with
                        | Returned _ | Panicked _ => R d
                        | _ => R (defaultSwitch (Commands c) d)
                        end))
    as Hrule.
  simpl in Hrule.
  specialize (Hrule Hnext).
  destruct (scanLoop (Args c) tree nested 0 (Args c) zeroDispatch) as [d e] eqn:E.
  assert (match e with
          | Returned _ | Panicked _ => R d
          | _ => R (defaultSwitch (Commands c) d)
          end) as H.
  { change d with (d, e).1. change e with (d, e).2 at 1. rewrite <- E.
    apply Hrule; try done.
    - intros d1 H1. apply Hdef. eauto.
    - intros i arg d1 d2 Hi HP Hc. inversion Hc; subst. apply Hdef. eauto. }
  by destruct e.
Qed.

(** C9: when classification yields a non-empty [subcommandPath], the
    [subcommandArgs] are the arguments from some index of the argument
    vector to its end, unmodified and in order. *)
Theorem C9_subcommandArgs_is_suffix (c : CLI) :
  subcommand (dispatch (init c)) ≠ "" →
  ∃ n, n ≤ length (Args c) ∧ subcommandArgs (dispatch (init c)) = drop n (Args c).
Proof.
  rewrite init_dispatch.
  set (tree := commandTree (init c)). set (nested := commandNested (init c)).
  set (good := λ d : Dispatch,
         subcommand d ≠ "" →
         ∃ n, n ≤ length (Args c) ∧ subcommandArgs d = drop n (Args c)).
  apply (processArgs_rule c tree nested
           (λ _ d, ∃ n, n ≤ length (Args c) ∧ subcommandArgs d = drop n (Args c))
           good).
  - intros i arg d d' Hi HP Hc.
    pose proof (lookup_lt_Some _ _ _ Hi) as Hlt.
    inversion Hc; subst; simpl in *; auto.
    + exists (i + Count k space + 1). split; [|done].
      by eapply matched_index_in_range.
    + exists (i + 1). split; [lia|done].
  - by intros i d HP _.
  - intros i arg d d' Hi HP Hc Hne. inversion Hc; subst. done.
  - intros i arg d d' Hi HP Hc _. inversion Hc; subst. done.
  - intros d HR Hne. unfold defaultSwitch in *.
    destruct (String.eqb_spec (subcommand d) ""); simpl in *.
    + destruct (hasDefaultCommand (Commands c)); simpl in *; [done|auto].
    + auto.
  - exists (length (Args c)). split; [done|]. by rewrite drop_all.
Qed.

(** C3, as amended: after classification the [subcommandPath] is the
    empty string, or an exact key of the registry, or an argument of the
    argument vector that is not empty, does not start with a dash and,
    under a nested registry, holds no space; such a token is kept as the
    path even when the registry has no entry for it. *)
Theorem C3_subcommand_empty_key_or_token (c : CLI) :
  let s := init c in
  subcommand (dispatch s) = ""
  ∨ is_Some (Radix.Get (commandTree s) (subcommand (dispatch s)))
  ∨ (subcommand (dispatch s) ∈ Args c
     ∧ startsWithoutDash (subcommand (dispatch s)) = true
     ∧ (commandNested s = true →
        ContainsRune (subcommand (dispatch s)) space = false)).
Proof.
  simpl. rewrite init_dispatch.
  set (tree := commandTree (init c)). set (nested := commandNested (init c)).
  set (good := λ d : Dispatch,
         subcommand d = ""
         ∨ is_Some (Radix.Get tree (subcommand d))
         ∨ (subcommand d ∈ Args c
            ∧ startsWithoutDash (subcommand d) = true
            ∧ (nested = true → ContainsRune (subcommand d) space = false))).
  apply (processArgs_rule c tree nested (λ _, good) good); try done.
  - intros i arg d d' Hi HP Hc.
    inversion Hc; subst; unfold good; simpl in *; auto.
    + right. left. apply LongestPrefix_Some in H3 as [-> _]. done.
    + right. right. split; [by eapply list_elem_of_lookup_2|]. split; [done|].
      intros ->. by destruct H1.
  - intros i arg d d' Hi HP Hc. inversion Hc; subst. by left.
  - intros i arg d d' Hi HP Hc. inversion Hc; subst. right. right. simpl.
    split; [by eapply list_elem_of_lookup_2|]. by split.
  - intros d HR. unfold defaultSwitch.
    destruct (String.eqb_spec (subcommand d) ""); simpl; [|done].
    destruct (hasDefaultCommand (Commands c)); simpl; [by left|done].
  - by left.
Qed.

Lemma isHelp_defaultSwitch cmds d : isHelp (defaultSwitch cmds d) = isHelp d.
Proof. unfold defaultSwitch. by destruct (_ && _). Qed.

Lemma isVersion_defaultSwitch cmds d : isVersion (defaultSwitch cmds d) = isVersion d.
Proof. unfold defaultSwitch. by destruct (_ && _). Qed.

Lemma processArgs_flags (c : CLI) tree nested d0 :
  isHelp (processArgs c tree nested d0) = isHelp (scanArgs c tree nested d0).1
  ∧ isVersion (processArgs c tree nested d0) = isVersion (scanArgs c tree nested d0).1.
Proof.
  unfold processArgs. destruct (scanArgs c tree nested d0) as [d []]; simpl;
    by rewrite ?isHelp_defaultSwitch, ?isVersion_defaultSwitch.
Qed.

(** A step never clears the help flag. *)
Lemma StepCase_isHelp_mono args tree nested i arg d fl d' :
  StepCase args tree nested i arg d fl d' → isHelp d = true → isHelp d' = true.
Proof. by inversion 1. Qed.

Lemma scan_flags_accounted (c : CLI) tree nested :
  let d := (scanArgs c tree nested zeroDispatch).1 in
  flagAccounted (Args c) isHelpFlag (length (Args c)) (isHelp d)
  ∧ flagAccounted (Args c) isVersionFlag (length (Args c)) (isVersion d).
Proof.
  unfold scanArgs.
  set (P := λ (i : nat) (d : Dispatch),
         (∀ m, m < i → Args c !! m ≠ Some "--")
         ∧ flagAccounted (Args c) isHelpFlag i (isHelp d)
         ∧ flagAccounted (Args c) isVersionFlag i (isVersion d)).
  set (Q := λ (d : Dispatch) (e : LoopExit),
         flagAccounted (Args c) isHelpFlag (length (Args c)) (isHelp d)
         ∧ flagAccounted (Args c) isVersionFlag (length (Args c)) (isVersion d)).
  assert (∀ isFlag i j b, i ≤ j → flagAccounted (Args c) isFlag i b →
            flagAccounted (Args c) isFlag j b) as Hmono.
  { intros isFlag i j b Hij H Hb. destruct (H Hb) as (n & h & ? & ?).
    exists n, h. split; [lia|done]. }
  apply (scanLoop_rule (Args c) tree nested P Q).
  - intros i arg d d' Hi (Hdd & Hh & Hv) Hc.
    assert (arg ≠ "--") as Hne.
    { inversion Hc; subst; try done; by intros ->. }
    assert (∀ m, m < S i → Args c !! m ≠ Some "--") as Hdd'.
    { intros m Hm. destruct (decide (m = i)) as [->|]; [|apply Hdd; lia].
      rewrite Hi. congruence. }
    split; [done|].
    inversion Hc; subst; simpl; split;
      try (apply (Hmono _ i (S i)); [lia|done]);
      intros _; exists i, arg; (split; [lia|]); (split; [done|]);
      (split; [done|]); intros m Hm; apply Hdd; lia.
  - intros d (_ & Hh & Hv). by split.
  - intros i arg d d' Hi (_ & Hh & Hv) Hc.
    pose proof (lookup_lt_Some _ _ _ Hi).
    inversion Hc; subst. split; (apply (Hmono _ i); [lia|done]).
  - intros i arg d d' Hi (_ & Hh & Hv) Hc.
    pose proof (lookup_lt_Some _ _ _ Hi).
    inversion Hc; subst; simpl. split; (apply (Hmono _ i); [lia|done]).
  - intros i arg d d' Hi (_ & Hh & Hv) Hc.
    pose proof (lookup_lt_Some _ _ _ Hi).
    inversion Hc; subst; simpl. split; (apply (Hmono _ i); [lia|done]).
  - split; [intros; lia|]. split; intros [=].
Qed.

Lemma scan_help_token_sets_flag (c : CLI) tree nested n h :
  Args c !! n = Some h → isHelpFlag h = true →
  (∀ m, m < n → Args c !! m ≠ Some "--") →
  (∀ i, (scanArgs c tree nested zeroDispatch).2 = Returned i → n < i) →
  (∀ i, (scanArgs c tree nested zeroDispatch).2 = Panicked i → n < i) →
  isHelp (scanArgs c tree nested zeroDispatch).1 = true.
Proof.
  intros Hn Hh Hdd. unfold scanArgs.
  apply (scanLoop_rule (Args c) tree nested
           (λ i d, n < i → isHelp d = true)
           (λ d e, (∀ i, e = Returned i → n < i) → (∀ i, e = Panicked i → n < i) →
                   isHelp d = true)).
  - intros i arg d d' Hi HP Hc Hlt.
    destruct (decide (i = n)) as [->|Hne].
    + rewrite Hn in Hi. injection Hi as <-.
      pose proof (isHelpFlag_startsWithDash _ Hh) as Hd.
      pose proof (startsWithDash_not_without _ Hd) as Hw.
      inversion Hc; subst; simpl; try done; try congruence.
    + eapply StepCase_isHelp_mono; [done|]. apply HP. lia.
  - intros d HP _ _. apply HP. by eapply lookup_lt_Some.
  - intros i arg d d' Hi HP Hc _ _. inversion Hc; subst.
    apply HP. destruct (decide (n < i)) as [|Hge]; [done|].
    destruct (decide (i = n)) as [->|].
    + rewrite Hn in Hi. injection Hi as ->. done.
    + exfalso. apply (Hdd i); [lia|done].
  - intros i arg d d' Hi HP Hc Hret _.
    eapply StepCase_isHelp_mono; [done|]. apply HP. by apply Hret.
  - intros i arg d d' Hi HP Hc _ Hpanic.
    eapply StepCase_isHelp_mono; [done|]. apply HP. by apply Hpanic.
  - lia.
Qed.

(** C8, as amended: when classification does not panic, a token equal to
    ["-h"], ["-help"] or ["--help"] that no ["--"] precedes sets the help
    flag wherever it stands, unless the scan was left before reaching it
    by the [return] that a token with a space causes under a nested
    registry; and a help or version flag that is set is always accounted
    for by a token that no ["--"] precedes, so that nothing after the
    first ["--"] sets either flag. *)
Theorem C8_help_and_version_flags (c : CLI) :
  let s := init c in
  let scan := scanArgs c (commandTree s) (commandNested s) zeroDispatch in
  (∀ n h, Args c !! n = Some h → isHelpFlag h = true →
          (∀ m, m < n → Args c !! m ≠ Some "--") →
          (∀ i, scan.2 = Returned i → n < i) →
          initPanics c = false →
          isHelp (dispatch s) = true)
  ∧ (isHelp (dispatch s) = true →
     ∃ n h, Args c !! n = Some h ∧ isHelpFlag h = true
            ∧ ∀ m, m < n → Args c !! m ≠ Some "--")
  ∧ (isVersion (dispatch s) = true →
     ∃ n h, Args c !! n = Some h ∧ isVersionFlag h = true
            ∧ ∀ m, m < n → Args c !! m ≠ Some "--").
Proof.
  simpl. rewrite init_dispatch.
  set (tree := commandTree (init c)). set (nested := commandNested (init c)).
  destruct (processArgs_flags c tree nested zeroDispatch) as [-> ->].
  destruct (scan_flags_accounted c tree nested) as [Hh Hv].
  split; [|split].
  - intros n h Hn Hflag Hdd Hret Hpanic.
    apply (scan_help_token_sets_flag c tree nested n h); try done.
    intros i Hi. assert (initPanics c = true) as Hp by (apply initPanics_scan; eauto).
    congruence.
  - intros H. destruct (Hh H) as (n & h & _ & ? & ? & ?). eauto.
  - intros H. destruct (Hv H) as (n & h & _ & ? & ? & ?). eauto.
Qed.



Section Running.

Variable templateMustPanics : string → bool.
Variable templateExecute : string → TemplateData → Rendering.

Local Abbreviation commandHelp := (commandHelp templateMustPanics templateExecute).
Local Abbreviation executed := (executed RunResultHelp templateMustPanics templateExecute).
Local Abbreviation Run :=
  (Run RunResultHelp BasicHelpFunc templateMustPanics templateExecute).

(** [Run] takes one of the paths of [RunCase]. *)
Lemma Run_case (c : CLI) :
  RunCase RunResultHelp BasicHelpFunc templateMustPanics templateExecute c (Run c).
Proof.
  unfold_Run.
  destruct (initPanics c) eqn:Ep; [by constructor|].
  destruct (isVersion (dispatch (init c))) eqn:Ev,
    (String.eqb_spec (Version c) "") as [Hv|Hv]; simpl; try (by constructor).
  all: assert (¬ (isVersion (dispatch (init c)) = true ∧ Version c ≠ "")) as Hnv
         by (intros [? ?]; congruence).
  all: destruct (isHelp (dispatch (init c))) eqn:Eh; simpl.
  all: try (destruct (String.eqb_spec (subcommand (dispatch (init c))) "") as [Hs|Hs];
            [rewrite Hs; by constructor|]).
  all: assert (¬ (isHelp (dispatch (init c)) = true
                  ∧ subcommand (dispatch (init c)) = "")) as Hnh
         by (intros [? ?]; congruence).
  all: destruct (Radix.Get (commandTree (init c)) (subcommand (dispatch (init c))))
         as [raw|] eqn:Eg; [|by constructor].
  all: destruct (raw ()) as [command|err] eqn:Er; [|by eapply RunFactoryError].
  all: try (by eapply RunCommandHelp).
  all: destruct (topFlags (dispatch (init c))) as [|f fs] eqn:Et;
         [change (0 <? length (@nil string)) with false
         |change (0 <? length (f :: fs)) with true]; cbv iota;
         [eapply RunExecuted|eapply RunLeadingFlags]; try done; by rewrite Et.
Qed.




(** C2, as amended: one call of [Run] that returns produces exactly one
    of the six outcomes version-shown, help-shown, command-dispatched,
    unresolved-127, leading-flag-error and construction-error (the
    factory of the resolved command returned an error). *)
Theorem C2_exactly_one_outcome (c : CLI) (r : RunResult) :
  Run c = Returns r →
  ∃ o, ∀ o', occurs o' r = true ↔ o' = o.
Proof.
  destruct (Run_case c) as [| | | | |raw cmd|raw cmd|raw cmd]; intros Hr.
  - discriminate Hr.
  - injection Hr as <-. exists VersionShown. intros []; simpl; split; done.
  - injection Hr as <-. exists HelpShown. intros []; simpl; split; done.
  - injection Hr as <-. exists Unresolved127. intros []; simpl; split; done.
  - injection Hr as <-. exists ConstructionError. intros []; simpl; split; done.
  - apply HelpFacts.afterHelp_Returns in Hr as [Hh ->]. exists HelpShown.
    intros o'. unfold occurs. simpl.
    rewrite (HelpFacts.commandHelp_shows _ _ _ _ _ _ o' Hh).
    destruct o'; simpl; split; done.
  - apply HelpFacts.afterHelp_Returns in Hr as [Hh ->]. exists LeadingFlagError.
    intros o'. unfold occurs. simpl.
    rewrite (HelpFacts.commandHelp_shows _ _ _ _ _ _ o' Hh).
    destruct o'; simpl; split; done.
  - revert Hr. unfold_executed. destruct (_ =? _)%Z eqn:E; intros Hr.
    + apply HelpFacts.afterHelp_Returns in Hr as [Hh ->]. exists CommandDispatched.
      intros o'. unfold occurs. simpl.
      rewrite (HelpFacts.commandHelp_shows _ _ _ _ _ _ o' Hh).
      destruct o'; simpl; split; done.
    + injection Hr as <-. exists CommandDispatched.
      intros []; simpl; rewrite ?andb_false_r; split; done.
Qed.

End Running.

(** *** The registry that [init] builds *)

Lemma parentOf_shorter (k p : string) :
  parentOf k = Some p → String.length p < String.length k.
Proof.
  unfold parentOf. destruct (LastIndex k space) as [idx|] eqn:E; [|done].
  intros [= <-]. apply LastIndex_lt in E.
  pose proof (sliceTo_length_le k idx). lia.
Qed.

Lemma parentCovered_mono (t : gmap string CommandFactory) (S S' : gset string) x :
  S ⊆ S' → parentCovered t S x → parentCovered t S' x.
Proof. intros Hsub H p Hp. destruct (H p Hp); [by left|right; set_solver]. Qed.

Lemma walkFn_grows n (t : gmap string CommandFactory) k (acc : gset string) :
  acc ⊆ walkFn n t k acc.
Proof.
  revert k acc. induction n as [|n IH]; intros k acc; simpl; [done|].
  destruct (LastIndex k space); [|done].
  destruct (Radix.Get t _); [done|].
  etrans; [|apply IH]. set_solver.
Qed.

Lemma walkFn_new_absent n (t : gmap string CommandFactory) k (acc : gset string) x :
  x ∈ walkFn n t k acc → x ∈ acc ∨ Radix.Get t x = None.
Proof.
  revert k acc. induction n as [|n IH]; intros k acc; simpl; [by left|].
  destruct (LastIndex k space) as [idx|]; [|by left].
  destruct (Radix.Get t (sliceTo k idx)) eqn:E; [by left|].
  intros [Hx|Hx]%IH; [|by right].
  apply elem_of_union in Hx as [->%elem_of_singleton|Hx]; [by right|by left].
Qed.

(** With fuel for the length of the key, the walk from [k] leaves [k] and
    every key it adds with a parent in the tree or among the added keys. *)
Lemma walkFn_covers n (t : gmap string CommandFactory) k (acc : gset string) :
  String.length k ≤ n →
  parentCovered t (walkFn n t k acc) k
  ∧ ∀ x, x ∈ walkFn n t k acc → x ∈ acc ∨ parentCovered t (walkFn n t k acc) x.
Proof.
  revert k acc. induction n as [|n IH]; intros k acc Hn.
  { destruct k; simpl in Hn; [|lia]. split; [by intros p [=]|by left]. }
  simpl. unfold parentCovered at 1. unfold parentOf.
  destruct (LastIndex k space) as [idx|] eqn:E.
  2: { split; [by intros p [=]|by left]. }
  destruct (Radix.Get t (sliceTo k idx)) eqn:G.
  { split; [|by left]. intros p [= <-]. left. by rewrite G. }
  assert (String.length (sliceTo k idx) ≤ n) as Hlen.
  { apply LastIndex_lt in E. pose proof (sliceTo_length_le k idx). lia. }
  destruct (IH (sliceTo k idx) ({[sliceTo k idx]} ∪ acc) Hlen) as [Hp Hall].
  split.
  - intros p [= <-]. right.
    apply (walkFn_grows n t (sliceTo k idx)).
    apply elem_of_union. left. by apply elem_of_singleton.
  - intros x Hx. destruct (Hall x Hx) as [Hin|Hc]; [|by right].
    apply elem_of_union in Hin as [->%elem_of_singleton|Hin]; [by right|by left].
Qed.

(** More fuel than the length of the key changes nothing: the recursion
    of [walkFn] never stops for lack of fuel. *)
Lemma walkFn_fuel_enough n (t : gmap string CommandFactory) k (acc : gset string) :
  String.length k ≤ n → walkFn n t k acc = walkFn (String.length k) t k acc.
Proof.
  assert (∀ n m k acc, String.length k ≤ n → String.length k ≤ m →
            walkFn n t k acc = walkFn m t k acc) as H.
  { clear. induction n as [|n IH]; intros m k acc Hn Hm.
    - destruct k; simpl in Hn; [|lia]. by destruct m.
    - destruct m as [|m].
      + destruct k; simpl in Hm; [|lia]. done.
      + simpl. destruct (LastIndex k space) as [idx|] eqn:E; [|done].
        destruct (Radix.Get t (sliceTo k idx)); [done|].
        apply LastIndex_lt in E. pose proof (sliceTo_length_le k idx).
        apply IH; lia. }
  intros Hn. by apply H.
Qed.

Lemma collect_fold (t : gmap string CommandFactory)
    (l : list (string * CommandFactory)) (acc : gset string) :
  (∀ x, x ∈ acc → parentCovered t acc x ∧ Radix.Get t x = None) →
  let S := foldl (λ toInsert kv, walkFn (String.length kv.1) t kv.1 toInsert) acc l in
  acc ⊆ S
  ∧ (∀ x, x ∈ S → parentCovered t S x ∧ Radix.Get t x = None)
  ∧ (∀ kv, kv ∈ l → parentCovered t S kv.1).
Proof.
  revert acc. induction l as [|kv l IH]; intros acc Hacc; simpl.
  { split; [done|]. split; [done|]. intros kv Hkv. by apply elem_of_nil in Hkv. }
  set (acc1 := walkFn (String.length kv.1) t kv.1 acc).
  destruct (walkFn_covers (String.length kv.1) t kv.1 acc) as [Hk Hall]; [done|].
  fold acc1 in Hk, Hall.
  assert (acc ⊆ acc1) as Hsub by apply walkFn_grows.
  destruct (IH acc1) as (Hsub1 & HS & Hl).
  { intros x Hx. split.
    - destruct (Hall x Hx) as [Hin|Hc]; [|done].
      eapply parentCovered_mono; [done|]. by apply Hacc.
    - destruct (walkFn_new_absent _ _ _ _ _ Hx) as [Hin|]; [|done]. by apply Hacc. }
  split; [by etrans|]. split; [done|].
  intros kv' [->|Hin]%elem_of_cons; [|by apply Hl].
  eapply parentCovered_mono; done.
Qed.

Lemma collectMissing_spec (t : gmap string CommandFactory) :
  (∀ k, is_Some (Radix.Get t k) → parentCovered t (collectMissing t) k)
  ∧ (∀ x, x ∈ collectMissing t →
       parentCovered t (collectMissing t) x ∧ Radix.Get t x = None).
Proof.
  destruct (collect_fold t (Radix.Walk t) ∅) as (_ & HS & Hl); [set_solver|].
  split; [|done].
  intros k [v Hv]. apply (Hl (k, v)). by apply elem_of_map_to_list.
Qed.

Lemma insertPlaceholders_lookup (t : gmap string CommandFactory) (S : gset string) k :
  Radix.Get (insertPlaceholders RunResultHelp t S) k =
  if decide (k ∈ S) then Some placeholderFactory else Radix.Get t k.
Proof.
  unfold insertPlaceholders, Radix.Get, Radix.Insert.
  pose (P := λ (r : gmap string CommandFactory) (X : gset string),
          r !! k = if decide (k ∈ X) then Some placeholderFactory else t !! k).
  change (P (set_fold (λ k0 t0, <[k0:=placeholderFactory]> t0) t S) S).
  apply set_fold_ind_L; unfold P.
  - done.
  - intros x X r Hx Hr. destruct (decide (x = k)) as [->|Hne].
    + rewrite lookup_insert_eq. rewrite decide_True; [done|set_solver].
    + rewrite lookup_insert_ne by done. rewrite Hr.
      destruct (decide (k ∈ X)).
      * rewrite decide_True; [done|set_solver].
      * rewrite decide_False; [done|].
        intros [Hk%elem_of_singleton|Hk]%elem_of_union; [by destruct Hne|done].
Qed.

Lemma buildTree_snoc (cmds : list (string * CommandFactory)) kv :
  buildTree (cmds ++ [kv]) = insertCommand (buildTree cmds) kv.
Proof. unfold buildTree. by rewrite foldl_app. Qed.

Lemma buildTree_lookup_Some (cmds : list (string * CommandFactory)) k v :
  Radix.Get (buildTree cmds).1 k = Some v →
  ∃ k0, (k0, v) ∈ cmds ∧ TrimSpace k0 = k.
Proof.
  unfold Radix.Get.
  induction cmds as [|[k1 v1] cmds IH] using rev_ind; [done|].
  rewrite buildTree_snoc. simpl. unfold Radix.Insert.
  destruct (decide (TrimSpace k1 = k)) as [<-|Hne].
  - rewrite lookup_insert_eq. intros [= <-]. exists k1. split; [set_solver|done].
  - rewrite lookup_insert_ne by done. intros (k0 & Hin & Hk)%IH.
    exists k0. split; [set_solver|done].
Qed.


Lemma buildTree_flat (cmds : list (string * CommandFactory)) k :
  (buildTree cmds).2 = false → is_Some (Radix.Get (buildTree cmds).1 k) →
  ContainsRune k space = false.
Proof.
  unfold Radix.Get.
  induction cmds as [|[k1 v1] cmds IH] using rev_ind.
  { intros _ [v Hv]. done. }
  rewrite buildTree_snoc. simpl. unfold Radix.Insert.
  destruct (ContainsRune (TrimSpace k1) space) eqn:E; [done|].
  intros Hflat. destruct (decide (TrimSpace k1 = k)) as [<-|Hne]; [done|].
  rewrite lookup_insert_ne by done. by apply IH.
Qed.

(** The registry after synthesis: the entries of the tree built from
    [Commands] and a placeholder for each collected parent. *)
Lemma buildRegistry_lookup (cmds : list (string * CommandFactory)) k :
  Radix.Get (buildRegistry cmds).1 k = Radix.Get (buildTree cmds).1 k
  ∨ (Radix.Get (buildTree cmds).1 k = None
     ∧ Radix.Get (buildRegistry cmds).1 k = Some placeholderFactory).
Proof.
  unfold_buildRegistry.
  destruct (buildTree cmds) as [t nested]. destruct nested; simpl; [|by left].
  rewrite insertPlaceholders_lookup.
  destruct (decide (k ∈ collectMissing t)) as [Hin|]; [|by left].
  right. split; [|done]. by apply collectMissing_spec.
Qed.

Lemma buildRegistry_parent (cmds : list (string * CommandFactory)) k p :
  is_Some (Radix.Get (buildRegistry cmds).1 k) → parentOf k = Some p →
  is_Some (Radix.Get (buildRegistry cmds).1 p).
Proof.
  unfold_buildRegistry.
  destruct (buildTree cmds) as [t nested] eqn:Ebt. destruct nested; simpl.
  - rewrite !insertPlaceholders_lookup. intros Hk Hp.
    destruct (collectMissing_spec t) as [Htree Hnew].
    assert (parentCovered t (collectMissing t) k) as Hc.
    { destruct (decide (k ∈ collectMissing t)); [by apply Hnew|by apply Htree]. }
    destruct (Hc p Hp) as [Hs|Hin].
    + by destruct (decide (p ∈ collectMissing t)).
    + by rewrite decide_True.
  - intros Hk Hp. exfalso.
    assert (ContainsRune k space = false) as Hflat.
    { apply (buildTree_flat cmds); by rewrite Ebt. }
    apply LastIndex_None_ContainsRune in Hflat.
    unfold parentOf in Hp. by rewrite Hflat in Hp.
Qed.

(** C4: after registry construction every ancestor of every key of the
    registry (the key trimmed at its last space, once or more) is a key of
    the registry, bound to a factory the caller supplied or to the
    placeholder.  A registry without a key that holds a space has no key
    with a parent, so the statement needs no assumption on nesting. *)
Theorem C4_ancestors_registered (c : CLI) (k p : string) :
  let s := init c in
  is_Some (Radix.Get (commandTree s) k) →
  ancestor p k →
  (∃ k0 v, (k0, v) ∈ Commands c ∧ TrimSpace k0 = p
           ∧ Radix.Get (commandTree s) p = Some v)
  ∨ Radix.Get (commandTree s) p = Some placeholderFactory.
Proof.
  simpl. pose proof (init_registry c) as Hreg.
  assert (commandTree (init c) = (buildRegistry (Commands c)).1) as ->
    by by rewrite <- Hreg.
  intros Hk Hanc.
  assert (is_Some (Radix.Get (buildRegistry (Commands c)).1 p)) as [v Hv].
  { induction Hanc as [k p Hp|k p q Hp Hanc IH].
    - by eapply buildRegistry_parent.
    - apply IH. by eapply buildRegistry_parent. }
  destruct (buildRegistry_lookup (Commands c) p) as [Heq|[_ Hph]]; [|by right].
  left. rewrite Heq in Hv. destruct (buildTree_lookup_Some _ _ _ Hv) as (k0 & ? & ?).
  exists k0, v. by rewrite Heq.
Qed.


End Properties.

(** ** Facts about paths and their parents *)

Module PathFacts.
Import Strings StringFacts.

Local Arguments String.append : simpl nomatch.

Lemma append_empty_r (s : string) : s +:+ "" = s.
Proof. induction s as [|a s IH]; simpl; [done|]. by rewrite IH. Qed.

Lemma append_assoc (s t u : string) : (s +:+ t) +:+ u = s +:+ t +:+ u.
Proof. induction s as [|a s IH]; simpl; [done|]. by rewrite IH. Qed.

Lemma length_append (s t : string) :
  String.length (s +:+ t) = String.length s + String.length t.
Proof. induction s as [|a s IH]; simpl; [done|]. by rewrite IH. Qed.

Lemma string_of_list_ascii_app (l k : list ascii) :
  string_of_list_ascii (l ++ k) = string_of_list_ascii l +:+ string_of_list_ascii k.
Proof. induction l as [|a l IH]; simpl; [done|]. by rewrite IH. Qed.

Lemma list_ascii_of_string_app (s t : string) :
  list_ascii_of_string (s +:+ t) = list_ascii_of_string s ++ list_ascii_of_string t.
Proof. induction s as [|a s IH]; simpl; [done|]. by rewrite IH. Qed.

Lemma reverse_involutive (s : string) : reverse (reverse s) = s.
Proof.
  unfold reverse. rewrite list_ascii_of_string_of_list_ascii, rev_involutive.
  apply string_of_list_ascii_of_string.
Qed.

Lemma reverse_cons (a : ascii) (s : string) :
  reverse (String a s) = reverse s +:+ String a "".
Proof. unfold reverse. simpl. by rewrite string_of_list_ascii_app. Qed.

Lemma reverse_empty_inv (s : string) : reverse s = "" → s = "".
Proof. intros H. by rewrite <- (reverse_involutive s), H. Qed.

Lemma lacksFinalSpace_cons (a : ascii) (s : string) :
  lacksFinalSpace (String a s) =
  match s with
  | EmptyString => negb (Ascii.eqb a space)
  | _ => lacksFinalSpace s
  end.
Proof.
  unfold lacksFinalSpace. rewrite reverse_cons.
  destruct s as [|b s]; [done|].
  destruct (reverse (String b s)) as [|x r] eqn:E; [|done].
  by apply reverse_empty_inv in E.
Qed.

(** A string that is not empty and holds no space does not end in one. *)
Lemma lacksFinalSpace_segment (s : string) :
  s ≠ "" → ContainsRune s space = false → lacksFinalSpace s = true.
Proof.
  induction s as [|a s IH]; [done|]. intros _. simpl.
  destruct (Ascii.eqb a space) eqn:Ea; [done|]. intros Hs.
  rewrite lacksFinalSpace_cons. destruct s as [|b s]; [by rewrite Ea|].
  by apply IH.
Qed.

Lemma lacksFinalSpace_append (s t : string) :
  t ≠ "" → lacksFinalSpace (s +:+ t) = lacksFinalSpace t.
Proof.
  intros Ht. induction s as [|a s IH]; [done|].
  simpl. rewrite lacksFinalSpace_cons, IH.
  destruct (s +:+ t) eqn:E; [|done].
  destruct s, t; simpl in E; done.
Qed.

Lemma lacksFinalSpace_nonempty (s : string) : lacksFinalSpace s = true → s ≠ "".
Proof. by intros H ->. Qed.

(** [TrimRight] leaves a string that does not end in a space as it is. *)
Lemma TrimRight_fixed (s : string) :
  lacksFinalSpace s = true → TrimRight s space = s.
Proof.
  unfold lacksFinalSpace, TrimRight.
  destruct (reverse s) as [|a r] eqn:E; [done|].
  intros Ha%negb_true_iff. simpl. rewrite Ha, <- E. apply reverse_involutive.
Qed.

Lemma dropLeading_suffix (s : string) (r : ascii) :
  ∃ p, s = p +:+ dropLeading s r.
Proof.
  induction s as [|a s [p Hp]]; simpl; [by exists ""|].
  destruct (Ascii.eqb a r); [|by exists ""].
  exists (String a p). simpl. by rewrite <- Hp.
Qed.

Lemma reverse_append (s t : string) : reverse (s +:+ t) = reverse t +:+ reverse s.
Proof.
  unfold reverse. by rewrite list_ascii_of_string_app, rev_app_distr,
    string_of_list_ascii_app.
Qed.

(** [TrimRight] yields a prefix of its argument. *)
Lemma TrimRight_prefix (s : string) (r : ascii) :
  ∃ w, s = TrimRight s r +:+ w.
Proof.
  unfold TrimRight. destruct (dropLeading_suffix (reverse s) r) as [p Hp].
  exists (reverse p).
  rewrite <- reverse_append, <- Hp. by rewrite reverse_involutive.
Qed.

Lemma HasPrefix_append (s t : string) : HasPrefix (s +:+ t) s = true.
Proof. induction s as [|a s IH]; simpl; [by destruct t|]. by rewrite Ascii.eqb_refl. Qed.

Lemma HasPrefix_split (s p : string) :
  HasPrefix s p = true → s = p +:+ sliceFrom s (String.length p).
Proof.
  revert s. induction p as [|b p IH]; intros [|a s]; simpl; try done.
  intros [Hab Hsp]%andb_prop. apply Ascii.eqb_eq in Hab. subst. f_equal. by apply IH.
Qed.

Lemma sliceFrom_append (p t : string) : sliceFrom (p +:+ t) (String.length p) = t.
Proof. induction p as [|a p IH]; simpl; [by destruct t|done]. Qed.

Lemma sliceTo_append (p t : string) : sliceTo (p +:+ t) (String.length p) = p.
Proof. induction p as [|a p IH]; simpl; [by destruct t|]. by rewrite IH. Qed.

Lemma HasPrefix_sliceTo (s : string) (n : nat) : HasPrefix s (sliceTo s n) = true.
Proof.
  revert n. induction s as [|a s IH]; intros [|n]; simpl; try done.
  by rewrite Ascii.eqb_refl, IH.
Qed.

Lemma HasPrefix_trans (s p q : string) :
  HasPrefix s p = true → HasPrefix p q = true → HasPrefix s q = true.
Proof.
  revert p q. induction s as [|a s IH]; intros [|b p] [|c q]; simpl; try done.
  intros [Hab Hsp]%andb_prop [Hbc Hpq]%andb_prop.
  apply Ascii.eqb_eq in Hab, Hbc. subst.
  rewrite Ascii.eqb_refl. simpl. eauto.
Qed.

Lemma ContainsRune_append (s t : string) (r : ascii) :
  ContainsRune (s +:+ t) r = ContainsRune s r || ContainsRune t r.
Proof.
  induction s as [|a s IH]; simpl; [done|]. by destruct (Ascii.eqb a r).
Qed.

(** The last space of [p +:+ " " +:+ seg], for [seg] without a space, is
    the one after [p]. *)
Lemma LastIndex_join (p seg : string) :
  ContainsRune seg space = false →
  LastIndex (p +:+ String space seg) space = Some (String.length p).
Proof.
  intros Hseg. induction p as [|a p IH]; simpl.
  - apply LastIndex_None_ContainsRune in Hseg. by rewrite Hseg.
  - by rewrite IH.
Qed.

(** A string is cut at its last space into the part before it and a part
    without a space. *)
Lemma LastIndex_split (k : string) (idx : nat) :
  LastIndex k space = Some idx →
  k = sliceTo k idx +:+ String space (sliceFrom k (S idx))
  ∧ ContainsRune (sliceFrom k (S idx)) space = false
  ∧ String.length (sliceTo k idx) = idx.
Proof.
  revert idx. induction k as [|a k IH]; intros idx; simpl; [done|].
  destruct (LastIndex k space) as [i|] eqn:E.
  - intros [= <-]. destruct (IH i eq_refl) as (Hk & Hs & Hl).
    simpl. rewrite <- Hk. by rewrite Hl.
  - destruct (Ascii.eqb_spec a space) as [->|]; [|intros H; discriminate H].
    intros [= <-].
    apply LastIndex_None_ContainsRune in E.
    assert (sliceFrom k 0 = k) as Hk by by destruct k.
    simpl. rewrite Hk. by split.
Qed.

Lemma parentOf_join (p seg : string) :
  ContainsRune seg space = false → parentOf (p +:+ String space seg) = Some p.
Proof.
  intros Hseg. unfold parentOf. rewrite LastIndex_join by done.
  by rewrite sliceTo_append.
Qed.

Lemma parentOf_split (k p : string) :
  parentOf k = Some p →
  ∃ seg, k = p +:+ String space seg ∧ ContainsRune seg space = false.
Proof.
  unfold parentOf. destruct (LastIndex k space) as [idx|] eqn:E; [|done].
  intros [= <-]. destruct (LastIndex_split k idx E) as (Hk & Hs & _).
  by exists (sliceFrom k (S idx)).
Qed.

End PathFacts.

(** ** Classification of whole argument vectors *)

Module ClassifyFacts.
Import Strings StringFacts RadixFacts ScanFacts.

Lemma dispatch_eq (d1 d2 : Dispatch) :
  subcommand d1 = subcommand d2 → subcommandArgs d1 = subcommandArgs d2 →
  topFlags d1 = topFlags d2 → isHelp d1 = isHelp d2 → isVersion d1 = isVersion d2 →
  d1 = d2.
Proof. destruct d1, d2; simpl; by intros -> -> -> -> ->. Qed.

Lemma not_token_cases (a : string) :
  a ≠ "--" → startsWithoutDash a = false → a = "" ∨ startsWithDash a = true.
Proof.
  intros _ H. destruct a as [|c a]; [by left|]. right. simpl in *.
  by destruct (Ascii.eqb c dash).
Qed.

Lemma isHelpFlag_not_version (a : string) :
  isHelpFlag a = true → isVersionFlag a = false.
Proof.
  unfold isHelpFlag.
  intros [[H|H]%orb_prop|H]%orb_prop; apply String.eqb_eq in H; by subst.
Qed.

(** Once a command path is known, an iteration only looks for ["--"] and
    for the help flags. *)
Lemma scanStep_after_command args tree nested i arg d :
  subcommand d ≠ "" →
  scanStep args tree nested i arg d =
  if String.eqb arg "--" then (FlowBreak, d)
  else if isHelpFlag arg then (FlowNext, set_isHelp true d)
  else (FlowNext, d).
Proof.
  intros Hne%String.eqb_neq. unfold scanStep.
  destruct (String.eqb arg "--"); [done|].
  destruct (isHelpFlag arg); [done|].
  rewrite Hne. simpl. by rewrite Hne.
Qed.

Lemma scanLoop_after_command args tree nested i rest d :
  subcommand d ≠ "" →
  let r := scanLoop args tree nested i rest d in
  r.1 = set_isHelp (isHelp d || existsb isHelpFlag (beforeDashDash rest)) d
  ∧ (∀ j, r.2 ≠ Returned j) ∧ (∀ j, r.2 ≠ Panicked j).
Proof.
  revert i d. induction rest as [|arg rest IH]; intros i d Hne; simpl.
  { split; [|done]. apply dispatch_eq; simpl; try done. by rewrite orb_false_r. }
  rewrite scanStep_after_command by done.
  destruct (String.eqb arg "--").
  { split; [|done]. apply dispatch_eq; simpl; try done. by rewrite orb_false_r. }
  destruct (isHelpFlag arg) eqn:Hh; simpl.
  - destruct (IH (S i) (set_isHelp true d)) as [-> Hexit]; [done|].
    split; [|done]. apply dispatch_eq; simpl; try done.
    rewrite Hh. simpl. by rewrite orb_true_r.
  - destruct (IH (S i) d) as [-> Hexit]; [done|].
    split; [|done]. by rewrite Hh.
Qed.

(** Before a command path is known, tokens that are blank or dashed are
    absorbed one by one. *)
Lemma scanLoop_leading args tree nested i pre rest d :
  subcommand d = "" →
  Forall (λ a, a ≠ "--" ∧ startsWithoutDash a = false) pre →
  scanLoop args tree nested i (pre ++ rest) d =
  scanLoop args tree nested (i + length pre) rest (absorbLeading pre d).
Proof.
  intros Hsub Hpre. revert i d Hsub.
  induction Hpre as [|a pre [Hdd Hw] Hpre IH]; intros i d Hsub; simpl.
  { rewrite Nat.add_0_r. f_equal. apply dispatch_eq; simpl; try done.
    - by rewrite app_nil_r.
    - by rewrite orb_false_r.
    - by rewrite orb_false_r. }
  assert (scanStep args tree nested i a d =
          (FlowNext, absorbLeading [a] d)) as ->.
  { unfold scanStep. apply String.eqb_neq in Hdd. rewrite Hdd.
    apply String.eqb_eq in Hsub. rewrite Hsub. simpl.
    unfold absorbLeading, isLeadingFlag. simpl.
    destruct (isHelpFlag a) eqn:Hh.
    { f_equal. apply dispatch_eq; simpl; try done.
      - by rewrite andb_false_r, app_nil_r.
      - by rewrite orb_true_r.
      - rewrite orb_false_r.
        by rewrite (isHelpFlag_not_version _ Hh), orb_false_r. }
    destruct (isVersionFlag a) eqn:Hv.
    { f_equal. apply dispatch_eq; simpl; try done.
      - by rewrite andb_false_r, app_nil_r.
      - by rewrite orb_false_r.
      - by rewrite orb_true_r. }
    destruct (startsWithDash a) eqn:Hd; simpl; rewrite Hsub, Hw; simpl.
    - f_equal. apply dispatch_eq; simpl; try done; by rewrite orb_false_r.
    - f_equal. apply dispatch_eq; simpl; try done.
      + by rewrite app_nil_r.
      + by rewrite orb_false_r.
      + by rewrite orb_false_r. }
  rewrite IH by done.
  replace (i + S (length pre)) with (S i + length pre) by lia.
  f_equal. apply dispatch_eq; simpl; try done.
  - destruct (isLeadingFlag a); simpl; by rewrite <- app_assoc.
  - by destruct (isHelp d), (isHelpFlag a).
  - by destruct (isVersion d), (isVersionFlag a).
Qed.

Lemma isSegment_test (v : string) :
  ContainsRune v space || String.eqb v "" || startsWithDash v = negb (isSegment v).
Proof.
  unfold isSegment. destruct v as [|c v]; simpl.
  - done.
  - destruct (Ascii.eqb c dash); simpl.
    + by rewrite orb_true_r.
    + rewrite orb_false_r. by destruct (if Ascii.eqb c space then true else ContainsRune v space).
Qed.

(** The loop of lines 477-484 stops exactly after the run of segments. *)
Lemma searchEnd_exact (toks rest : list string) (i k j0 : nat) :
  Forall (λ v, isSegment v = true) toks → endsCandidate rest →
  searchEnd i k (toks ++ rest) j0 =
  match toks with [] => j0 | _ => i + k + length toks end.
Proof.
  intros Htoks Hrest. revert k j0.
  induction Htoks as [|v toks Hv Htoks IH]; intros k j0; simpl.
  - destruct rest as [|r rest]; simpl in *; [done|].
    by rewrite isSegment_test, Hrest.
  - rewrite isSegment_test, Hv. simpl. rewrite IH.
    destruct toks; simpl; lia.
Qed.

Lemma searchKeyAt_candidate (pre toks rest : list string) :
  toks ≠ [] → Forall (λ v, isSegment v = true) toks → endsCandidate rest →
  searchKeyAt (pre ++ toks ++ rest) (length pre) = Join toks " ".
Proof.
  intros Hne Htoks Hrest. unfold searchKeyAt, sliceArgs.
  rewrite drop_app_length, searchEnd_exact by done.
  destruct toks as [|t toks]; [done|].
  replace (length pre + 0 + length (t :: toks) - length pre)
    with (length (t :: toks)) by lia.
  by rewrite take_app_length.
Qed.

(** The runes of a valid string are read the same whatever follows it. *)
Lemma runes_append_valid (k r : string) :
  Utf8.ValidString k = true → Utf8.runes (k +:+ r) = Utf8.runes k ++ Utf8.runes r.
Proof.
  revert k.
  assert (∀ n k, String.length k ≤ n → Utf8.ValidString k = true →
            Utf8.runes (k +:+ r) = Utf8.runes k ++ Utf8.runes r) as H.
  { induction n as [|n IH]; intros k Hn Hv.
    { destruct k; simpl in Hn; [done|lia]. }
    destruct k as [|c0 k]; [done|].
    cbn [Utf8.ValidString] in Hv.
    change (String c0 k +:+ r) with (String c0 (k +:+ r)).
    cbn [Utf8.runes].
    destruct (Utf8.between 0 127 c0).
    { cbn [app]. f_equal. apply IH; [simpl in Hn; lia|done]. }
    destruct (Utf8.between 194 223 c0).
    { destruct k as [|c1 k]; [done|].
      apply andb_prop in Hv as [H1 Hv].
      change (String c1 k +:+ r) with (String c1 (k +:+ r)).
      cbv beta iota. rewrite H1. cbn [app]. f_equal. apply IH; [simpl in Hn; lia|done]. }
    destruct (Utf8.between 224 239 c0).
    { destruct k as [|c1 [|c2 k]]; try done.
      apply andb_prop in Hv as [H12 Hv].
      change (String c1 (String c2 k) +:+ r) with (String c1 (String c2 (k +:+ r))).
      cbv beta iota. rewrite H12. cbn [app]. f_equal. apply IH; [simpl in Hn; lia|done]. }
    destruct (Utf8.between 240 244 c0); [|done].
    destruct k as [|c1 [|c2 [|c3 k]]]; try done.
    apply andb_prop in Hv as [H123 Hv].
    change (String c1 (String c2 (String c3 k)) +:+ r)
      with (String c1 (String c2 (String c3 (k +:+ r)))).
    cbv beta iota. rewrite H123. cbn [app]. f_equal. apply IH; [simpl in Hn; lia|done]. }
  intros k Hv. by apply (H (String.length k)).
Qed.

Lemma matchesRunes_prefix (pattern rest : list N) :
  match rest with [] => True | r :: _ => r = 32%N end →
  matchesRunes pattern (pattern ++ rest) = true.
Proof.
  intros Hrest. induction pattern as [|p pattern IH]; simpl.
  - destruct rest as [|r rest]; [done|]. subst. done.
  - by rewrite N.eqb_refl, IH.
Qed.

(** A valid key that ends at a segment boundary of the text is found by
    the pattern, at the head of the text. *)
Lemma matchesHere_reVerify (k s : string) :
  Utf8.ValidString k = true →
  matchesHere k s = true → reVerifyMatchString k s = true.
Proof.
  intros Hv [Hpre Hnext]%andb_prop.
  apply PathFacts.HasPrefix_split in Hpre.
  unfold reVerifyMatchString. rewrite Hpre, runes_append_valid by done.
  assert (matchesRunes (Utf8.runes k)
            (Utf8.runes k ++ Utf8.runes (sliceFrom s (String.length k))) = true) as Hm.
  { apply matchesRunes_prefix.
    destruct (sliceFrom s (String.length k)) as [|a rest]; [done|].
    apply Ascii.eqb_eq in Hnext. subst a. done. }
  destruct (Utf8.runes k ++ Utf8.runes (sliceFrom s (String.length k)));
    simpl in *; by rewrite Hm.
Qed.

Lemma startsWithoutDash_nonempty (tok : string) :
  startsWithoutDash tok = true → tok ≠ "" ∧ tok ≠ "--" ∧ isHelpFlag tok = false.
Proof.
  intros H. split; [by intros ->|]. split; [by intros ->|].
  destruct (isHelpFlag tok) eqn:Hh; [|done].
  apply isHelpFlag_startsWithDash, startsWithDash_not_without in Hh. congruence.
Qed.

(** The iteration that finds the command path under a flat registry. *)
Lemma scanStep_token_flat args tree i tok d :
  subcommand d = "" → startsWithoutDash tok = true →
  scanStep args tree false i tok d =
  (FlowNext, set_subcommandArgs (drop (i + 1) args) (set_subcommand tok d)).
Proof.
  intros Hsub Hw. destruct (startsWithoutDash_nonempty _ Hw) as (_ & Hdd & Hh).
  unfold scanStep. apply String.eqb_neq in Hdd. rewrite Hdd, Hh, Hsub. simpl.
  assert (isVersionFlag tok = false) as ->.
  { destruct (isVersionFlag tok) eqn:Hv; [|done].
    apply isVersionFlag_startsWithDash, startsWithDash_not_without in Hv. congruence. }
  assert (startsWithDash tok = false) as ->.
  { destruct tok as [|a tok]; simpl in *; [done|]. by destruct (Ascii.eqb a dash). }
  rewrite Hsub. simpl. by rewrite Hw.
Qed.

(** The iteration that finds the command path under a nested registry. *)
Lemma scanStep_token_nested args tree i tok d :
  subcommand d = "" → isSegment tok = true →
  scanStep args tree true i tok d =
  match Radix.LongestPrefix tree (searchKeyAt args i) with
  | Some (k, _) =>
      if Utf8.ValidString k then
        if reVerifyMatchString k (searchKeyAt args i)
        then (FlowNext,
              set_subcommandArgs (drop (i + Count k space + 1) args)
                (set_subcommand k (set_subcommand tok d)))
        else (FlowNext, set_subcommandArgs (drop (i + 1) args) (set_subcommand tok d))
      else (FlowPanic, set_subcommand tok d)
  | None => (FlowNext, set_subcommandArgs (drop (i + 1) args) (set_subcommand tok d))
  end.
Proof.
  intros Hsub [Hw Hsp%negb_true_iff]%andb_prop.
  destruct (startsWithoutDash_nonempty _ Hw) as (_ & Hdd & Hh).
  unfold scanStep. apply String.eqb_neq in Hdd. rewrite Hdd, Hh, Hsub. simpl.
  assert (isVersionFlag tok = false) as ->.
  { destruct (isVersionFlag tok) eqn:Hv; [|done].
    apply isVersionFlag_startsWithDash, startsWithDash_not_without in Hv. congruence. }
  assert (startsWithDash tok = false) as ->.
  { destruct tok as [|a tok]; simpl in *; [done|]. by destruct (Ascii.eqb a dash). }
  rewrite Hsub. simpl. rewrite Hw, Hsp. fold (searchKeyAt args i).
  destruct (Radix.LongestPrefix tree (searchKeyAt args i)) as [[k v]|]; [|done].
  destruct (Utf8.ValidString k); [|done].
  by destruct (reVerifyMatchString k (searchKeyAt args i)).
Qed.

(** When the loop is left at the end of the arguments or by [break],
    [processArgs] does not panic and ends with the default switch. *)
Lemma processArgs_of_scan (c : CLI) tree nested d0 r e :
  scanArgs c tree nested d0 = (r, e) →
  (∀ j, e ≠ Returned j) → (∀ j, e ≠ Panicked j) →
  processArgsPanics c tree nested d0 = false
  ∧ processArgs c tree nested d0 = defaultSwitch (Commands c) r.
Proof.
  unfold processArgs, processArgsPanics. intros -> H1 H2.
  destruct e; try done; [by destruct (H1 i)|by destruct (H2 i)].
Qed.

Lemma defaultSwitch_command cmds d :
  subcommand d ≠ "" → defaultSwitch cmds d = d.
Proof. intros Hne%String.eqb_neq. unfold defaultSwitch. by rewrite Hne. Qed.

End ClassifyFacts.

Section Classification.

Variable RunResultHelp : Z.
Variable BasicHelpFunc : string → HelpFuncT.

Import Strings StringFacts RadixFacts ScanFacts ClassifyFacts.

Local Abbreviation init := (init RunResultHelp BasicHelpFunc).
Local Abbreviation initPanics := (initPanics RunResultHelp).

(** The classification of the arguments under a flat registry, shared by
    the statements on [Run] below. *)
Lemma dispatch_flat (c : CLI) (pre : list string) (tok : string)
    (post : list string) :
  commandNested (init c) = false →
  Args c = pre ++ tok :: post →
  Forall (λ a, a ≠ "--" ∧ startsWithoutDash a = false) pre →
  startsWithoutDash tok = true →
  initPanics c = false
  ∧ dispatch (init c) =
    {| subcommand := tok;
       subcommandArgs := post;
       topFlags := List.filter isLeadingFlag pre;
       isHelp := existsb isHelpFlag pre || existsb isHelpFlag (beforeDashDash post);
       isVersion := existsb isVersionFlag pre |}.
Proof.
  intros Hflat Hargs Hpre Htok.
  rewrite (init_panics RunResultHelp BasicHelpFunc), init_dispatch, Hflat.
  destruct (startsWithoutDash_nonempty _ Htok) as (Hne & _ & _).
  set (tree := commandTree (init c)).
  set (d := set_subcommandArgs (drop (length pre + 1) (Args c))
              (set_subcommand tok (absorbLeading pre zeroDispatch))).
  assert (scanArgs c tree false zeroDispatch =
          scanLoop (Args c) tree false (S (length pre)) post d) as Hscan.
  { unfold scanArgs. rewrite Hargs at 2.
    rewrite scanLoop_leading by done. simpl.
    by rewrite scanStep_token_flat. }
  destruct (scanLoop_after_command (Args c) tree false (S (length pre)) post d)
    as (Hres & Hexit & Hnp); [done|].
  destruct (scanLoop (Args c) tree false (S (length pre)) post d) as [r e].
  simpl in Hres, Hexit, Hnp.
  destruct (processArgs_of_scan c tree false zeroDispatch r e) as [-> ->]; try done.
  split; [done|].
  rewrite defaultSwitch_command by by subst r.
  subst r. apply dispatch_eq; simpl; try done.
  rewrite Hargs.
  replace (length pre + 1) with (length (pre ++ [tok])) by (rewrite length_app; simpl; lia).
  rewrite (cons_middle tok pre post), app_assoc. by rewrite drop_app_length.
Qed.

(** Under a flat registry classification does not panic, and the command
    path is the first argument that is neither blank nor dashed, provided
    no ["--"] comes before it; the command receives everything after that
    argument; the dashed arguments before it are the leading flags; the
    version flag counts only before it, the help flag also after it, up
    to a ["--"]. *)
Theorem flat_classification (c : CLI) (pre : list string) (tok : string)
    (post : list string) :
  commandNested (init c) = false →
  Args c = pre ++ tok :: post →
  Forall (λ a, a ≠ "--" ∧ startsWithoutDash a = false) pre →
  startsWithoutDash tok = true →
  initPanics c = false
  ∧ dispatch (init c) =
    {| subcommand := tok;
       subcommandArgs := post;
       topFlags := List.filter isLeadingFlag pre;
       isHelp := existsb isHelpFlag pre || existsb isHelpFlag (beforeDashDash post);
       isVersion := existsb isVersionFlag pre |}.
Proof. exact (dispatch_flat c pre tok post). Qed.

(** The classification of arguments that name no command, shared by the
    statements on [Run] below. *)
Lemma dispatch_no_command (c : CLI) (pre rest : list string) :
  Args c = pre ++ rest →
  rest = [] ∨ (∃ post, rest = "--" :: post) →
  Forall (λ a, a ≠ "--" ∧ startsWithoutDash a = false) pre →
  initPanics c = false
  ∧ dispatch (init c) =
    if hasDefaultCommand (Commands c)
    then {| subcommand := "";
            subcommandArgs := List.filter isLeadingFlag pre;
            topFlags := [];
            isHelp := existsb isHelpFlag pre;
            isVersion := existsb isVersionFlag pre |}
    else {| subcommand := "";
            subcommandArgs := [];
            topFlags := List.filter isLeadingFlag pre;
            isHelp := existsb isHelpFlag pre;
            isVersion := existsb isVersionFlag pre |}.
Proof.
  intros Hargs Hrest Hpre. rewrite (init_panics RunResultHelp BasicHelpFunc), init_dispatch.
  set (tree := commandTree (init c)). set (nested := commandNested (init c)).
  assert (∃ e, scanArgs c tree nested zeroDispatch = (absorbLeading pre zeroDispatch, e)
               ∧ (∀ j, e ≠ Returned j) ∧ (∀ j, e ≠ Panicked j))
    as (e & Hscan & Hexit & Hnp).
  { assert (scanArgs c tree nested zeroDispatch =
            scanLoop (Args c) tree nested (length pre) rest
              (absorbLeading pre zeroDispatch)) as ->.
    { unfold scanArgs. rewrite Hargs at 2. by rewrite scanLoop_leading. }
    destruct Hrest as [->|[post ->]]; simpl.
    - by exists RanOut.
    - by exists (Broke (length pre)). }
  destruct (processArgs_of_scan c tree nested zeroDispatch _ e Hscan) as [-> ->];
    try done.
  split; [done|].
  unfold defaultSwitch. simpl.
  destruct (hasDefaultCommand (Commands c)); apply dispatch_eq; simpl; try done.
  by rewrite app_nil_r.
Qed.


(** Under a nested registry, when the arguments after the leading flags
    start with a run of segments (tokens that are not blank, not dashed
    and hold no space) and the longest registered key that is a prefix of
    the joined run is valid UTF-8 and ends at a segment boundary of the
    run, classification does not panic, that key is the command path, and
    the command receives every argument after the segments the key
    covers. *)
Theorem nested_classification (c : CLI) (pre toks rest : list string)
    (k : string) (v : CommandFactory) :
  commandNested (init c) = true →
  Args c = pre ++ toks ++ rest →
  Forall (λ a, a ≠ "--" ∧ startsWithoutDash a = false) pre →
  toks ≠ [] → Forall (λ t, isSegment t = true) toks → endsCandidate rest →
  Radix.LongestPrefix (commandTree (init c)) (Join toks " ") = Some (k, v) →
  Utf8.ValidString k = true →
  matchesHere k (Join toks " ") = true →
  k ≠ "" →
  initPanics c = false
  ∧ dispatch (init c) =
    {| subcommand := k;
       subcommandArgs := drop (Count k space + 1) (toks ++ rest);
       topFlags := List.filter isLeadingFlag pre;
       isHelp := existsb isHelpFlag pre
                 || existsb isHelpFlag (beforeDashDash (tail toks ++ rest));
       isVersion := existsb isVersionFlag pre |}.
Proof.
  intros Hnested Hargs Hpre Hne Htoks Hrest Hlp Hvalid Hhere Hk.
  rewrite (init_panics RunResultHelp BasicHelpFunc), init_dispatch, Hnested.
  set (tree := commandTree (init c)) in *.
  destruct toks as [|tok toks]; [done|]. simpl tail.
  apply Forall_cons in Htoks as Htok. destruct Htok as [Htok _].
  set (d := set_subcommandArgs (drop (length pre + Count k space + 1) (Args c))
              (set_subcommand k (set_subcommand tok (absorbLeading pre zeroDispatch)))).
  assert (scanArgs c tree true zeroDispatch =
          scanLoop (Args c) tree true (S (length pre)) (toks ++ rest) d) as Hscan.
  { unfold scanArgs. rewrite Hargs at 2.
    rewrite scanLoop_leading by done. simpl.
    rewrite scanStep_token_nested by done.
    assert (searchKeyAt (Args c) (length pre) = Join (tok :: toks) " ") as Hkey.
    { rewrite Hargs. by apply searchKeyAt_candidate. }
    rewrite ?Nat.add_0_l, Hkey.
    by rewrite Hlp, Hvalid, (matchesHere_reVerify _ _ Hvalid Hhere). }
  destruct (scanLoop_after_command (Args c) tree true (S (length pre)) (toks ++ rest) d)
    as (Hres & Hexit & Hnp); [done|].
  destruct (scanLoop (Args c) tree true (S (length pre)) (toks ++ rest) d) as [r e].
  simpl in Hres, Hexit, Hnp.
  destruct (processArgs_of_scan c tree true zeroDispatch r e) as [-> ->]; try done.
  split; [done|].
  rewrite defaultSwitch_command by by subst r.
  subst r. apply dispatch_eq; simpl; try done.
  rewrite Hargs. rewrite <- Nat.add_assoc, <- drop_drop.
  by rewrite drop_app_length.
Qed.

(** Under a nested registry, when no registered key is a prefix of the
    joined run of segments, classification does not panic, the command
    path is the first segment alone and everything after it is handed
    on. *)
Theorem nested_unmatched_classification (c : CLI) (pre toks rest : list string)
    (tok : string) :
  commandNested (init c) = true →
  Args c = pre ++ (tok :: toks) ++ rest →
  Forall (λ a, a ≠ "--" ∧ startsWithoutDash a = false) pre →
  Forall (λ t, isSegment t = true) (tok :: toks) → endsCandidate rest →
  Radix.LongestPrefix (commandTree (init c)) (Join (tok :: toks) " ") = None →
  initPanics c = false
  ∧ dispatch (init c) =
    {| subcommand := tok;
       subcommandArgs := toks ++ rest;
       topFlags := List.filter isLeadingFlag pre;
       isHelp := existsb isHelpFlag pre
                 || existsb isHelpFlag (beforeDashDash (toks ++ rest));
       isVersion := existsb isVersionFlag pre |}.
Proof.
  intros Hnested Hargs Hpre Htoks Hrest Hlp.
  rewrite (init_panics RunResultHelp BasicHelpFunc), init_dispatch, Hnested.
  set (tree := commandTree (init c)) in *.
  apply Forall_cons in Htoks as Htok. destruct Htok as [Htok _].
  assert (startsWithoutDash tok = true) as Hw by by apply andb_prop in Htok as [? _].
  destruct (startsWithoutDash_nonempty _ Hw) as (Hne & _ & _).
  set (d := set_subcommandArgs (drop (length pre + 1) (Args c))
              (set_subcommand tok (absorbLeading pre zeroDispatch))).
  assert (scanArgs c tree true zeroDispatch =
          scanLoop (Args c) tree true (S (length pre)) (toks ++ rest) d) as Hscan.
  { unfold scanArgs. rewrite Hargs at 2.
    rewrite scanLoop_leading by done. simpl.
    rewrite scanStep_token_nested by done.
    assert (searchKeyAt (Args c) (length pre) = Join (tok :: toks) " ") as Hkey.
    { rewrite Hargs. by apply searchKeyAt_candidate. }
    rewrite ?Nat.add_0_l, Hkey.
    by rewrite Hlp. }
  destruct (scanLoop_after_command (Args c) tree true (S (length pre)) (toks ++ rest) d)
    as (Hres & Hexit & Hnp); [done|].
  destruct (scanLoop (Args c) tree true (S (length pre)) (toks ++ rest) d) as [r e].
  simpl in Hres, Hexit, Hnp.
  destruct (processArgs_of_scan c tree true zeroDispatch r e) as [-> ->]; try done.
  split; [done|].
  rewrite defaultSwitch_command by by subst r.
  subst r. apply dispatch_eq; simpl; try done.
  rewrite Hargs.
  replace (length pre + 1) with (length (pre ++ [tok])) by (rewrite length_app; simpl; lia).
  change ((tok :: toks) ++ rest) with ([tok] ++ toks ++ rest).
  rewrite app_assoc. by rewrite drop_app_length.
Qed.

End Classification.

(** ** Parents and help listings *)

Section Listing.

Variable RunResultHelp : Z.
Variable BasicHelpFunc : string → HelpFuncT.

Import Strings StringFacts RadixFacts PathFacts.

Local Arguments String.append : simpl nomatch.

Local Abbreviation init := (init RunResultHelp BasicHelpFunc).

(** The parent of a path made of [p], a space and one more segment is
    [p]. *)
Theorem subcommandParent_of_child (p seg : string) :
  seg ≠ "" → ContainsRune seg space = false →
  subcommandParent (p +:+ " " +:+ seg) = p.
Proof.
  intros Hne Hseg. unfold subcommandParent.
  assert (String.eqb (p +:+ " " +:+ seg) "" = false) as ->.
  { apply String.eqb_neq. by destruct p. }
  rewrite TrimRight_fixed.
  - change (" " +:+ seg) with (String space seg).
    rewrite LastIndex_join by done. apply sliceTo_append.
  - rewrite lacksFinalSpace_append by done.
    change (" " +:+ seg) with (String space seg).
    rewrite lacksFinalSpace_cons. destruct seg; [done|].
    by apply lacksFinalSpace_segment.
Qed.

Lemma subcommandParent_top (sub : string) :
  ContainsRune sub space = false → subcommandParent sub = "".
Proof.
  intros Hs. unfold subcommandParent.
  destruct (String.eqb_spec sub "") as [->|Hne]; [done|].
  rewrite TrimRight_fixed by by apply lacksFinalSpace_segment.
  apply LastIndex_None_ContainsRune in Hs. by rewrite Hs.
Qed.

(** The parent of a path that is not empty is a proper prefix of it. *)
Theorem subcommandParent_proper_prefix (sub : string) :
  sub ≠ "" →
  HasPrefix sub (subcommandParent sub) = true
  ∧ String.length (subcommandParent sub) < String.length sub.
Proof.
  intros Hne. unfold subcommandParent.
  apply String.eqb_neq in Hne as Hb. rewrite Hb.
  destruct (TrimRight_prefix sub space) as [w Hw].
  destruct (LastIndex (TrimRight sub space) space) as [idx|] eqn:E.
  - split.
    + rewrite Hw at 1. eapply HasPrefix_trans; [apply HasPrefix_append|].
      apply HasPrefix_sliceTo.
    + apply LastIndex_lt in E.
      pose proof (sliceTo_length_le (TrimRight sub space) idx).
      apply (f_equal String.length) in Hw. rewrite length_append in Hw. lia.
  - split; [by destruct sub|]. destruct sub; [done|simpl; lia].
Qed.

(** Trailing spaces do not change the parent. *)
Theorem subcommandParent_trailing_space (sub : string) :
  subcommandParent (sub +:+ " ") = subcommandParent sub.
Proof.
  unfold subcommandParent.
  assert (TrimRight (sub +:+ " ") space = TrimRight sub space) as Ht.
  { unfold TrimRight. by rewrite reverse_append. }
  destruct (String.eqb_spec sub "") as [->|Hne]; [done|].
  assert (String.eqb (sub +:+ " ") "" = false) as ->.
  { apply String.eqb_neq. by destruct sub. }
  by rewrite Ht.
Qed.

(** What [helpCommands] returns: the entries of the registry that are not
    hidden and whose key is the walked prefix followed by a part without
    a space. *)
Lemma helpCommands_lookup (s : Initialized) (prefix k : string) (f : CommandFactory) :
  helpCommands s prefix !! k = Some f ↔
  (Radix.Get (commandTree s) k = Some f
   ∧ (k ∉ commandHidden s)
   ∧ ∃ seg, k = listingPrefix prefix +:+ seg ∧ ContainsRune seg space = false).
Proof.
  unfold helpCommands, Radix.WalkPrefix, Radix.Get. fold (listingPrefix prefix).
  rewrite !map_lookup_filter_Some. simpl. split.
  - intros [[Hk Hpre%Is_true_true] [Hseg%Is_true_true%negb_true_iff Hhid]].
    split; [done|]. split; [done|].
    exists (sliceFrom k (String.length (listingPrefix prefix))).
    split; [by apply HasPrefix_split|done].
  - intros (Hk & Hhid & seg & -> & Hseg). split; [split; [done|]|split; [|done]].
    + apply Is_true_true, HasPrefix_append.
    + apply Is_true_true, negb_true_iff. by rewrite sliceFrom_append.
Qed.

(** The help of the root lists exactly the entries of the registry that
    are not hidden and whose key holds no space, however deep the
    registry goes. *)
Theorem root_listing (s : Initialized) (k : string) (f : CommandFactory) :
  helpCommands s "" !! k = Some f ↔
  (Radix.Get (commandTree s) k = Some f
   ∧ (k ∉ commandHidden s)
   ∧ ContainsRune k space = false).
Proof.
  rewrite helpCommands_lookup. change (listingPrefix "") with "". split.
  - intros (? & ? & seg & -> & ?). done.
  - intros (? & ? & ?). split; [done|]. split; [done|]. by exists k.
Qed.

(** The help of a path that is not empty and does not end in a space
    lists exactly the entries of the registry that are not hidden and
    whose parent is that path. *)
Theorem children_listing (s : Initialized) (p k : string) (f : CommandFactory) :
  lacksFinalSpace p = true →
  (helpCommands s p !! k = Some f ↔
   Radix.Get (commandTree s) k = Some f
   ∧ (k ∉ commandHidden s)
   ∧ parentOf k = Some p).
Proof.
  intros Hp. rewrite helpCommands_lookup. unfold listingPrefix. rewrite Hp. split.
  - intros (? & ? & seg & -> & Hseg). split; [done|]. split; [done|].
    rewrite append_assoc. by apply parentOf_join.
  - intros (? & ? & (seg & -> & Hseg)%parentOf_split). split; [done|]. split; [done|].
    exists seg. by rewrite append_assoc.
Qed.

(** Hiding a command takes it out of every help listing and changes
    nothing else: the registry and the classification of the arguments
    are those of the same [CLI] with nothing hidden. *)
Theorem hidden_is_unlisted_only (c : CLI) (k prefix : string) :
  k ∈ HiddenCommands c →
  helpCommands (init c) prefix !! k = None
  ∧ commandTree (init c) = commandTree (init (withoutHidden c))
  ∧ commandNested (init c) = commandNested (init (withoutHidden c))
  ∧ dispatch (init c) = dispatch (init (withoutHidden c)).
Proof.
  intros Hk. split.
  - destruct (helpCommands (init c) prefix !! k) as [f|] eqn:E; [|done].
    apply helpCommands_lookup in E as (_ & Hhid & _). destruct Hhid.
    unfold init. destruct (buildRegistry RunResultHelp (Commands c)). simpl.
    by apply elem_of_list_to_set.
  - unfold init. simpl. by destruct (buildRegistry RunResultHelp (Commands c)).
Qed.

End Listing.

(** ** The registry after synthesis *)

Section Registry.

Variable RunResultHelp : Z.
Variable BasicHelpFunc : string → HelpFuncT.

Import Strings StringFacts RadixFacts PathFacts.

Local Abbreviation init := (init RunResultHelp BasicHelpFunc).
Local Abbreviation buildRegistry := (buildRegistry RunResultHelp).
Local Abbreviation placeholderFactory := (placeholderFactory RunResultHelp).

Lemma commandTree_init (c : CLI) :
  commandTree (init c) = (buildRegistry (Commands c)).1.
Proof. by rewrite <- (init_registry RunResultHelp BasicHelpFunc c). Qed.

Lemma commandNested_init (c : CLI) :
  commandNested (init c) = (buildTree (Commands c)).2.
Proof.
  pose proof (init_registry RunResultHelp BasicHelpFunc c) as H.
  apply (f_equal snd) in H. simpl in H. rewrite H.
  unfold_buildRegistry. by destruct (buildTree (Commands c)) as [t []].
Qed.

Lemma ancestor_trans_parent (x p k : string) :
  ancestor x p → parentOf k = Some p → ancestor x k.
Proof. intros Hx Hp. by eapply ancestor_further. Qed.

(** Every key that [walkFn] adds is an ancestor of the key it started
    from. *)
Lemma walkFn_adds_ancestors n (t : gmap string CommandFactory) k (acc : gset string) x :
  x ∈ walkFn n t k acc → x ∈ acc ∨ ancestor x k.
Proof.
  revert k acc. induction n as [|n IH]; intros k acc; simpl; [by left|].
  destruct (LastIndex k space) as [idx|] eqn:E; [|by left].
  assert (parentOf k = Some (sliceTo k idx)) as Hp by (unfold parentOf; by rewrite E).
  destruct (Radix.Get t (sliceTo k idx)); [by left|].
  intros [Hx|Hx]%IH.
  - apply elem_of_union in Hx as [->%elem_of_singleton|Hx]; [|by left].
    right. by apply ancestor_parent.
  - right. by eapply ancestor_further.
Qed.

Lemma collect_fold_ancestors (t : gmap string CommandFactory)
    (l : list (string * CommandFactory)) (acc : gset string) x :
  x ∈ foldl (λ toInsert kv, walkFn (String.length kv.1) t kv.1 toInsert) acc l →
  x ∈ acc ∨ ∃ kv, kv ∈ l ∧ ancestor x kv.1.
Proof.
  revert acc. induction l as [|kv l IH]; intros acc; simpl; [by left|].
  intros [Hx|(kv' & Hin & Hanc)]%IH.
  - apply walkFn_adds_ancestors in Hx as [Hx|Hx]; [by left|].
    right. exists kv. split; [apply list_elem_of_here|done].
  - right. exists kv'. split; [by apply list_elem_of_further|done].
Qed.

Lemma collectMissing_ancestors (t : gmap string CommandFactory) x :
  x ∈ collectMissing t → ∃ k, is_Some (Radix.Get t k) ∧ ancestor x k.
Proof.
  intros [Hx|([k v] & Hin & Hanc)]%collect_fold_ancestors.
  - by apply not_elem_of_empty in Hx.
  - exists k. split; [|done]. exists v. by apply elem_of_map_to_list in Hin.
Qed.

(** The key right below an ancestor on the way down to [k]. *)
Lemma ancestor_child (x k : string) :
  ancestor x k → ∃ ch, parentOf ch = Some x ∧ (ch = k ∨ ancestor ch k).
Proof.
  induction 1 as [k p Hp|k p q Hp Hanc (ch & Hch & Hor)].
  - exists k. by split; [|left].
  - exists ch. split; [done|]. right.
    destruct Hor as [->|Hc]; [by apply ancestor_parent|by eapply ancestor_further].
Qed.

Lemma registry_ancestor_present (cmds : list (string * CommandFactory)) k p :
  is_Some (Radix.Get (buildRegistry cmds).1 k) → ancestor p k →
  is_Some (Radix.Get (buildRegistry cmds).1 p).
Proof.
  intros Hk Hanc. induction Hanc as [k p Hp|k p q Hp Hanc IH].
  - by eapply (buildRegistry_parent RunResultHelp BasicHelpFunc).
  - apply IH. by eapply (buildRegistry_parent RunResultHelp BasicHelpFunc).
Qed.

Lemma registry_placeholder_collected (cmds : list (string * CommandFactory)) p :
  Radix.Get (buildTree cmds).1 p = None →
  is_Some (Radix.Get (buildRegistry cmds).1 p) →
  p ∈ collectMissing (buildTree cmds).1.
Proof.
  unfold_buildRegistry. destruct (buildTree cmds) as [t nested]. simpl.
  intros Hnone. destruct nested; simpl.
  - rewrite (insertPlaceholders_lookup RunResultHelp BasicHelpFunc).
    destruct (decide (p ∈ collectMissing t)); [done|].
    rewrite Hnone. by intros [? ?].
  - rewrite Hnone. by intros [? ?].
Qed.

(** Every entry of the registry is a factory the caller gave, under the
    trimmed form of its key, or the placeholder, under an ancestor of the
    trimmed form of a caller's key that the caller did not register. *)
Theorem registry_entries_sound (c : CLI) (k : string) (f : CommandFactory) :
  Radix.Get (commandTree (init c)) k = Some f →
  (∃ k0, (k0, f) ∈ Commands c ∧ TrimSpace k0 = k)
  ∨ (f = placeholderFactory
     ∧ Radix.Get (buildTree (Commands c)).1 k = None
     ∧ ∃ k0 v, (k0, v) ∈ Commands c ∧ ancestor k (TrimSpace k0)).
Proof.
  rewrite commandTree_init. intros Hk.
  destruct (buildRegistry_lookup RunResultHelp BasicHelpFunc (Commands c) k) as [Heq|[Hnone Hph]].
  - left. rewrite Heq in Hk. by apply (buildTree_lookup_Some BasicHelpFunc).
  - right. rewrite Hph in Hk. injection Hk as <-. split; [done|]. split; [done|].
    assert (k ∈ collectMissing (buildTree (Commands c)).1) as Hin.
    { apply registry_placeholder_collected; [done|]. by rewrite Hph. }
    apply collectMissing_ancestors in Hin as (k1 & [v Hv] & Hanc).
    apply (buildTree_lookup_Some BasicHelpFunc) in Hv as (k0 & Hin & <-). by exists k0, v.
Qed.

(** No placeholder is without a child: a key of the registry that the
    caller did not register is the parent of another key of the
    registry. *)
Theorem placeholder_has_child (c : CLI) (p : string) :
  Radix.Get (buildTree (Commands c)).1 p = None →
  is_Some (Radix.Get (commandTree (init c)) p) →
  ∃ k, is_Some (Radix.Get (commandTree (init c)) k) ∧ parentOf k = Some p.
Proof.
  rewrite commandTree_init. intros Hnone Hp.
  pose proof (registry_placeholder_collected _ _ Hnone Hp) as Hin.
  apply collectMissing_ancestors in Hin as (k & [v Hv] & Hanc).
  assert (is_Some (Radix.Get (buildRegistry (Commands c)).1 k)) as Hk.
  { destruct (buildRegistry_lookup RunResultHelp BasicHelpFunc (Commands c) k) as [->|[Hn _]];
      [by exists v|congruence]. }
  apply ancestor_child in Hanc as (ch & Hch & [->|Hc]).
  - by exists k.
  - exists ch. split; [|done]. by eapply registry_ancestor_present.
Qed.

(** When two keys of [Commands] have the same trimmed form, the factory
    of the one the loop of [init] visits last is the one registered. *)
Theorem last_visited_key_wins (c : CLI) (l1 l2 : list (string * CommandFactory))
    (k : string) (v : CommandFactory) :
  Commands c = l1 ++ (k, v) :: l2 →
  (∀ kv, kv ∈ l2 → TrimSpace kv.1 ≠ TrimSpace k) →
  Radix.Get (commandTree (init c)) (TrimSpace k) = Some v.
Proof.
  intros Hc Hl2. rewrite commandTree_init, Hc.
  assert (Radix.Get (buildTree (l1 ++ (k, v) :: l2)).1 (TrimSpace k) = Some v) as Hbt.
  { clear Hc. induction l2 as [|[k2 v2] l2 IH] using rev_ind.
    - rewrite buildTree_snoc. simpl. unfold Radix.Get, Radix.Insert.
      apply lookup_insert_eq.
    - rewrite app_comm_cons, app_assoc, buildTree_snoc. simpl.
      unfold Radix.Get, Radix.Insert. rewrite lookup_insert_ne.
      + apply IH. intros kv Hkv. apply Hl2. apply elem_of_app. by left.
      + apply (Hl2 (k2, v2)). apply elem_of_app. right. apply list_elem_of_here. }
  destruct (buildRegistry_lookup RunResultHelp BasicHelpFunc (l1 ++ (k, v) :: l2) (TrimSpace k))
    as [->|[Hn _]]; [done|congruence].
Qed.

Lemma buildTree_nested_iff (cmds : list (string * CommandFactory)) :
  (buildTree cmds).2 = true ↔
  ∃ kv, kv ∈ cmds ∧ ContainsRune (TrimSpace kv.1) space = true.
Proof.
  induction cmds as [|kv cmds IH] using rev_ind.
  { split; [done|]. intros (kv & Hin & _). by apply elem_of_nil in Hin. }
  rewrite buildTree_snoc. simpl.
  destruct (ContainsRune (TrimSpace kv.1) space) eqn:E.
  - split; [|done]. intros _. exists kv. split; [|done].
    apply elem_of_app. right. apply list_elem_of_here.
  - rewrite IH. split.
    + intros (kv' & Hin & Hs). exists kv'. split; [|done]. apply elem_of_app. by left.
    + intros (kv' & [Hin|Hin]%elem_of_app & Hs); [by exists kv'|].
      apply list_elem_of_singleton in Hin as ->. congruence.
Qed.

(** The registry is nested exactly when the trimmed form of some key of
    [Commands] holds a space; a flat registry holds the caller's entries
    and nothing else. *)
Theorem nested_iff_spaced_key (c : CLI) :
  (commandNested (init c) = true ↔
   ∃ kv, kv ∈ Commands c ∧ ContainsRune (TrimSpace kv.1) space = true)
  ∧ (commandNested (init c) = false →
     commandTree (init c) = (buildTree (Commands c)).1).
Proof.
  rewrite commandNested_init, commandTree_init. split.
  - apply buildTree_nested_iff.
  - unfold_buildRegistry. destruct (buildTree (Commands c)) as [t nested]. simpl.
    by intros ->.
Qed.

End Registry.

(** ** What [Run] does and never does *)

Section Dispatching.

Variable RunResultHelp : Z.
Variable BasicHelpFunc : string → HelpFuncT.
Variable templateMustPanics : string → bool.
Variable templateExecute : string → TemplateData → Rendering.

Import Strings StringFacts RadixFacts ScanFacts ClassifyFacts HelpFacts.

Local Abbreviation init := (init RunResultHelp BasicHelpFunc).
Local Abbreviation initPanics := (initPanics RunResultHelp).
Local Abbreviation commandHelp := (commandHelp templateMustPanics templateExecute).
Local Abbreviation executed := (executed RunResultHelp templateMustPanics templateExecute).
Local Abbreviation Run :=
  (Run RunResultHelp BasicHelpFunc templateMustPanics templateExecute).
Local Abbreviation Run_case :=
  (Run_case RunResultHelp BasicHelpFunc templateMustPanics templateExecute).
Local Abbreviation placeholderFactory := (placeholderFactory RunResultHelp).
Local Abbreviation placeholderCommand := (placeholderCommand RunResultHelp).

(** When the help flag is set, [Run] runs no command and raises no error
    about leading flags, whether it returns or panics; when it returns,
    it returns 0 after showing help, or 127 for a path that is not
    registered, or 1 with the error of a failing factory. *)
Theorem help_flag_runs_no_command (c : CLI) :
  isHelp (dispatch (init c)) = true →
  (∀ command args, EvCommandRun command args ∉ traceOf (Run c))
  ∧ (∀ k text, EvInvalidFlags k text ∉ traceOf (Run c))
  ∧ (∀ r, Run c = Returns r →
       exitCode r = 0%Z
       ∨ exitCode r = 127%Z
       ∨ exitCode r = 1%Z ∧ is_Some (runError r)).
Proof.
  intros Hh.
  destruct (Run_case c) as [| | | | |raw cmd|raw cmd ? ? ? ? Hf|raw cmd ? ? ? ? Hf];
    try congruence.
  all: split; [intros ??; absent_from_help_trace|].
  all: split; [intros ??; absent_from_help_trace|].
  all: intros r Hr; try (injection Hr as <-; simpl; eauto).
  - discriminate Hr.
  - apply afterHelp_Returns in Hr as [_ ->]. by left.
Qed.

(** A command is run only after its factory was found under the
    classified path and built it, with no help flag and no leading flag,
    and it is run on [subcommandArgs]. *)
Theorem command_run_is_resolved (c : CLI) (command : Command.t) (args : list string) :
  let s := init c in
  let d := dispatch s in
  EvCommandRun command args ∈ traceOf (Run c) →
  ∃ raw, Radix.Get (commandTree s) (subcommand d) = Some raw
         ∧ raw () = inl command
         ∧ args = subcommandArgs d
         ∧ topFlags d = []
         ∧ isHelp d = false
         ∧ ¬ (isVersion d = true ∧ Version c ≠ "").
Proof.
  simpl.
  destruct (Run_case c) as [| | | | | | |raw cmd Hp Hnv Hg Hr Hf Ht];
    try (intros Hin; exfalso; revert Hin; absent_from_help_trace).
  intros Hin.
  assert (EvCommandRun command args
          = EvCommandRun cmd (subcommandArgs (dispatch (init c)))) as Heq.
  { revert Hin. unfold_executed. destruct (_ =? _)%Z; intros Hin.
    - rewrite traceOf_afterHelp in Hin. simpl in Hin.
      apply elem_of_cons in Hin as [Hin|Hin]; [discriminate Hin|].
      apply elem_of_cons in Hin as [Hin|Hin]; [done|].
      apply commandHelp_kind in Hin. inversion Hin.
    - simpl in Hin.
      apply elem_of_cons in Hin as [Hin|Hin]; [discriminate Hin|].
      apply elem_of_cons in Hin as [Hin|Hin]; [done|].
      by apply elem_of_nil in Hin. }
  injection Heq as -> ->. by exists raw.
Qed.

(** [Run] never hands the sentinel on as an exit code: unless
    [RunResultHelp] is itself 0, 1 or 127, no call of [Run] returns it. *)
Theorem sentinel_is_never_the_exit_code (c : CLI) (r : RunResult) :
  RunResultHelp ≠ 0%Z → RunResultHelp ≠ 1%Z → RunResultHelp ≠ 127%Z →
  Run c = Returns r →
  exitCode r ≠ RunResultHelp.
Proof.
  intros H0 H1 H127.
  destruct (Run_case c) as [| | | | |raw cmd|raw cmd|raw cmd]; intros Hr;
    try (injection Hr as <-; simpl; congruence);
    try (apply afterHelp_Returns in Hr as [_ ->]; simpl; congruence).
  - discriminate Hr.
  - revert Hr. unfold_executed.
    destruct (Z.eqb_spec (Command.Run cmd (subcommandArgs (dispatch (init c))))
                RunResultHelp); intros Hr.
    + apply afterHelp_Returns in Hr as [_ ->]. simpl. congruence.
    + injection Hr as <-. done.
Qed.

(** When [Run] returns an error value, the exit code is 1, the factory of
    the classified path was called and failed with that error, and
    nothing was written to either writer. *)
Theorem construction_error_writes_nothing (c : CLI) (r : RunResult) (err : string) :
  let s := init c in
  let d := dispatch s in
  Run c = Returns r →
  runError r = Some err →
  exitCode r = 1%Z
  ∧ trace r = [EvFactory (subcommand d)]
  ∧ ∃ raw, Radix.Get (commandTree s) (subcommand d) = Some raw ∧ raw () = inr err.
Proof.
  simpl.
  destruct (Run_case c) as [| | | |raw err' Hp Hnv Hnh Hg Hr|raw cmd|raw cmd|raw cmd];
    intros Hret;
    try (injection Hret as <-; simpl; try done);
    try (apply afterHelp_Returns in Hret as [_ ->]; simpl; done).
  - discriminate Hret.
  - intros [= ->]. split; [done|]. split; [done|]. by exists raw.
  - revert Hret. unfold_executed. destruct (_ =? _)%Z; intros Hret.
    + by apply afterHelp_Returns in Hret as [_ ->].
    + by injection Hret as <-.
Qed.




(** An automatically created parent only ever asks for help: when the
    classified path is bound to the placeholder, a call of [Run] that
    returns gives 0 or 1 without an error value, and the only command
    [Run] can run is the placeholder; its run returns the sentinel, so
    that [Run] goes on with [commandHelp] for the error writer and
    returns 1 when that returns. *)
Theorem placeholder_only_shows_help (c : CLI) :
  let s := init c in
  let d := dispatch s in
  Radix.Get (commandTree s) (subcommand d) = Some placeholderFactory →
  (∀ r, Run c = Returns r →
     (exitCode r = 0%Z ∨ exitCode r = 1%Z) ∧ runError r = None)
  ∧ (∀ command args, EvCommandRun command args ∈ traceOf (Run c) →
       command = placeholderCommand
       ∧ Run c = afterHelp [EvFactory (subcommand d);
                            EvCommandRun placeholderCommand args]
                   (commandHelp c s ToErrorWriter placeholderCommand) 1).
Proof.
  simpl. intros Hg.
  destruct (Run_case c)
    as [| | |Hp Hnv Hnh Hg'|raw err Hp Hnv Hnh Hg' Hr
        |raw cmd Hp Hnv Hg' Hr|raw cmd Hp Hnv Hg' Hr|raw cmd Hp Hnv Hg' Hr];
    try congruence.
  all: try (rewrite Hg in Hg'; injection Hg' as <-; injection Hr as <-).
  all: try (split; [intros r Hret|intros ??; absent_from_help_trace]).
  all: try (injection Hret as <-; simpl; split; [by left|done]).
  all: try (apply afterHelp_Returns in Hret as [_ ->]; simpl; split; (done || auto)).
  - discriminate Hret.
  - rewrite Hg in Hg'. injection Hg' as <-. discriminate Hr.
  - unfold_executed. simpl. rewrite Z.eqb_refl. split.
    + intros r [_ ->]%afterHelp_Returns. simpl. split; (done || auto).
    + intros command args Hin. rewrite traceOf_afterHelp in Hin. simpl in Hin.
      apply elem_of_cons in Hin as [Hin|Hin]; [discriminate Hin|].
      apply elem_of_cons in Hin as [Hin|Hin].
      * by injection Hin as -> ->.
      * apply commandHelp_kind in Hin. inversion Hin.
Qed.

End Dispatching.

(** ** From the argument vector to the exit code *)

Section EndToEnd.

Variable RunResultHelp : Z.
Variable BasicHelpFunc : string → HelpFuncT.
Variable templateMustPanics : string → bool.
Variable templateExecute : string → TemplateData → Rendering.

Import Strings StringFacts RadixFacts ScanFacts ClassifyFacts PathFacts HelpFacts.

Local Abbreviation init := (init RunResultHelp BasicHelpFunc).
Local Abbreviation initPanics := (initPanics RunResultHelp).
Local Abbreviation commandHelp := (commandHelp templateMustPanics templateExecute).
Local Abbreviation executed := (executed RunResultHelp templateMustPanics templateExecute).
Local Abbreviation Run :=
  (Run RunResultHelp BasicHelpFunc templateMustPanics templateExecute).
Local Abbreviation Run_case :=
  (Run_case RunResultHelp BasicHelpFunc templateMustPanics templateExecute).

Lemma blank_tokens_absorbed (pre : list string) :
  Forall (λ a, a = "") pre →
  Forall (λ a, a ≠ "--" ∧ startsWithoutDash a = false) pre
  ∧ List.filter isLeadingFlag pre = []
  ∧ existsb isHelpFlag pre = false
  ∧ existsb isVersionFlag pre = false.
Proof.
  induction 1 as [|a pre -> _ (IH1 & IH2 & IH3 & IH4)]; [done|].
  split; [by constructor|]. by simpl.
Qed.

(** Under a flat registry [commandHelp] lists no subcommand: its loop
    calls no factory and cannot panic. *)
Lemma commandHelp_flat (s : Initialized) :
  commandNested s = false →
  commandHelpCalls s = [] ∧ commandHelpSubcommands s = Some [].
Proof. intros H. unfold commandHelpCalls, commandHelpSubcommands. by rewrite H. Qed.

(** Under a flat registry, when the first argument that is not blank is a
    registered command name and no help flag follows before a ["--"],
    [Run] builds that command and runs it on everything after the name
    (lines 183-190: it returns the result of the command, or calls
    [commandHelp] for the error writer and returns 1 when the result is
    the sentinel); the loop of [commandHelp] over the subcommands does
    nothing. *)
Theorem flat_command_is_run (c : CLI) (pre : list string) (tok : string)
    (post : list string) (raw : CommandFactory) (command : Command.t) :
  commandNested (init c) = false →
  Args c = pre ++ tok :: post →
  Forall (λ a, a = "") pre →
  startsWithoutDash tok = true →
  existsb isHelpFlag (beforeDashDash post) = false →
  Radix.Get (commandTree (init c)) tok = Some raw →
  raw () = inl command →
  Run c = executed c (init c) tok command post
  ∧ commandHelpCalls (init c) = []
  ∧ commandHelpSubcommands (init c) = Some [].
Proof.
  intros Hflat Hargs Hpre Htok Hhelp Hget Hraw.
  split; [|by apply commandHelp_flat].
  destruct (blank_tokens_absorbed pre Hpre) as (Hpre' & Hf & Hh & Hv).
  destruct (dispatch_flat RunResultHelp BasicHelpFunc c pre tok post
              Hflat Hargs Hpre' Htok) as [Hnp Hd].
  rewrite Hf, Hh, Hv, Hhelp in Hd. simpl in Hd.
  destruct (startsWithoutDash_nonempty _ Htok) as (Hne & _).
  destruct (Run_case c)
    as [|Hp Hiv|Hp Hnv Hih Hs|Hp Hnv Hnh Hg|raw' err Hp Hnv Hnh Hg Hr
        |raw' cmd Hp Hnv Hg Hr Hih|raw' cmd Hp Hnv Hg Hr Hih Ht
        |raw' cmd Hp Hnv Hg Hr Hih Ht];
    rewrite ?Hd in *; simpl in *; congruence.
Qed.

(** Under a flat registry, when the first argument that is not blank is
    not a registered name (and holds no space), and no help flag follows
    before a ["--"], [Run] writes the listing of the root to the error
    writer and returns 127. *)
Theorem flat_unknown_command_is_127 (c : CLI) (pre : list string) (tok : string)
    (post : list string) :
  let s := init c in
  commandNested s = false →
  Args c = pre ++ tok :: post →
  Forall (λ a, a = "") pre →
  startsWithoutDash tok = true →
  ContainsRune tok space = false →
  existsb isHelpFlag (beforeDashDash post) = false →
  Radix.Get (commandTree s) tok = None →
  Run c = Returns {| exitCode := 127; runError := None;
                     trace := [EvHelpFunc ToErrorWriter (helpCommands s "")
                                 (helpFunc s (helpCommands s "") +:+ newline)] |}.
Proof.
  simpl. intros Hflat Hargs Hpre Htok Hsp Hhelp Hget.
  destruct (blank_tokens_absorbed pre Hpre) as (Hpre' & Hf & Hh & Hv).
  destruct (dispatch_flat RunResultHelp BasicHelpFunc c pre tok post
              Hflat Hargs Hpre' Htok) as [Hnp Hd].
  rewrite Hf, Hh, Hv, Hhelp in Hd. simpl in Hd.
  destruct (Run_case c)
    as [|Hp Hiv|Hp Hnv Hih Hs|Hp Hnv Hnh Hg|raw' err Hp Hnv Hnh Hg Hr
        |raw' cmd Hp Hnv Hg Hr Hih|raw' cmd Hp Hnv Hg Hr Hih Ht
        |raw' cmd Hp Hnv Hg Hr Hih Ht];
    rewrite ?Hd in *; simpl in *; try congruence.
  by rewrite (subcommandParent_top tok Hsp).
Qed.

Lemma scanLoop_isVersion_mono args tree nested i rest d :
  isVersion d = true → isVersion (scanLoop args tree nested i rest d).1 = true.
Proof.
  revert i d. induction rest as [|arg rest IH]; intros i d Hv; simpl; [done|].
  pose proof (scanStep_case args tree nested i arg d) as Hc.
  destruct (scanStep args tree nested i arg d) as [fl d']. simpl in Hc.
  assert (isVersion d' = true) as Hv' by (inversion Hc; subst; done).
  destruct fl; simpl; [by apply IH|done|done|done].
Qed.

(** With a version configured, a version flag that comes before any
    command name and any ["--"] makes [Run] write the version to the help
    writer and return 0, whatever else the arguments and the registry
    hold, provided the classification of the arguments that follow does
    not panic. *)
Theorem version_flag_wins (c : CLI) (pre : list string) (v : string)
    (post : list string) :
  Args c = pre ++ v :: post →
  Forall (λ a, a ≠ "--" ∧ startsWithoutDash a = false) pre →
  isVersionFlag v = true →
  Version c ≠ "" →
  initPanics c = false →
  Run c = Returns {| exitCode := 0; runError := None;
                     trace := [EvWriteVersion ToHelpWriter (Version c +:+ newline)] |}.
Proof.
  intros Hargs Hpre Hv Hver Hnp.
  assert (isVersion (dispatch (init c)) = true) as Hset.
  { rewrite init_dispatch.
    destruct (processArgs_flags c (commandTree (init c)) (commandNested (init c))
                zeroDispatch) as [_ ->].
    unfold scanArgs. rewrite Hargs at 2.
    rewrite (cons_middle v pre post), app_assoc.
    rewrite scanLoop_leading; [| done |].
    - apply scanLoop_isVersion_mono. simpl.
      rewrite existsb_app. simpl. by rewrite Hv, orb_true_r.
    - apply Forall_app. split; [done|]. constructor; [|done].
      pose proof (isVersionFlag_startsWithDash _ Hv) as Hd.
      split; [|by apply startsWithDash_not_without].
      intros ->. done. }
  destruct (Run_case c); try done; try tauto; congruence.
Qed.

(** When no argument before the first ["--"] names a command and one of
    them is a help flag, [Run] writes the help of the root to the help
    writer and returns 0, with or without a default command, unless a
    version flag with a configured version takes over. *)
Theorem help_without_command_shows_root (c : CLI) (pre rest : list string) :
  let s := init c in
  Args c = pre ++ rest →
  rest = [] ∨ (∃ post, rest = "--" :: post) →
  Forall (λ a, a ≠ "--" ∧ startsWithoutDash a = false) pre →
  existsb isHelpFlag pre = true →
  existsb isVersionFlag pre = false ∨ Version c = "" →
  Run c = Returns {| exitCode := 0; runError := None;
                     trace := [EvHelpFunc ToHelpWriter (helpCommands s "")
                                 (helpFunc s (helpCommands s "") +:+ newline)] |}.
Proof.
  simpl. intros Hargs Hrest Hpre Hh Hv.
  destruct (dispatch_no_command RunResultHelp BasicHelpFunc c pre rest
              Hargs Hrest Hpre) as [Hnp Hd].
  assert (subcommand (dispatch (init c)) = ""
          ∧ isHelp (dispatch (init c)) = true
          ∧ isVersion (dispatch (init c)) = existsb isVersionFlag pre)
    as (Hs & Hi & Hiv).
  { rewrite Hd. by destruct (hasDefaultCommand (Commands c)). }
  destruct (Run_case c)
    as [|Hp Hiv' Hne|Hp Hnv Hih Hs'|Hp Hnv Hnh Hg|raw' err Hp Hnv Hnh Hg Hr
        |raw' cmd Hp Hnv Hg Hr Hih|raw' cmd Hp Hnv Hg Hr Hih Ht
        |raw' cmd Hp Hnv Hg Hr Hih Ht];
    try congruence; try tauto.
  destruct Hv as [Hv|Hv]; congruence.
Qed.


End EndToEnd.

(** ** The data [commandHelp] hands to its template *)

Section HelpData.

Import Strings StringFacts PathFacts.

Local Arguments String.append : simpl nomatch.

Lemma length_repeatSpace (n : nat) : String.length (repeatSpace n) = n.
Proof. induction n as [|n IH]; simpl; [done|]. by rewrite IH. Qed.

Lemma longestKey_fold_ge (keys : list string) (m : nat) :
  let f := λ longest k, if longest <? String.length k then String.length k else longest in
  m ≤ foldl f m keys ∧ ∀ k, k ∈ keys → String.length k ≤ foldl f m keys.
Proof.
  simpl. revert m. induction keys as [|k keys IH]; intros m; simpl.
  { split; [done|]. intros k Hk. by apply elem_of_nil in Hk. }
  destruct (IH (if m <? String.length k then String.length k else m)) as [Hm Hall].
  destruct (Nat.ltb_spec m (String.length k)); split; try lia.
  - intros k' [->|Hin]%elem_of_cons; [done|by apply Hall].
  - intros k' [->|Hin]%elem_of_cons; [lia|by apply Hall].
Qed.

Lemma longestKey_ge (keys : list string) (k : string) :
  k ∈ keys → String.length k ≤ longestKey keys.
Proof. apply (longestKey_fold_ge keys 0). Qed.

(** The walked prefix is empty or ends in a space. *)
Lemma listingPrefix_form (p : string) :
  listingPrefix p = "" ∨ ∃ p0, listingPrefix p = p0 +:+ " ".
Proof.
  unfold listingPrefix. destruct (lacksFinalSpace p) eqn:E; [right; by exists p|].
  unfold lacksFinalSpace in E. destruct (reverse p) as [|a r] eqn:Er.
  - left. by apply reverse_empty_inv.
  - right. apply negb_false_iff, Ascii.eqb_eq in E. subst a.
    exists (reverse r). rewrite <- (reverse_involutive p), Er.
    by rewrite reverse_cons.
Qed.

Lemma lastSegment_listed (p seg : string) :
  ContainsRune seg space = false →
  lastSegment (listingPrefix p +:+ seg) = seg.
Proof.
  intros Hseg. unfold lastSegment.
  destruct (listingPrefix_form p) as [->|[p0 ->]].
  - simpl. apply LastIndex_None_ContainsRune in Hseg. by rewrite Hseg.
  - rewrite append_assoc. change (" " +:+ seg) with (String space seg).
    rewrite LastIndex_join by done.
    replace (String.length p0 + 1) with (String.length (p0 +:+ " ")).
    + change (String space seg) with (" " +:+ seg).
      rewrite <- append_assoc. apply sliceFrom_append.
    + rewrite length_append. simpl. lia.
Qed.

Lemma sortStrings_elem (keys : list string) (k : string) :
  k ∈ sortStrings keys ↔ k ∈ keys.
Proof. unfold sortStrings. by rewrite merge_sort_Permutation. Qed.

Lemma listed_keys (m : gmap string CommandFactory) (k : string) :
  k ∈ sortStrings (map fst (map_to_list m)) ↔ is_Some (m !! k).
Proof.
  rewrite sortStrings_elem. split.
  - intros ([k' f] & -> & Hin%elem_of_map_to_list)%list_elem_of_fmap. by exists f.
  - intros [f Hf]. apply list_elem_of_fmap. exists (k, f).
    split; [done|]. by apply elem_of_map_to_list.
Qed.

Lemma subcommandData_Some (subcommands : gmap string CommandFactory) (longest : nat)
    (keys : list string) (entries : list SubcommandData) :
  subcommandData subcommands longest keys = Some entries →
  Forall2 (λ k e, ∃ raw sub, subcommands !! k = Some raw ∧ raw () = inl sub
                             ∧ e = entryFor longest k sub) keys entries.
Proof.
  revert entries. induction keys as [|k keys IH]; intros entries; cbn [subcommandData].
  { intros [= <-]. constructor. }
  destruct (subcommands !! k) as [raw|] eqn:Ek; [|done].
  destruct (raw ()) as [sub|err] eqn:Er; [|done].
  destruct (subcommandData subcommands longest keys) as [es|]; [|done].
  intros [= <-]. constructor; [|by apply IH]. by exists raw, sub.
Qed.

Lemma subcommandData_None (subcommands : gmap string CommandFactory) (longest : nat)
    (keys : list string) :
  subcommandData subcommands longest keys = None ↔
  ∃ k, k ∈ keys
       ∧ (subcommands !! k = None
          ∨ ∃ raw err, subcommands !! k = Some raw ∧ raw () = inr err).
Proof.
  induction keys as [|k keys IH]; cbn [subcommandData]; unfold CommandFactory in *.
  { split; [done|]. intros (k & Hk & _). by apply elem_of_nil in Hk. }
  destruct (subcommands !! k) as [raw|] eqn:Ek; cbv beta iota.
  2: { split; [|done]. intros _. exists k. split; [apply list_elem_of_here|by left]. }
  destruct (raw ()) as [sub|err] eqn:Er; cbv beta iota.
  2: { split; [|done]. intros _. exists k. split; [apply list_elem_of_here|].
       right. by exists raw, err. }
  destruct (subcommandData subcommands longest keys) as [es|]; cbv beta iota.
  - split; [intros H; discriminate H|].
    intros (k' & [->|Hin]%elem_of_cons & Hbad).
    + destruct Hbad as [Hn|(raw' & err & Hr & He)].
      * rewrite Ek in Hn. discriminate Hn.
      * rewrite Ek in Hr. injection Hr as <-. rewrite Er in He. discriminate He.
    + assert (Some es = None) as Hn by (apply IH; by exists k').
      discriminate Hn.
  - split; [|done]. intros _. destruct (proj1 IH eq_refl) as (k' & Hin & Hbad).
    exists k'. split; [by apply list_elem_of_further|done].
Qed.

Lemma Forall2_elem_r {A B} (P : A → B → Prop) (l : list A) (k : list B) (y : B) :
  Forall2 P l k → y ∈ k → ∃ x, x ∈ l ∧ P x y.
Proof.
  intros HF (i & Hi)%list_elem_of_lookup_1.
  destruct (Forall2_lookup_r _ _ _ _ _ HF Hi) as (x & Hx & HP).
  exists x. split; [by eapply list_elem_of_lookup_2|done].
Qed.

(** What the loop of [commandHelp] makes of a listed key. *)
Lemma listed_entry (s : Initialized) (prefix k : string) (raw : CommandFactory) :
  helpCommands s prefix !! k = Some raw →
  ∃ seg, k = listingPrefix prefix +:+ seg
         ∧ ContainsRune seg space = false
         ∧ lastSegment k = seg.
Proof.
  intros (_ & _ & seg & -> & Hseg)%helpCommands_lookup.
  exists seg. split; [done|]. split; [done|]. by apply lastSegment_listed.
Qed.

(** The names in the help of a command are padded to one width: every
    [NameAligned] is the last segment of its key followed by spaces, the
    segment holds no space, and all of them have the same length. *)
Theorem aligned_names_share_width (s : Initialized) (entries : list SubcommandData) :
  commandHelpSubcommands s = Some entries →
  ∃ width, ∀ e, e ∈ entries →
    String.length (dataNameAligned e) = width
    ∧ String.length (dataName e) ≤ width
    ∧ ContainsRune (dataName e) space = false
    ∧ HasPrefix (dataNameAligned e) (dataName e) = true.
Proof.
  unfold commandHelpSubcommands. destruct (commandNested s).
  2: { intros [= <-]. exists 0. intros e He. by apply elem_of_nil in He. }
  set (listed := helpCommands s (subcommand (dispatch s))).
  set (keys := sortStrings (map fst (map_to_list listed))).
  intros HF%subcommandData_Some.
  exists (longestKey keys - String.length (listingPrefix (subcommand (dispatch s)))).
  intros e He.
  destruct (Forall2_elem_r _ _ _ _ HF He) as (k & Hk & raw & sub & Hraw & _ & ->).
  destruct (listed_entry _ _ _ _ Hraw) as (seg & Heq & Hseg & Hlast).
  apply longestKey_ge in Hk. simpl. rewrite Hlast.
  rewrite length_append, length_repeatSpace.
  rewrite Heq, length_append in Hk |- *.
  split; [lia|]. split; [lia|]. split; [done|]. apply HasPrefix_append.
Qed.

(** The help of a command has exactly one element for each listed
    command: the keys of the elements are in ascending order, none is
    repeated, they are the listed keys, and each element has the help
    text and the synopsis of the command its factory builds. *)
Theorem help_entries_are_the_listed_commands (s : Initialized)
    (entries : list SubcommandData) :
  let prefix := listingPrefix (subcommand (dispatch s)) in
  let listed := helpCommands s (subcommand (dispatch s)) in
  commandNested s = true →
  commandHelpSubcommands s = Some entries →
  Sorted String.le (map (λ e, prefix +:+ dataName e) entries)
  ∧ NoDup (map (λ e, prefix +:+ dataName e) entries)
  ∧ length entries = size listed
  ∧ (∀ k, k ∈ map (λ e, prefix +:+ dataName e) entries ↔ is_Some (listed !! k))
  ∧ (∀ e, e ∈ entries →
       ∃ raw sub, listed !! (prefix +:+ dataName e) = Some raw
                  ∧ raw () = inl sub
                  ∧ dataHelp e = Command.Help sub
                  ∧ dataSynopsis e = Command.Synopsis sub).
Proof.
  simpl. unfold commandHelpSubcommands. intros ->.
  set (listed := helpCommands s (subcommand (dispatch s))).
  set (keys := sortStrings (map fst (map_to_list listed))).
  set (prefix := listingPrefix (subcommand (dispatch s))).
  intros HF%subcommandData_Some.
  assert (map (λ e, prefix +:+ dataName e) entries = keys) as Hkeys.
  { clearbody keys. clear -HF.
    induction HF as [|k e ks es (raw & sub & Hraw & _ & ->) HF IH]; [done|].
    simpl. f_equal; [|done].
    destruct (listed_entry _ _ _ _ Hraw) as (seg & Heq & _ & ->). done. }
  split; [|split; [|split; [|split]]].
  - rewrite Hkeys. apply Sorted_merge_sort. apply _.
  - rewrite Hkeys. unfold keys, sortStrings. rewrite merge_sort_Permutation.
    apply NoDup_fst_map_to_list.
  - rewrite <- (length_map (λ e, prefix +:+ dataName e)), Hkeys.
    unfold keys, sortStrings. rewrite merge_sort_Permutation.
    by rewrite length_map, length_map_to_list.
  - intros k. rewrite Hkeys. apply listed_keys.
  - intros e He.
    destruct (Forall2_elem_r _ _ _ _ HF He) as (k & Hk & raw & sub & Hraw & Hsub & ->).
    exists raw, sub. simpl.
    destruct (listed_entry _ _ _ _ Hraw) as (seg & Heq & _ & ->).
    fold prefix in Heq. by rewrite <- Heq.
Qed.

(** Building the help of a command panics exactly when the registry is
    nested and the factory of one of the listed commands fails. *)
Theorem help_data_panics_iff (s : Initialized) :
  commandHelpSubcommands s = None ↔
  commandNested s = true
  ∧ ∃ k raw err, helpCommands s (subcommand (dispatch s)) !! k = Some raw
                 ∧ raw () = inr err.
Proof.
  unfold commandHelpSubcommands. destruct (commandNested s).
  2: { split; [done|]. by intros [? _]. }
  rewrite subcommandData_None. split.
  - intros (k & Hk & [Hn|(raw & err & Hr & He)]).
    + apply listed_keys in Hk as [f Hf]. congruence.
    + split; [done|]. by exists k, raw, err.
  - intros (_ & k & raw & err & Hr & He). exists k. split.
    + apply listed_keys. by exists raw.
    + right. by exists raw, err.
Qed.

(** The template text handed to the parser always ends in a newline, and
    a command's own template that already does is taken as it is. *)
Theorem help_template_ends_in_newline (command : Command.t) :
  HasSuffix (helpTemplateText command) newline = true
  ∧ (∀ t, Command.HelpTemplate command = Some t → HasSuffix t newline = true →
          helpTemplateText command = t).
Proof.
  unfold helpTemplateText. split.
  - set (tpl := match Command.HelpTemplate command with
                | Some t => t
                | None => TrimSpace defaultHelpTemplate
                end).
    destruct (HasSuffix tpl newline) eqn:E; [done|].
    unfold HasSuffix. rewrite reverse_append. apply HasPrefix_append.
  - intros t -> Ht. by rewrite Ht.
Qed.

End HelpData.

(** ** The properties at sample invocations *)

Import Samples.

Example TrimSpace_foo : Strings.TrimSpace " foo " = "foo".
Proof. reflexivity. Qed.

Example Join_three : Strings.Join ["foo"; "bar"; "baz"] " " = "foo bar baz".
Proof. reflexivity. Qed.

Example LastIndex_two_spaces :
  Strings.LastIndex "foo bar baz" Strings.space = Some 7.
Proof. reflexivity. Qed.

(** [TestCLIRun]: a flat registry hands the command everything after its
    name. *)
Example flat_dispatch :
  subcommand (dispatch (initOf (cliOf "" ["foo"; "-bar"; "-baz"] onlyFoo))) = "foo"
  ∧ subcommandArgs (dispatch (initOf (cliOf "" ["foo"; "-bar"; "-baz"] onlyFoo)))
    = ["-bar"; "-baz"]
  ∧ exitOf (runOf (cliOf "" ["foo"; "-bar"; "-baz"] onlyFoo)) = Some 11%Z.
Proof. vm_compute. done. Qed.

(** [TestCLIRun_nested]: the longest registered path is taken. *)
Example nested_dispatch :
  subcommand (dispatch (initOf (cliOf "" ["foo"; "bar"; "-bar"; "-baz"] fooAndFooBar)))
  = "foo bar"
  ∧ subcommandArgs (dispatch (initOf (cliOf "" ["foo"; "bar"; "-bar"; "-baz"] fooAndFooBar)))
    = ["-bar"; "-baz"]
  ∧ exitOf (runOf (cliOf "" ["foo"; "bar"; "-bar"; "-baz"] fooAndFooBar)) = Some 22%Z.
Proof. vm_compute. done. Qed.

(** [TestCLIRun_nestedMissingParent]: the placeholder of ["foo"] asks for
    help, and [Run] returns 1. *)
Example missing_parent_dispatch :
  exitOf (runOf (cliOf "" ["foo"] onlyFooBar)) = Some 1%Z.
Proof. vm_compute. done. Qed.

(** [TestCLIRun_nestedBlankArg]: a blank argument ends the path and is
    handed to the command. *)
Example nested_blank_argument :
  subcommand (dispatch (initOf (cliOf "" ["foo"; ""; "bar"; "-baz"] fooAndFooBar))) = "foo"
  ∧ subcommandArgs (dispatch (initOf (cliOf "" ["foo"; ""; "bar"; "-baz"] fooAndFooBar)))
    = [""; "bar"; "-baz"].
Proof. vm_compute. done. Qed.

(** [TestCLIRun_nestedQuotedCommand] and [TestCLIRun_nestedQuotedArg]. *)
Example nested_quoted :
  exitOf (runOf (cliOf "" ["foo bar"] fooAndFooBar)) = Some 127%Z
  ∧ subcommand (dispatch (initOf (cliOf "" ["foo"; "bar baz"] fooAndFooBar))) = "foo"
  ∧ subcommandArgs (dispatch (initOf (cliOf "" ["foo"; "bar baz"] fooAndFooBar)))
    = ["bar baz"].
Proof. vm_compute. done. Qed.

(** [TestCLIRun_default]: the default command receives the leading
    flags. *)
Example default_dispatch :
  runOf (cliOf "" ["-bar"; "-baz"] defaultAndFoo)
  = Returns {| exitCode := 42; runError := None;
               trace := [EvFactory "";
                         EvCommandRun (commandReturning 42) ["-bar"; "-baz"]] |}.
Proof. vm_compute. done. Qed.

(** [TestCLIRun_subcommandSuffix]. *)
Example subcommand_suffix :
  exitOf (runOf (cliOf "" ["fooasdf"; "-o=foo"] fooAndFooBar)) = Some 127%Z.
Proof. vm_compute. done. Qed.

(** The decoder on U+00E9 (C3 A9), U+20AC (E2 82 AC), U+1F600
    (F0 9F 98 80), on the overlong C0 80, on the surrogate ED A0 80 and on
    a sequence cut short. *)
Example runes_table :
  map (λ l, (Utf8.runes (bytes l), Utf8.ValidString (bytes l)))
      [[195; 169]; [226; 130; 172]; [240; 159; 152; 128];
       [192; 128]; [237; 160; 128]; [226; 130]]
  = [([233%N], true); ([8364%N], true); ([128512%N], true);
     ([65533%N; 65533%N], false); ([65533%N; 65533%N; 65533%N], false);
     ([65533%N; 65533%N], false)].
Proof. vm_compute. done. Qed.

(** The engine reads an invalid byte of the text as U+FFFD: the key
    U+FFFD (EF BF BD) is found in a text that ends with the byte FF,
    where its bytes do not occur at a boundary. *)
Example invalid_byte_read_as_RuneError :
  reVerifyMatchString (bytes [239; 191; 189]) (bytes [239; 191; 189; 120; 32; 255]) = true
  ∧ matchesHere (bytes [239; 191; 189]) (bytes [239; 191; 189; 120; 32; 255]) = false.
Proof. vm_compute. done. Qed.

(** A registry key that is not valid UTF-8 makes [regexp.MustCompile]
    panic when a token meets it: [init] panics, and [Run] with it, before
    the version is written. *)
Example invalid_key_panics :
  Utf8.ValidString badKey = false
  ∧ initPanics sentinel (cliOf "1.0" ["-v"; badToken] [(badKey, factoryOf 1)]) = true
  ∧ runOf (cliOf "1.0" ["-v"; badToken] [(badKey, factoryOf 1)]) = Panics [].
Proof. vm_compute. done. Qed.

(** [commandHelp] panics when the factory of a listed subcommand fails:
    it has called the factories of ["foo"] (from [Run]) and of
    ["foo bad"], and written its diagnostic. *)
Example help_of_failing_subcommand_panics :
  runOf (cliOf "" ["-h"; "foo"] fooAndFooBad)
  = Panics [EvFactory "foo"; EvFactory "foo bad";
            EvHelpError (InstantiateError "foo bad" "construction failed")].
Proof. vm_compute. done. Qed.

(** An error of the template's execution is written to the error writer,
    and [Run] still returns the 0 of a help request. *)
Example help_with_failing_template :
  Run sentinel basicHelp parsesAll failsAll (cliOf "" ["foo"; "-h"] onlyFoo)
  = Returns {| exitCode := 0; runError := None;
               trace := [EvFactory "foo";
                         EvCommandHelp ToHelpWriter (commandReturning 11);
                         EvHelpError (RenderError "execution failed")] |}.
Proof. vm_compute. done. Qed.

(** The table of [TestCLISubcommand_nested]. *)
Example subcommand_nested_table :
  map (λ args, subcommand (dispatch (initOf (cliOf "" args onlyFooBar))))
      [["bar"]; ["foo"; "-h"]; ["-h"; "bar"]; ["foo"; "bar"; "-h"];
       ["foo"; "bar"; "baz"; "-h"]; ["foo"; "bar"; "-h"; "baz"]; ["-h"; "foo"; "bar"]]
  = ["bar"; "foo"; "bar"; "foo bar"; "foo bar"; "foo bar"; "foo bar"].
Proof. vm_compute. done. Qed.

(** Rows of [TestCLIIsHelp] and [TestCLIIsVersion]. *)
Example help_and_version_table :
  map (λ args, isHelp (dispatch (initOf (cliOf "" args []))))
      [["-h"]; ["-h"; "foo"]; ["foo"; "bar"]; ["-v"; "bar"]; ["foo"; "-help"];
       ["foo"; "bar"; "--help"]; ["foo"; "bar"; "--"; "zip"; "-h"]]
  = [true; true; false; false; true; true; false]
  ∧ map (λ args, isVersion (dispatch (initOf (cliOf "" args []))))
        [["--"; "-v"]; ["-v"]; ["--version"]; ["-v"; "foo"]; ["-h"; "bar"];
         ["foo"; "-v"]; ["foo"; "--version"]]
    = [false; true; true; true; false; false; false].
Proof. vm_compute. done. Qed.

(** Without configured writers both sinks are the standard error. *)
Example sinks_default :
  sinkWriter (initOf (cliOf "" [] [])) ToHelpWriter = osStderr
  ∧ sinkWriter (initOf (cliOf "" [] [])) ToErrorWriter = osStderr.
Proof. vm_compute. done. Qed.

(** C1: with the registry [{"foo": F1, "foo bar": F2}] the input
    [["foobar"]] is answered by 127, as the claim says; but on the input
    [["foobar"; "foo"]] the candidate is ["foobar foo"], its longest
    registered prefix ["foo"] is followed by ["b"], not by a space or the
    end, and the match is accepted all the same, because the pattern finds
    the ["foo"] at the end of the candidate: the path becomes ["foo"], a
    part of the first token, and [F1] is run. *)
Theorem C1_partial_segment_accepted :
  exitOf (runOf (cliOf "" ["foobar"] fooAndFooBar)) = Some 127%Z
  ∧ searchKeyAt ["foobar"; "foo"] 0 = "foobar foo"
  ∧ fst <$> Radix.LongestPrefix
              (commandTree (initOf (cliOf "" ["foobar"; "foo"] fooAndFooBar)))
              "foobar foo" = Some "foo"
  ∧ matchesHere "foo" "foobar foo" = false
  ∧ reVerifyMatchString "foo" "foobar foo" = true
  ∧ subcommand (dispatch (initOf (cliOf "" ["foobar"; "foo"] fooAndFooBar))) = "foo"
  ∧ subcommandArgs (dispatch (initOf (cliOf "" ["foobar"; "foo"] fooAndFooBar))) = ["foo"]
  ∧ runOf (cliOf "" ["foobar"; "foo"] fooAndFooBar)
    = Returns {| exitCode := 11; runError := None;
                 trace := [EvFactory "foo";
                           EvCommandRun (commandReturning 11) ["foo"]] |}.
Proof. vm_compute. repeat split. Qed.

(** C2, as stated, fails: when the factory of the resolved command
    returns an error, [Run] returns 1 with that error and none of the five
    outcomes occurs; and when [commandHelp] panics, as it does for the
    help of ["foo"] when the factory of ["foo bad"] fails, [Run] does not
    return and has shown nothing. *)
Lemma C2_counterexample :
  (∃ r, runOf (cliOf "" ["foo"] [("foo", failingFactory)]) = Returns r
        ∧ r = {| exitCode := 1; runError := Some "construction failed";
                 trace := [EvFactory "foo"] |}
        ∧ occurs VersionShown r = false
        ∧ occurs HelpShown r = false
        ∧ occurs CommandDispatched r = false
        ∧ occurs Unresolved127 r = false
        ∧ occurs LeadingFlagError r = false)
  ∧ runOf (cliOf "" ["-h"; "foo"] fooAndFooBad)
    = Panics [EvFactory "foo"; EvFactory "foo bad";
              EvHelpError (InstantiateError "foo bad" "construction failed")].
Proof. split; [eexists; split; [reflexivity|]|]; vm_compute; repeat split. Qed.

(** C3, as stated, fails: with the registry [{"foo": F}] and the input
    [["bar"]] the path is ["bar"], which is neither empty nor a key. *)
Lemma C3_counterexample :
  subcommand (dispatch (initOf (cliOf "" ["bar"] onlyFoo))) = "bar"
  ∧ Radix.Get (commandTree (initOf (cliOf "" ["bar"] onlyFoo))) "bar" = None.
Proof. vm_compute. repeat split. Qed.



(** C8, as stated, fails: with the registry [{"foo bar": F}] and the
    input [["a b"; "-h"]] no ["--"] occurs, the token ["-h"] stands at
    index 1, and the help flag is not set: the scan was left at index 0.
    Under a registry with a key that is not valid UTF-8, the input of the
    byte FF and ["-h"] makes classification panic at index 0, and the
    flag is not set either. *)
Lemma C8_counterexample :
  (Args (cliOf "" ["a b"; "-h"] onlyFooBar) !! 1 = Some "-h"
   ∧ isHelpFlag "-h" = true
   ∧ existsb (String.eqb "--") ["a b"; "-h"] = false
   ∧ isHelp (dispatch (initOf (cliOf "" ["a b"; "-h"] onlyFooBar))) = false
   ∧ (scanArgs (cliOf "" ["a b"; "-h"] onlyFooBar)
        (commandTree (initOf (cliOf "" ["a b"; "-h"] onlyFooBar)))
        (commandNested (initOf (cliOf "" ["a b"; "-h"] onlyFooBar)))
        zeroDispatch).2 = Returned 0)
  ∧ (initPanics sentinel (cliOf "" [badToken; "-h"] [(badKey, factoryOf 1)]) = true
     ∧ isHelp (dispatch (initOf (cliOf "" [badToken; "-h"] [(badKey, factoryOf 1)])))
       = false
     ∧ (scanArgs (cliOf "" [badToken; "-h"] [(badKey, factoryOf 1)])
          (commandTree (initOf (cliOf "" [badToken; "-h"] [(badKey, factoryOf 1)])))
          (commandNested (initOf (cliOf "" [badToken; "-h"] [(badKey, factoryOf 1)])))
          zeroDispatch).2 = Panicked 0).
Proof. vm_compute. repeat split. Qed.


(** C9 at [["foo"; "bar"; "-bar"; "-baz"]] under [{"foo", "foo bar"}]. *)
Lemma C9_witness :
  subcommand (dispatch (initOf (cliOf "" ["foo"; "bar"; "-bar"; "-baz"] fooAndFooBar))) ≠ ""
  ∧ ∃ n, n ≤ length ["foo"; "bar"; "-bar"; "-baz"]
         ∧ subcommandArgs (dispatch (initOf (cliOf "" ["foo"; "bar"; "-bar"; "-baz"] fooAndFooBar)))
           = drop n ["foo"; "bar"; "-bar"; "-baz"].
Proof.
  assert (subcommand (dispatch (initOf (cliOf "" ["foo"; "bar"; "-bar"; "-baz"] fooAndFooBar))) ≠ "")
    as Hne by (vm_compute; discriminate).
  split; [exact Hne|].
  exact (C9_subcommandArgs_is_suffix sentinel basicHelp
           (cliOf "" ["foo"; "bar"; "-bar"; "-baz"] fooAndFooBar) Hne).
Defined.



(** C2 at [["foo"; "-bar"; "-baz"]] under [{"foo": F}]: the command is
    dispatched. *)
Lemma C2_witness :
  ∃ o, ∀ o',
    occurs o' {| exitCode := 11; runError := None;
                 trace := [EvFactory "foo";
                           EvCommandRun (commandReturning 11) ["-bar"; "-baz"]] |}
    = true ↔ o' = o.
Proof.
  apply (C2_exactly_one_outcome sentinel basicHelp parsesAll rendersAll
           (cliOf "" ["foo"; "-bar"; "-baz"] onlyFoo)).
  reflexivity.
Defined.


(** C8 at [["foo"; "-h"]] under [{"foo", "foo bar"}]. *)
Lemma C8_witness :
  isHelp (dispatch (initOf (cliOf "" ["foo"; "-h"] fooAndFooBar))) = true.
Proof.
  apply (proj1 (C8_help_and_version_flags sentinel basicHelp
                  (cliOf "" ["foo"; "-h"] fooAndFooBar)) 1 "-h").
  - reflexivity.
  - reflexivity.
  - intros m Hm. destruct m as [|m]; [discriminate|lia].
  - intros i H. vm_compute in H. discriminate.
  - reflexivity.
Defined.

(** C4 at the registry [{"foo bar baz": F}]: ["foo"] is an ancestor of
    ["foo bar baz"] and is bound to the placeholder. *)
Lemma C4_witness :
  ancestor "foo" "foo bar baz"
  ∧ ((∃ k0 v, (k0, v) ∈ [("foo bar baz", factoryOf 33)]
              ∧ Strings.TrimSpace k0 = "foo"
              ∧ Radix.Get (commandTree (initOf (cliOf "" [] [("foo bar baz", factoryOf 33)])))
                  "foo" = Some v)
     ∨ Radix.Get (commandTree (initOf (cliOf "" [] [("foo bar baz", factoryOf 33)]))) "foo"
       = Some (placeholderFactory sentinel)).
Proof.
  assert (ancestor "foo" "foo bar baz") as Hanc.
  { apply (ancestor_further "foo bar baz" "foo bar" "foo"); [reflexivity|].
    apply ancestor_parent. reflexivity. }
  split; [exact Hanc|].
  apply (C4_ancestors_registered sentinel basicHelp
           (cliOf "" [] [("foo bar baz", factoryOf 33)]) "foo bar baz" "foo");
    [|exact Hanc].
  exists (factoryOf 33). reflexivity.
Defined.


(** The subcommands handed to the help template of ["foo"], as
    [TestCLIRun_printCommandHelpSubcommands] prints them. *)
Example help_subcommands_table :
  namesOf (commandHelpSubcommands (initOf (cliOf "" ["-h"; "foo"] fooFamily)))
  = Some [("banana", "banana", "hi!"); ("bar", "bar   ", "hi!"); ("longer", "longer", "hi!");
          ("zap", "zap   ", "hi!"); ("zip", "zip   ", "hi!")].
Proof. vm_compute. reflexivity. Qed.

(** [TestCLIRun_printCommandHelpSubcommandsNestedTwoLevel]. *)
Example help_subcommands_two_levels :
  namesOf (commandHelpSubcommands (initOf (cliOf "" ["--help"; "L1"] twoLevels)))
  = Some [("L2A", "L2A", "hi!"); ("L2B", "L2B", "hi!")].
Proof. vm_compute. reflexivity. Qed.

(** Hidden subcommands are left out, and the padding follows the keys
    that are left, as in [TestCLIRun_helpHiddenNested]. *)
Example help_subcommands_hidden :
  namesOf (commandHelpSubcommands
             (initOf (hiding ["foo zip"; "foo zap"; "foo banana"; "foo longer longest"]
                        (cliOf "" ["foo"; "--help"] fooFamily))))
  = Some [("bar", "bar   ", "hi!"); ("longer", "longer", "hi!")].
Proof. vm_compute. reflexivity. Qed.

Ltac leading_tokens :=
  repeat first
    [ apply Forall_nil_2
    | apply Forall_cons_2; [split; [discriminate | reflexivity]|] ].

Ltac blank_tokens :=
  repeat first [ apply Forall_nil_2 | apply Forall_cons_2; [reflexivity|] ].

(** The flat scan at [["-x"; "foo"; "a"; "--"; "-h"]] under [{"foo": F}]:
    the help flag after ["--"] is not seen. *)
Lemma flat_classification_witness :
  initPanics sentinel (cliOf "" ["-x"; "foo"; "a"; "--"; "-h"] onlyFoo) = false
  ∧ dispatch (initOf (cliOf "" ["-x"; "foo"; "a"; "--"; "-h"] onlyFoo))
    = {| subcommand := "foo"; subcommandArgs := ["a"; "--"; "-h"];
         topFlags := ["-x"]; isHelp := false; isVersion := false |}.
Proof.
  apply (flat_classification sentinel basicHelp
           (cliOf "" ["-x"; "foo"; "a"; "--"; "-h"] onlyFoo) ["-x"] "foo" ["a"; "--"; "-h"]).
  - reflexivity.
  - reflexivity.
  - leading_tokens.
  - reflexivity.
Defined.


(** The nested scan at [["foo"; "bar"; "baz"; "-h"]] under
    [{"foo", "foo bar"}]. *)
Lemma nested_classification_witness :
  initPanics sentinel (cliOf "" ["foo"; "bar"; "baz"; "-h"] fooAndFooBar) = false
  ∧ dispatch (initOf (cliOf "" ["foo"; "bar"; "baz"; "-h"] fooAndFooBar))
    = {| subcommand := "foo bar"; subcommandArgs := ["baz"; "-h"];
         topFlags := []; isHelp := true; isVersion := false |}.
Proof.
  apply (nested_classification sentinel basicHelp
           (cliOf "" ["foo"; "bar"; "baz"; "-h"] fooAndFooBar)
           [] ["foo"; "bar"; "baz"] ["-h"] "foo bar" (factoryOf 22)).
  - reflexivity.
  - reflexivity.
  - leading_tokens.
  - discriminate.
  - blank_tokens.
  - reflexivity.
  - reflexivity.
  - reflexivity.
  - reflexivity.
  - discriminate.
Defined.

(** The nested scan at [["zip"; "zap"]] under [{"foo bar": F}]. *)
Lemma nested_unmatched_classification_witness :
  initPanics sentinel (cliOf "" ["zip"; "zap"] onlyFooBar) = false
  ∧ dispatch (initOf (cliOf "" ["zip"; "zap"] onlyFooBar))
    = {| subcommand := "zip"; subcommandArgs := ["zap"];
         topFlags := []; isHelp := false; isVersion := false |}.
Proof.
  apply (nested_unmatched_classification sentinel basicHelp
           (cliOf "" ["zip"; "zap"] onlyFooBar) [] ["zap"] [] "zip").
  - reflexivity.
  - reflexivity.
  - leading_tokens.
  - blank_tokens.
  - exact I.
  - reflexivity.
Defined.

(** [["-h"; "foo"]] under [{"foo": F, "foo bad": G}], where [G] fails:
    [Run] panics in [commandHelp], having run no command. *)
Lemma help_flag_runs_no_command_witness :
  (∀ command args,
     EvCommandRun command args ∉ traceOf (runOf (cliOf "" ["-h"; "foo"] fooAndFooBad)))
  ∧ (∀ k text,
       EvInvalidFlags k text ∉ traceOf (runOf (cliOf "" ["-h"; "foo"] fooAndFooBad)))
  ∧ (∀ r, runOf (cliOf "" ["-h"; "foo"] fooAndFooBad) = Returns r →
       exitCode r = 0%Z
       ∨ exitCode r = 127%Z
       ∨ exitCode r = 1%Z ∧ is_Some (runError r)).
Proof.
  apply (help_flag_runs_no_command sentinel basicHelp parsesAll rendersAll
           (cliOf "" ["-h"; "foo"] fooAndFooBad)).
  reflexivity.
Defined.

(** [["foo"; "bar"; "-baz"]] under [{"foo", "foo bar"}]. *)
Lemma command_run_is_resolved_witness :
  ∃ raw,
    Radix.Get (commandTree (initOf (cliOf "" ["foo"; "bar"; "-baz"] fooAndFooBar)))
      (subcommand (dispatch (initOf (cliOf "" ["foo"; "bar"; "-baz"] fooAndFooBar)))) = Some raw
    ∧ raw () = inl (commandReturning 22)
    ∧ ["-baz"] = subcommandArgs (dispatch (initOf (cliOf "" ["foo"; "bar"; "-baz"] fooAndFooBar)))
    ∧ topFlags (dispatch (initOf (cliOf "" ["foo"; "bar"; "-baz"] fooAndFooBar))) = []
    ∧ isHelp (dispatch (initOf (cliOf "" ["foo"; "bar"; "-baz"] fooAndFooBar))) = false
    ∧ ¬ (isVersion (dispatch (initOf (cliOf "" ["foo"; "bar"; "-baz"] fooAndFooBar))) = true
         ∧ Version (cliOf "" ["foo"; "bar"; "-baz"] fooAndFooBar) ≠ "").
Proof.
  apply (command_run_is_resolved sentinel basicHelp parsesAll rendersAll
           (cliOf "" ["foo"; "bar"; "-baz"] fooAndFooBar) (commandReturning 22) ["-baz"]).
  apply list_elem_of_further, list_elem_of_here.
Defined.

(** The placeholder of ["foo"] under [{"foo bar": F}] returns the
    sentinel, and [Run] returns 1. *)
Lemma sentinel_is_never_the_exit_code_witness :
  exitCode {| exitCode := 1; runError := None;
              trace := [EvFactory "foo"; EvCommandRun (placeholderCommand sentinel) [];
                        EvFactory "foo bar";
                        EvCommandHelp ToErrorWriter (placeholderCommand sentinel)] |}
  ≠ sentinel.
Proof.
  apply (sentinel_is_never_the_exit_code sentinel basicHelp parsesAll rendersAll
           (cliOf "" ["foo"] onlyFooBar)); [discriminate..|reflexivity].
Defined.

(** [["bad"]] under a registry whose factory of ["bad"] fails. *)
Lemma construction_error_writes_nothing_witness :
  exitCode {| exitCode := 1; runError := Some "construction failed";
              trace := [EvFactory "bad"] |} = 1%Z
  ∧ trace {| exitCode := 1; runError := Some "construction failed";
             trace := [EvFactory "bad"] |}
    = [EvFactory (subcommand (dispatch (initOf (cliOf "" ["bad"] [("bad", failingFactory)]))))]
  ∧ ∃ raw,
      Radix.Get (commandTree (initOf (cliOf "" ["bad"] [("bad", failingFactory)])))
        (subcommand (dispatch (initOf (cliOf "" ["bad"] [("bad", failingFactory)])))) = Some raw
      ∧ raw () = inr "construction failed".
Proof.
  apply (construction_error_writes_nothing sentinel basicHelp parsesAll rendersAll
           (cliOf "" ["bad"] [("bad", failingFactory)])); reflexivity.
Defined.


(** [["foo"]] under [{"foo bar": F}] resolves to the placeholder. *)
Lemma placeholder_only_shows_help_witness :
  (∀ r, runOf (cliOf "" ["foo"] onlyFooBar) = Returns r →
     (exitCode r = 0%Z ∨ exitCode r = 1%Z) ∧ runError r = None)
  ∧ ∀ command args,
      EvCommandRun command args ∈ traceOf (runOf (cliOf "" ["foo"] onlyFooBar))
      → command = placeholderCommand sentinel
        ∧ runOf (cliOf "" ["foo"] onlyFooBar)
          = afterHelp
              [EvFactory (subcommand (dispatch (initOf (cliOf "" ["foo"] onlyFooBar))));
               EvCommandRun (placeholderCommand sentinel) args]
              (commandHelp parsesAll rendersAll (cliOf "" ["foo"] onlyFooBar)
                 (initOf (cliOf "" ["foo"] onlyFooBar)) ToErrorWriter
                 (placeholderCommand sentinel)) 1.
Proof.
  apply (placeholder_only_shows_help sentinel basicHelp parsesAll rendersAll
           (cliOf "" ["foo"] onlyFooBar)).
  reflexivity.
Defined.

(** [[""; "foo"; "-bar"]] under [{"foo": F}]. *)
Lemma flat_command_is_run_witness :
  runOf (cliOf "" [""; "foo"; "-bar"] onlyFoo)
  = executed sentinel parsesAll rendersAll (cliOf "" [""; "foo"; "-bar"] onlyFoo)
      (initOf (cliOf "" [""; "foo"; "-bar"] onlyFoo)) "foo" (commandReturning 11) ["-bar"]
  ∧ commandHelpCalls (initOf (cliOf "" [""; "foo"; "-bar"] onlyFoo)) = []
  ∧ commandHelpSubcommands (initOf (cliOf "" [""; "foo"; "-bar"] onlyFoo)) = Some [].
Proof.
  apply (flat_command_is_run sentinel basicHelp parsesAll rendersAll
           (cliOf "" [""; "foo"; "-bar"] onlyFoo) [""] "foo" ["-bar"] (factoryOf 11)).
  - reflexivity.
  - reflexivity.
  - blank_tokens.
  - reflexivity.
  - reflexivity.
  - reflexivity.
  - reflexivity.
Defined.

(** [["zip"]] under [{"foo": F}]. *)
Lemma flat_unknown_command_is_127_witness :
  runOf (cliOf "" ["zip"] onlyFoo)
  = Returns
      {| exitCode := 127; runError := None;
         trace := [EvHelpFunc ToErrorWriter
                     (helpCommands (initOf (cliOf "" ["zip"] onlyFoo)) "")
                     (helpFunc (initOf (cliOf "" ["zip"] onlyFoo))
                        (helpCommands (initOf (cliOf "" ["zip"] onlyFoo)) "")
                      +:+ newline)] |}.
Proof.
  apply (flat_unknown_command_is_127 sentinel basicHelp parsesAll rendersAll
           (cliOf "" ["zip"] onlyFoo) [] "zip" []).
  - reflexivity.
  - reflexivity.
  - blank_tokens.
  - reflexivity.
  - reflexivity.
  - reflexivity.
  - reflexivity.
Defined.

(** [["-h"; "--version"; "foo"]] with the version ["1.2.3"]. *)
Lemma version_flag_wins_witness :
  runOf (cliOf "1.2.3" ["-h"; "--version"; "foo"] onlyFoo)
  = Returns {| exitCode := 0; runError := None;
               trace := [EvWriteVersion ToHelpWriter ("1.2.3" +:+ newline)] |}.
Proof.
  apply (version_flag_wins sentinel basicHelp parsesAll rendersAll
           (cliOf "1.2.3" ["-h"; "--version"; "foo"] onlyFoo) ["-h"] "--version" ["foo"]).
  - reflexivity.
  - leading_tokens.
  - reflexivity.
  - discriminate.
  - reflexivity.
Defined.

(** [["-h"]] under [{"foo": F}] ([TestCLIRun_printHelp]). *)
Lemma help_without_command_shows_root_witness :
  runOf (cliOf "" ["-h"] onlyFoo)
  = Returns
      {| exitCode := 0; runError := None;
         trace := [EvHelpFunc ToHelpWriter
                     (helpCommands (initOf (cliOf "" ["-h"] onlyFoo)) "")
                     (helpFunc (initOf (cliOf "" ["-h"] onlyFoo))
                        (helpCommands (initOf (cliOf "" ["-h"] onlyFoo)) "")
                      +:+ newline)] |}.
Proof.
  apply (help_without_command_shows_root sentinel basicHelp parsesAll rendersAll
           (cliOf "" ["-h"] onlyFoo) ["-h"] []).
  - reflexivity.
  - by left.
  - leading_tokens.
  - reflexivity.
  - by left.
Defined.


(** The parent of ["foo bar baz"]. *)
Lemma subcommandParent_of_child_witness :
  subcommandParent ("foo bar" +:+ " " +:+ "baz") = "foo bar".
Proof.
  apply (subcommandParent_of_child "foo bar" "baz"); [discriminate|reflexivity].
Defined.

(** The parent of ["foo bar"]. *)
Lemma subcommandParent_proper_prefix_witness :
  Strings.HasPrefix "foo bar" (subcommandParent "foo bar") = true
  ∧ String.length (subcommandParent "foo bar") < String.length "foo bar".
Proof.
  apply (subcommandParent_proper_prefix "foo bar"). discriminate.
Defined.

(** ["foo"] is listed at the root of [{"foo", "foo bar"}]. *)
Lemma root_listing_witness :
  helpCommands (initOf (cliOf "" [] fooAndFooBar)) "" !! "foo" = Some (factoryOf 11).
Proof.
  apply (proj2 (root_listing (initOf (cliOf "" [] fooAndFooBar)) "foo" (factoryOf 11))).
  split; [reflexivity|]. split; [|reflexivity].
  apply not_elem_of_empty.
Defined.

(** ["foo bar"] is listed under ["foo"] in [{"foo", "foo bar"}]. *)
Lemma children_listing_witness :
  helpCommands (initOf (cliOf "" [] fooAndFooBar)) "foo" !! "foo bar" = Some (factoryOf 22).
Proof.
  apply (proj2 (children_listing (initOf (cliOf "" [] fooAndFooBar)) "foo" "foo bar"
                  (factoryOf 22) eq_refl)).
  split; [reflexivity|]. split; [|reflexivity].
  apply not_elem_of_empty.
Defined.

(** ["foo bar"] hidden in [{"foo", "foo bar"}] and asked for by
    [["foo"; "bar"]]. *)
Lemma hidden_is_unlisted_only_witness :
  helpCommands (initOf (hiding ["foo bar"] (cliOf "" ["foo"; "bar"] fooAndFooBar))) "foo"
    !! "foo bar" = None
  ∧ commandTree (initOf (hiding ["foo bar"] (cliOf "" ["foo"; "bar"] fooAndFooBar)))
    = commandTree (initOf (withoutHidden (hiding ["foo bar"] (cliOf "" ["foo"; "bar"] fooAndFooBar))))
  ∧ commandNested (initOf (hiding ["foo bar"] (cliOf "" ["foo"; "bar"] fooAndFooBar)))
    = commandNested (initOf (withoutHidden (hiding ["foo bar"] (cliOf "" ["foo"; "bar"] fooAndFooBar))))
  ∧ dispatch (initOf (hiding ["foo bar"] (cliOf "" ["foo"; "bar"] fooAndFooBar)))
    = dispatch (initOf (withoutHidden (hiding ["foo bar"] (cliOf "" ["foo"; "bar"] fooAndFooBar)))).
Proof.
  apply (hidden_is_unlisted_only sentinel basicHelp
           (hiding ["foo bar"] (cliOf "" ["foo"; "bar"] fooAndFooBar)) "foo bar" "foo").
  apply list_elem_of_here.
Defined.

(** The entry of ["foo"] in the registry of [{"foo bar": F}]. *)
Lemma registry_entries_sound_witness :
  (∃ k0, (k0, placeholderFactory sentinel) ∈ Commands (cliOf "" [] onlyFooBar)
         ∧ Strings.TrimSpace k0 = "foo")
  ∨ placeholderFactory sentinel = placeholderFactory sentinel
    ∧ Radix.Get (buildTree (Commands (cliOf "" [] onlyFooBar))).1 "foo" = None
    ∧ ∃ k0 v, (k0, v) ∈ Commands (cliOf "" [] onlyFooBar) ∧ ancestor "foo" (Strings.TrimSpace k0).
Proof.
  apply (registry_entries_sound sentinel basicHelp (cliOf "" [] onlyFooBar) "foo"
           (placeholderFactory sentinel)).
  reflexivity.
Defined.

(** The placeholder ["foo"] of [{"foo bar baz": F}] has a child. *)
Lemma placeholder_has_child_witness :
  ∃ k, is_Some (Radix.Get (commandTree (initOf (cliOf "" [] [("foo bar baz", factoryOf 33)]))) k)
       ∧ parentOf k = Some "foo".
Proof.
  apply (placeholder_has_child sentinel basicHelp
           (cliOf "" [] [("foo bar baz", factoryOf 33)]) "foo").
  - reflexivity.
  - by eexists.
Defined.

(** Two keys that trim to ["foo"]: the one visited last is kept. *)
Lemma last_visited_key_wins_witness :
  Radix.Get (commandTree (initOf (cliOf "" [] [(" foo", factoryOf 1); ("foo ", factoryOf 2)])))
    (Strings.TrimSpace "foo ") = Some (factoryOf 2).
Proof.
  apply (last_visited_key_wins sentinel basicHelp
           (cliOf "" [] [(" foo", factoryOf 1); ("foo ", factoryOf 2)])
           [(" foo", factoryOf 1)] []).
  - reflexivity.
  - intros kv Hkv. by apply elem_of_nil in Hkv.
Defined.

(** The registry of [{"foo": F}] is flat and holds the given keys only. *)
Lemma nested_iff_spaced_key_witness :
  commandTree (initOf (cliOf "" [] onlyFoo)) = (buildTree (Commands (cliOf "" [] onlyFoo))).1.
Proof.
  apply (proj2 (nested_iff_spaced_key sentinel basicHelp (cliOf "" [] onlyFoo))).
  reflexivity.
Defined.

(** The subcommands of ["foo"] in the help of [["-h"; "foo"]]
    ([TestCLIRun_printCommandHelpSubcommands]): every aligned name is 6
    bytes long. *)
Lemma aligned_names_share_width_witness :
  ∃ width, ∀ e,
    e ∈ [ {| dataName := "banana"; dataNameAligned := "banana";
             dataHelp := ""; dataSynopsis := "hi!" |};
          {| dataName := "bar"; dataNameAligned := "bar   ";
             dataHelp := ""; dataSynopsis := "hi!" |};
          {| dataName := "longer"; dataNameAligned := "longer";
             dataHelp := ""; dataSynopsis := "hi!" |};
          {| dataName := "zap"; dataNameAligned := "zap   ";
             dataHelp := ""; dataSynopsis := "hi!" |};
          {| dataName := "zip"; dataNameAligned := "zip   ";
             dataHelp := ""; dataSynopsis := "hi!" |} ]
    → String.length (dataNameAligned e) = width
      ∧ String.length (dataName e) ≤ width
      ∧ Strings.ContainsRune (dataName e) Strings.space = false
      ∧ Strings.HasPrefix (dataNameAligned e) (dataName e) = true.
Proof.
  apply (aligned_names_share_width (initOf (cliOf "" ["-h"; "foo"] fooFamily))).
  vm_compute. reflexivity.
Defined.

(** The subcommands of ["L1"] in the help of [["-h"; "L1"]]
    ([TestCLIRun_printCommandHelpSubcommandsNestedTwoLevel]). *)
Lemma help_entries_are_the_listed_commands_witness :
  Sorted.Sorted String.le
    (map (λ e, listingPrefix (subcommand (dispatch (initOf (cliOf "" ["-h"; "L1"] twoLevels))))
               +:+ dataName e)
       [ {| dataName := "L2A"; dataNameAligned := "L2A";
            dataHelp := ""; dataSynopsis := "hi!" |};
         {| dataName := "L2B"; dataNameAligned := "L2B";
            dataHelp := ""; dataSynopsis := "hi!" |} ])
  ∧ NoDup
      (map (λ e, listingPrefix (subcommand (dispatch (initOf (cliOf "" ["-h"; "L1"] twoLevels))))
                 +:+ dataName e)
         [ {| dataName := "L2A"; dataNameAligned := "L2A";
              dataHelp := ""; dataSynopsis := "hi!" |};
           {| dataName := "L2B"; dataNameAligned := "L2B";
              dataHelp := ""; dataSynopsis := "hi!" |} ])
  ∧ length [ {| dataName := "L2A"; dataNameAligned := "L2A";
                dataHelp := ""; dataSynopsis := "hi!" |};
             {| dataName := "L2B"; dataNameAligned := "L2B";
                dataHelp := ""; dataSynopsis := "hi!" |} ]
    = size (helpCommands (initOf (cliOf "" ["-h"; "L1"] twoLevels))
              (subcommand (dispatch (initOf (cliOf "" ["-h"; "L1"] twoLevels)))))
  ∧ (∀ k,
       k ∈ map (λ e, listingPrefix (subcommand (dispatch (initOf (cliOf "" ["-h"; "L1"] twoLevels))))
                     +:+ dataName e)
             [ {| dataName := "L2A"; dataNameAligned := "L2A";
                  dataHelp := ""; dataSynopsis := "hi!" |};
               {| dataName := "L2B"; dataNameAligned := "L2B";
                  dataHelp := ""; dataSynopsis := "hi!" |} ]
       ↔ is_Some (helpCommands (initOf (cliOf "" ["-h"; "L1"] twoLevels))
                    (subcommand (dispatch (initOf (cliOf "" ["-h"; "L1"] twoLevels)))) !! k))
  ∧ ∀ e,
      e ∈ [ {| dataName := "L2A"; dataNameAligned := "L2A";
               dataHelp := ""; dataSynopsis := "hi!" |};
            {| dataName := "L2B"; dataNameAligned := "L2B";
               dataHelp := ""; dataSynopsis := "hi!" |} ]
      → ∃ raw sub,
          helpCommands (initOf (cliOf "" ["-h"; "L1"] twoLevels))
            (subcommand (dispatch (initOf (cliOf "" ["-h"; "L1"] twoLevels))))
            !! (listingPrefix (subcommand (dispatch (initOf (cliOf "" ["-h"; "L1"] twoLevels))))
                +:+ dataName e) = Some raw
          ∧ raw () = inl sub
          ∧ dataHelp e = Command.Help sub
          ∧ dataSynopsis e = Command.Synopsis sub.
Proof.
  apply (help_entries_are_the_listed_commands (initOf (cliOf "" ["-h"; "L1"] twoLevels))).
  - reflexivity.
  - vm_compute. reflexivity.
Defined.

(** The help of ["foo"] when the factory of ["foo bad"] fails. *)
Lemma help_data_panics_iff_witness :
  commandHelpSubcommands
    (initOf (cliOf "" ["-h"; "foo"] [("foo", factoryOf 11); ("foo bad", failingFactory)]))
  = None.
Proof.
  apply (proj2 (help_data_panics_iff
                  (initOf (cliOf "" ["-h"; "foo"]
                             [("foo", factoryOf 11); ("foo bad", failingFactory)])))).
  split; [reflexivity|].
  exists "foo bad", failingFactory, "construction failed".
  split; reflexivity.
Defined.

(** A template of the command that ends in a newline is used as it is. *)
Lemma help_template_ends_in_newline_witness :
  helpTemplateText (templated ("{{.Help}}" +:+ newline)) = "{{.Help}}" +:+ newline.
Proof.
  apply (proj2 (help_template_ends_in_newline (templated ("{{.Help}}" +:+ newline))));
    reflexivity.
Defined.
